(** * wtttoday: the time-allocation engine

    A shallow embedding of the scheduling core of [wtttoday.py]
    (interval algebra, break sizing, the greedy backward-filling planner
    and the multi-day share computation), with the properties of the
    engine stated and proved over it.

    Minutes of the day and all other Python [int]s are [Z]; Python lists
    are [list]; tuples are products; [str] is [string] (the UTF-8 bytes
    of the text). *)

From Stdlib Require Import ZArith List Bool Lia String Ascii.
From Stdlib Require Import Sorting.Sorted Sorting.Permutation.
From Stdlib Require Import Floats Uint63.
From Stdlib Require Import DecimalString.
Import ListNotations.
Open Scope Z_scope.
Open Scope list_scope.

(* ------------------------------------------------------------------ *)
(** * Python's [sorted] / [list.sort]                                   *)
(* ------------------------------------------------------------------ *)

(** [list.sort] is a stable sort.  Insertion at the first position whose
    element is not smaller, folded from the right, is stable as well, and
    every stable sort returns the same list for the same total preorder. *)
Section PySort.
Variable A : Type.
Variable leb : A -> A -> bool.

Fixpoint insert_sorted (x : A) (l : list A) : list A :=
  match l with
  | [] => [x]
  | y :: l' => if leb x y then x :: y :: l' else y :: insert_sorted x l'
  end.

Definition py_sorted (l : list A) : list A :=
  fold_right insert_sorted [] l.
End PySort.

Arguments insert_sorted {A} leb x l.
Arguments py_sorted {A} leb l.

(** Tuple comparison is lexicographic. *)
Definition pair_leb (a b : Z * Z) : bool :=
  (fst a <? fst b) || ((fst a =? fst b) && (snd a <=? snd b)).

Definition str_leb (a b : string) : bool :=
  match String.compare a b with Gt => false | _ => true end.

Definition Interval : Type := Z * Z * string.

Definition interval_leb (a b : Interval) : bool :=
  let '(s1, e1, l1) := a in
  let '(s2, e2, l2) := b in
  (s1 <? s2) || ((s1 =? s2) && ((e1 <? e2) || ((e1 =? e2) && str_leb l1 l2))).

(* ------------------------------------------------------------------ *)
(** * ScheduleEngine: interval algebra                                   *)
(* ------------------------------------------------------------------ *)

(** [merge_intervals]: the loop over [xs[1:]] keeps the merged list in
    [out]; here [out] is held as its last element [cur] and the reversed
    list [acc] of the elements before it. *)
Fixpoint merge_loop (acc : list Interval) (cur : Interval) (xs : list Interval)
  : list Interval :=
  match xs with
  | [] => rev (cur :: acc)
  | (s, e, label) :: xs' =>
      let '(ls, le, ll) := cur in
      if s <=? le then merge_loop acc (ls, Z.max le e, ll) xs'
      else merge_loop (cur :: acc) (s, e, label) xs'
  end.

Definition merge_intervals (intervals : list Interval) : list Interval :=
  match py_sorted interval_leb intervals with
  | [] => []
  | x :: xs => merge_loop [] x xs
  end.

(** [subtract_intervals]: the two comprehensions, then the sweep. *)
Definition clip_blocks (start end_ : Z) (busy : list Interval) : list (Z * Z) :=
  filter (fun b => fst b <? snd b)
         (map (fun i : Interval => let '(s, e, _) := i in (Z.max start s, Z.min end_ e)) busy).

(** The [for s,e in blocks] loop with its [break]; returns the segments
    appended to [free] and the final value of [cur]. *)
Fixpoint sweep (end_ : Z) (blocks : list (Z * Z)) (cur : Z) : list (Z * Z) * Z :=
  match blocks with
  | [] => ([], cur)
  | (s, e) :: rest =>
      let gap := if cur <? s then [(cur, s)] else [] in
      let cur' := Z.max cur e in
      if cur' >=? end_ then (gap, cur')
      else let '(fr, c) := sweep end_ rest cur' in (gap ++ fr, c)
  end.

Definition subtract_intervals (start end_ : Z) (busy : list Interval) : list (Z * Z) :=
  match clip_blocks start end_ busy with
  | [] => [(start, end_)]
  | blocks =>
      let '(free, cur) := sweep end_ (py_sorted pair_leb blocks) start in
      if cur <? end_ then free ++ [(cur, end_)] else free
  end.

(** Membership of a minute in a list of half-open segments. *)
Definition covered (l : list (Z * Z)) (x : Z) : Prop :=
  exists p, In p l /\ fst p <= x < snd p.

Definition seg_disjoint (p q : Z * Z) : Prop :=
  snd p <= fst q \/ snd q <= fst p.

(* ------------------------------------------------------------------ *)
(** * Python floats                                                     *)
(* ------------------------------------------------------------------ *)

(** A Python [float] is an IEEE 754 binary64 number.  Every finite one is
    a dyadic number [m * 2^e], kept here as the pair [(m, e)]; each
    operation is the exact operation followed by rounding to 53
    significant bits, ties to even.  The exponent is unbounded: the model
    is CPython's arithmetic as long as no operation overflows, which for
    [compute_adaptive_break] with a tiredness in [1..10] means
    [|max_break| < 2^1023]; where CPython raises [OverflowError] instead
    is [float_error] below. *)
Definition dyadic : Type := Z * Z.

(** Nearest integer to [n / d] for [d > 0], ties to even. *)
Definition round_half_even (n d : Z) : Z :=
  let q := n / d in
  let r := n mod d in
  if 2 * r <? d then q
  else if d <? 2 * r then q + 1
  else if Z.even q then q else q + 1.

(** Nearest integer with at most 53 significant bits, for [0 <= n]. *)
Definition rnd53 (n : Z) : Z :=
  if n <? 2 ^ 53 then n
  else let s := Z.log2 n - 52 in round_half_even n (2 ^ s) * 2 ^ s.

Definition rnd (n : Z) : Z := Z.sgn n * rnd53 (Z.abs n).

Definition fl_of_Z (n : Z) : dyadic := (rnd n, 0).

Definition fl_mul (a b : dyadic) : dyadic :=
  (rnd (fst a * fst b), snd a + snd b).

Definition fl_add (a b : dyadic) : dyadic :=
  let e := Z.min (snd a) (snd b) in
  (rnd (fst a * 2 ^ (snd a - e) + fst b * 2 ^ (snd b - e)), e).

(** Division: the quotient of the mantissas is taken with at least 55
    bits and a sticky last bit, which rounds as the exact quotient does.
    The divisor is never zero where this is used. *)
Definition fl_div (a b : dyadic) : dyadic :=
  let n := Z.abs (fst a) in
  let d := Z.abs (fst b) in
  if (n =? 0) || (d =? 0) then (0, 0)
  else
    let k := Z.max 0 (55 + Z.log2 d - Z.log2 n) in
    let q := (n * 2 ^ k) / d in
    let sticky := if (n * 2 ^ k) mod d =? 0 then 0 else 1 in
    (Z.sgn (fst a) * Z.sgn (fst b) * rnd53 (2 * q + sticky), snd a - snd b - k - 1).

(** [int(x)]: truncation toward zero. *)
Definition fl_trunc (a : dyadic) : Z :=
  if 0 <=? snd a then fst a * 2 ^ snd a else Z.quot (fst a) (2 ^ (- snd a)).

(** Order of the values of two dyadic numbers. *)
Definition dyadic_le (a b : dyadic) : Prop :=
  let e := Z.min (snd a) (snd b) in
  fst a * 2 ^ (snd a - e) <= fst b * 2 ^ (snd b - e).

Definition dyadic_leb (a b : dyadic) : bool :=
  let e := Z.min (snd a) (snd b) in
  fst a * 2 ^ (snd a - e) <=? fst b * 2 ^ (snd b - e).

Definition dyadic_eqb (a b : dyadic) : bool :=
  let e := Z.min (snd a) (snd b) in
  fst a * 2 ^ (snd a - e) =? fst b * 2 ^ (snd b - e).

(** The literals [1.0], [10.0] and [0.75]. *)
Definition fl_1 : dyadic := (1, 0).
Definition fl_10 : dyadic := (10, 0).
Definition fl_0_75 : dyadic := (3, -2).

(** [1.0 + (tired / 10.0) * 0.75] *)
Definition tired_mult (tired : Z) : dyadic :=
  fl_add fl_1 (fl_mul (fl_div (fl_of_Z tired) fl_10) fl_0_75).

(** [int(max_break * tired_mult)], where lines 179-180 return; where
    they raise is [float_error] below. *)
Definition scaled_max_break (max_break tired : Z) : Z :=
  fl_trunc (fl_mul (fl_of_Z max_break) (tired_mult tired)).

(** The same two expressions on the machine's binary64 numbers, to which
    the model is compared by evaluation. *)
Definition sf_to_dyadic (f : spec_float) : option dyadic :=
  match f with
  | S754_zero _ => Some (0, 0)
  | S754_finite s m e => Some (if s then Z.neg m else Z.pos m, e)
  | _ => None
  end.

(** [float(n)] for [|n| < 2^63]. *)
Definition hw_of_Z (n : Z) : float :=
  if 0 <=? n then of_uint63 (Uint63.of_Z n)
  else PrimFloat.opp (of_uint63 (Uint63.of_Z (- n))).

Definition hw_tired_mult (tired : Z) : float :=
  (1 + (hw_of_Z tired / 10) * 0.75)%float.

Definition hw_scaled_max_break (max_break tired : Z) : option Z :=
  option_map fl_trunc
    (sf_to_dyadic (Prim2SF (hw_of_Z max_break * hw_tired_mult tired)%float)).

Definition zrange (lo : Z) (n : nat) : list Z :=
  map (fun i => lo + Z.of_nat i) (seq 0 n).

Definition agrees_with_hw (max_break tired : Z) : bool :=
  match hw_scaled_max_break max_break tired with
  | Some m => m =? scaled_max_break max_break tired
  | None => false
  end.

(* ------------------------------------------------------------------ *)
(** * ScheduleEngine.compute_adaptive_break                              *)
(* ------------------------------------------------------------------ *)

Definition slack_of (remaining_after current_end window_end : Z) : Z :=
  Z.max 0 (window_end - current_end - remaining_after).

(** The value the function returns; [compute_adaptive_break_call] below
    adds the [OverflowError] of an [int] or a product beyond the floats. *)
Definition compute_adaptive_break
  (remaining_after current_end window_end max_break tired min_gap_between_study : Z) : Z :=
  let slack := slack_of remaining_after current_end window_end in
  let max_break := scaled_max_break max_break tired in
  let base := Z.max min_gap_between_study 0 in
  if (max_break <=? 0) || (slack <=? 5) then base
  else if slack <=? 20 then Z.max base (Z.min 10 max_break)
  else if slack <=? 40 then Z.max base (Z.min 15 max_break)
  else Z.max base (Z.min max_break (Z.max 20 (slack / 3))).

(* ------------------------------------------------------------------ *)
(** * Strings and the time format                                       *)
(* ------------------------------------------------------------------ *)

Definition sapp (a b : string) : string := String.append a b.
Infix "+++" := sapp (right associativity, at level 60).

Definition nl : string := String (ascii_of_nat 10) EmptyString.

(** [str(n)] for an [int]. *)
Definition str_of_Z (n : Z) : string := NilZero.string_of_int (Z.to_int n).

(** The format [{n:02d}]. *)
Definition pad2 (n : Z) : string :=
  if (0 <=? n) && (n <? 10) then "0" +++ str_of_Z n else str_of_Z n.

Definition fmt_min_to_time (mn : Z) : string :=
  let mn := mn mod (24 * 60) in
  let hh := mn / 60 in
  let mm := mn mod 60 in
  let suf := if hh <? 12 then "AM"%string else "PM"%string in
  let h12 := if (1 <=? hh) && (hh <=? 12) then hh
             else if (hh =? 0) || (hh =? 12) then 12 else hh - 12 in
  str_of_Z h12 +++ ":" +++ pad2 mm +++ " " +++ suf.

(** [s.startswith(p)] and [s.replace(old, new, 1)]. *)
Definition startswith (s p : string) : bool := String.prefix p s.

Fixpoint drop_chars (n : nat) (s : string) : string :=
  match n, s with
  | O, _ => s
  | S n', String _ s' => drop_chars n' s'
  | S _, EmptyString => EmptyString
  end.

Fixpoint replace_first (old new s : string) : string :=
  if String.prefix old s then new +++ drop_chars (String.length old) s
  else match s with
       | EmptyString => EmptyString
       | String c s' => String c (replace_first old new s')
       end.

(* ------------------------------------------------------------------ *)
(** * Data classes                                                      *)
(* ------------------------------------------------------------------ *)

Record Lecture : Type := mkLecture {
  lec_course : string;
  lec_start_min : Z;
  lec_end_min : Z
}.

Record WorkItem : Type := mkWorkItem {
  w_course : string;
  title : string;
  date_iso : string;
  due_min : Z;
  minutes_needed : Z;
  prepared : bool;
  repeat_weekly : bool
}.

(** [kind] is one of ["study"], ["break"], ["lecture"]. *)
Record PlanBlock : Type := mkPlanBlock {
  start_min : Z;
  end_min : Z;
  label : string;
  kind : string;
  course : string;
  manual : bool
}.

(** Exceptions, and the outcome of a call.  [Diverged] is the outcome of
    a loop that was cut off by its iteration budget. *)
Inductive exn : Type :=
| ValueError (msg : string)
| OverflowError (msg : string).

Inductive outcome (A : Type) : Type :=
| Ok (a : A)
| Raise (e : exn)
| Diverged.

Arguments Ok {A} a.
Arguments Raise {A} e.
Arguments Diverged {A}.

(* ------------------------------------------------------------------ *)
(** * ScheduleEngine                                                    *)
(* ------------------------------------------------------------------ *)

Record ScheduleEngine : Type := mkEngine {
  day_start : Z;
  day_end : Z;
  now_min : option Z
}.

(** [ScheduleEngine.__init__] *)
Definition ScheduleEngine_init (day_start day_end : Z) (now_min : option Z)
  : outcome ScheduleEngine :=
  if day_start >=? day_end
  then Raise (ValueError "Day start must be before day end.")
  else Ok (mkEngine day_start day_end now_min).

(** Where lines 179-180 raise.  A binary64 number is finite when its
    magnitude is below [2^1024]; [tired / 10.0] and [max_break * tired_mult]
    first convert the [int] and raise [OverflowError] when its nearest
    float is not finite, and [int(x)] raises it for an infinite product. *)
Definition fl_finite (a : dyadic) : bool :=
  let e := Z.min (snd a) 0 in
  Z.abs (fst a) * 2 ^ (snd a - e) <? 2 ^ 1024 * 2 ^ (- e).

Definition float_error (max_break tired : Z) : option exn :=
  if negb (fl_finite (fl_of_Z tired))
  then Some (OverflowError "int too large to convert to float")
  else if negb (fl_finite (fl_of_Z max_break))
  then Some (OverflowError "int too large to convert to float")
  else if negb (fl_finite (fl_mul (fl_of_Z max_break) (tired_mult tired)))
  then Some (OverflowError "cannot convert float infinity to integer")
  else None.

(** A call of [compute_adaptive_break] with its exceptions: the value is
    that of [compute_adaptive_break] whenever the call returns. *)
Definition compute_adaptive_break_call
  (remaining_after current_end window_end max_break tired min_gap_between_study : Z)
  : outcome Z :=
  match float_error max_break tired with
  | Some e => Raise e
  | None => Ok (compute_adaptive_break remaining_after current_end window_end
                  max_break tired min_gap_between_study)
  end.

(** The lecture loop at the head of [plan]. *)
Definition lecture_busy (self : ScheduleEngine) (lecture_buffer_min : Z)
  (lectures : list Lecture) : list Interval :=
  flat_map (fun lec =>
    let s := Z.max (day_start self) (lec_start_min lec - lecture_buffer_min) in
    let e := Z.min (day_end self) (lec_end_min lec + lecture_buffer_min) in
    if e >? s then [(s, e, "Lecture: " +++ lec_course lec)] else []) lectures.

(** [pending.sort(key=lambda w: (w.due_min, -w.minutes_needed))] *)
Definition task_key (w : WorkItem) : Z * Z := (due_min w, - minutes_needed w).

Definition task_leb (a b : WorkItem) : bool := pair_leb (task_key a) (task_key b).

Definition pending_of (work : list WorkItem) : list WorkItem :=
  py_sorted task_leb (filter (fun w => negb (prepared w)) work).

(** [choose_free_segments]: the scored triples, sorted as tuples. *)
Definition score (due_min : Z) (seg : Z * Z) : Z * Z * (Z * Z) :=
  (Z.abs (due_min - snd seg), - (snd seg - fst seg), seg).

Definition score_leb (a b : Z * Z * (Z * Z)) : bool :=
  let '(d1, n1, g1) := a in
  let '(d2, n2, g2) := b in
  (d1 <? d2) || ((d1 =? d2) && ((n1 <? n2) || ((n1 =? n2) && pair_leb g1 g2))).

Definition choose_free_segments (free : list (Z * Z)) (due_min : Z) : list (Z * Z) :=
  map snd (py_sorted score_leb (map (score due_min) free)).

(** The [for fs,fe in reversed(ordered)] loop up to its [break]: the
    segment committed to and the minutes allocated in it. *)
Fixpoint first_fit (block_size remaining : Z) (segs : list (Z * Z))
  : option (Z * Z * Z) :=
  match segs with
  | [] => None
  | (fs, fe) :: rest =>
      let span := fe - fs in
      if span <=? 0 then first_fit block_size remaining rest
      else
        let alloc := Z.min (Z.min block_size remaining) span in
        if alloc <=? 0 then first_fit block_size remaining rest
        else Some (fs, fe, alloc)
  end.

Definition study_label (w : WorkItem) : string :=
  "Study: " +++ w_course w +++ " — " +++ title w.

Definition block_interval (b : PlanBlock) : Interval :=
  (start_min b, end_min b, label b).

(** What [plan] accumulates: [plan_blocks] and [lines]. *)
Record PlanState : Type := mkState {
  plan_blocks : list PlanBlock;
  lines : list string
}.

Section Plan.
Variable self : ScheduleEngine.
Variable block_size max_break : Z.
Variable adaptive_breaks : bool.
Variable tired : Z.
Variable min_gap_between_study : Z.
Variable busy : list Interval.
Variable window_start : Z.

(** The statements executed once a segment is committed to: the Study
    block, the optional Break block, and the new [remaining] and
    [window_end]. *)
Definition commit (w : WorkItem) (window_end remaining : Z) (fe alloc : Z)
  (st : PlanState) : Z * Z * PlanState :=
  let start_time := fe - alloc in
  let end_time := fe in
  let blocks1 := plan_blocks st ++
      [mkPlanBlock start_time end_time (study_label w) "study" (w_course w) false] in
  let lines1 := lines st ++
      [fmt_min_to_time start_time +++ " - " +++ fmt_min_to_time end_time +++ "  "
       +++ study_label w] in
  let remaining := remaining - alloc in
  let st1 := mkState blocks1 lines1 in
  let st2 :=
    if remaining >? 0 then
      let brk := compute_adaptive_break remaining start_time window_end
                   (if adaptive_breaks then max_break else 0) tired
                   (min_gap_between_study + tired * 3) in
      if brk >? 0 then
        let bstart := Z.max window_start (start_time - brk) in
        if bstart <? start_time then
          mkState (blocks1 ++ [mkPlanBlock bstart start_time "Break" "break" "" false])
                  (lines1 ++ [fmt_min_to_time bstart +++ " - "
                              +++ fmt_min_to_time start_time +++ "  Break"])
        else st1
      else st1
    else st1 in
  (start_time, remaining, st2).

(** One pass through the body of [while remaining > 0]: [None] when the
    body leaves the loop by [break], else the state for the next test. *)
Definition place_step (w : WorkItem) (window_end remaining : Z) (st : PlanState)
  : option (Z * Z * PlanState) :=
  let free := subtract_intervals window_start window_end
                (busy ++ map block_interval (plan_blocks st)) in
  match free with
  | [] => None
  | _ =>
      let ordered := choose_free_segments free (due_min w) in
      match first_fit block_size remaining (rev ordered) with
      | None => None
      | Some (fs, fe, alloc) => Some (commit w window_end remaining fe alloc st)
      end
  end.

(** [while remaining > 0: ...], with a budget of loop tests. *)
Fixpoint place_loop (fuel : nat) (w : WorkItem) (window_end remaining : Z)
  (st : PlanState) : option (Z * PlanState) :=
  match fuel with
  | O => None
  | S fuel' =>
      if remaining >? 0 then
        match place_step w window_end remaining st with
        | None => Some (remaining, st)
        | Some (window_end', remaining', st') =>
            place_loop fuel' w window_end' remaining' st'
        end
      else Some (remaining, st)
  end.

Definition no_window_line (w : WorkItem) : string :=
  "⚠ No window left before " +++ fmt_min_to_time (due_min w) +++ " for "
  +++ w_course w +++ " — " +++ title w.

Definition shortfall_line (w : WorkItem) (remaining : Z) : string :=
  "⚠ Not enough time before " +++ fmt_min_to_time (due_min w) +++ " for "
  +++ w_course w +++ " — " +++ title w +++ ": " +++ str_of_Z remaining +++ " min left".

(** The body of [for w in pending]. *)
Definition plan_task (fuel : nat) (w : WorkItem) (st : PlanState) : option PlanState :=
  let window_end := Z.min (day_end self) (due_min w) in
  if window_end <=? window_start then
    Some (mkState (plan_blocks st) (lines st ++ [no_window_line w]))
  else
    match place_loop fuel w window_end (minutes_needed w) st with
    | None => None
    | Some (remaining, st') =>
        if remaining >? 0
        then Some (mkState (plan_blocks st') (lines st' ++ [shortfall_line w remaining]))
        else Some st'
    end.

Fixpoint plan_tasks (fuel : nat) (pending : list WorkItem) (st : PlanState)
  : option PlanState :=
  match pending with
  | [] => Some st
  | w :: rest =>
      match plan_task fuel w st with
      | None => None
      | Some st' => plan_tasks fuel rest st'
      end
  end.
End Plan.

(** The closing loop over [sorted(busy)]. *)
Definition fixed_items (busy : list Interval) (st : PlanState) : PlanState :=
  fold_left (fun st (i : Interval) =>
    let '(s, e, label) := i in
    if startswith label "Lecture" then
      mkState (plan_blocks st ++
                 [mkPlanBlock s e label "lecture" (replace_first "Lecture: " "" label) false])
              (lines st ++ [fmt_min_to_time s +++ " - " +++ fmt_min_to_time e +++ "  " +++ label])
    else st) (py_sorted interval_leb busy) st.

Definition clamp_tired (tired : Z) : Z := Z.max 1 (Z.min 10 tired).

Definition start_bound_of (self : ScheduleEngine) : Z :=
  match now_min self with Some n => n | None => day_start self end.

(** [ScheduleEngine.plan]; [fuel] bounds the loop tests of each task's
    [while] loop, and [None] is returned when it is used up.  The breaks
    are the values of [compute_adaptive_break]: this is the call for
    [|max_break| < 2^1023], where no break computation overflows (the
    tiredness is clamped first); beyond it the code raises
    [OverflowError] at the first break it computes. *)
Definition plan (fuel : nat) (self : ScheduleEngine) (lectures : list Lecture)
  (work : list WorkItem) (block_size max_break : Z) (adaptive_breaks : bool)
  (tired : Z) (lecture_buffer_min min_gap_between_study : Z)
  : option (list PlanBlock * string) :=
  let tired := clamp_tired tired in
  let busy := merge_intervals (lecture_busy self lecture_buffer_min lectures) in
  let start_bound := start_bound_of self in
  let pending := pending_of work in
  match plan_tasks self block_size max_break adaptive_breaks tired
          min_gap_between_study busy start_bound fuel pending (mkState [] []) with
  | None => None
  | Some st =>
      let st := mkState (plan_blocks st) (lines st ++ [nl +++ "— Today’s Fixed Items —"]) in
      let st := fixed_items busy st in
      Some (plan_blocks st, String.concat nl (lines st))
  end.

(** A budget that is enough for every task of a call. *)
Definition enough_fuel (self : ScheduleEngine) : nat :=
  S (Z.to_nat (day_end self - start_bound_of self)).

(* ------------------------------------------------------------------ *)
(** * PlannerPanel.generate                                             *)
(* ------------------------------------------------------------------ *)

(** [generate] from the point where the entry fields have been read:
    the two checks, the engine, the two callbacks, the call of [plan]
    (lines 550-557).  Every exception ends in the [except] clause, which
    shows its text and leaves [_current_blocks] and the day store as they
    were; [Ok] carries what [plan] hands back, the blocks that are drawn
    and persisted and the text before line 567 extends it.  As [plan], it
    is the call for [max_break < 2^1023]. *)
Definition generate (fuel : nat) (day_start day_end block max_break tired : Z)
  (now_min : option Z) (lectures : outcome (list Lecture))
  (tasks_today : outcome (list WorkItem)) : outcome (list PlanBlock * string) :=
  if negb ((0 <=? day_start) && (day_start <? day_end) && (day_end <=? 24 * 60))
  then Raise (ValueError "Day start must be before end")
  else if (block <=? 0) || (max_break <? 0)
  then Raise (ValueError "Block>0, MaxBreak≥0")
  else
    match ScheduleEngine_init day_start day_end now_min with
    | Raise e => Raise e
    | Diverged => Diverged
    | Ok eng =>
        match lectures with
        | Raise e => Raise e
        | Diverged => Diverged
        | Ok lectures =>
            match tasks_today with
            | Raise e => Raise e
            | Diverged => Diverged
            | Ok tasks_today =>
                match plan fuel eng lectures tasks_today block max_break true tired 30 10 with
                | Some r => Ok r
                | None => Diverged
                end
            end
        end
    end.

(** Line 567: the text put in the text box, for the quote and the idea
    that [random_quote_and_idea] draws. *)
Definition shown_text (text q idea : string) : string :=
  text +++ nl +++ nl +++ "— Inspiration —" +++ nl +++ "“" +++ q +++ "”"
  +++ nl +++ "Try: " +++ idea.

(** [generate] up to line 569: the blocks kept in [_current_blocks] and
    handed to [_persist_plan], and the text shown. *)
Definition generate_shown (q idea : string) (fuel : nat)
  (day_start day_end block max_break tired : Z)
  (now_min : option Z) (lectures : outcome (list Lecture))
  (tasks_today : outcome (list WorkItem)) : outcome (list PlanBlock * string) :=
  match generate fuel day_start day_end block max_break tired now_min lectures tasks_today with
  | Ok (blocks, text) => Ok (blocks, shown_text text q idea)
  | Raise e => Raise e
  | Diverged => Diverged
  end.

(* ------------------------------------------------------------------ *)
(** * App._get_tasks_for_day                                            *)
(* ------------------------------------------------------------------ *)

Section Allocator.
(** [datetime.strptime(s, "%Y-%m-%d").date()], as the number of the day;
    it raises [ValueError] on text that is not a date. *)
Variable strptime_date : string -> outcome Z.

(** The day store: the ISO date of each day and its persisted plan. *)
Definition DayStore : Type := list (string * list PlanBlock).

Definition is_study_of (course title : string) (pb : PlanBlock) : bool :=
  String.eqb (kind pb) "study" &&
  String.eqb (label pb) ("Study: " +++ course +++ " — " +++ title).

Definition previously_planned_minutes (days : DayStore) (cur : Z)
  (course title : string) : Z :=
  fold_left (fun total (entry : string * list PlanBlock) =>
    match strptime_date (fst entry) with
    | Ok d =>
        if d >=? cur then total
        else fold_left (fun total pb =>
               if is_study_of course title pb
               then total + Z.max 0 (end_min pb - start_min pb)
               else total) (snd entry) total
    | _ => total
    end) days 0.

(** The body of [for w in self.week.export()]: the item appended to
    [items], if any. *)
Definition task_for_day (days : DayStore) (cur : Z) (w : WorkItem)
  : outcome (option WorkItem) :=
  if prepared w then Ok None
  else
    match strptime_date (date_iso w) with
    | Raise e => Raise e
    | Diverged => Diverged
    | Ok due_date =>
        let total := minutes_needed w in
        let remaining :=
          Z.max 0 (total - previously_planned_minutes days cur (w_course w) (title w)) in
        if remaining =? 0 then Ok None
        else
          let days_until := due_date - cur in
          let '(share, due_min_today) :=
            if days_until <? 0 then (remaining, 23 * 60 + 59)
            else if days_until =? 0 then (remaining, due_min w)
            else
              let parts := if days_until =? 1 then 2 else days_until in
              (Z.max 1 ((remaining + parts - 1) / parts), 23 * 60 + 59) in
          Ok (Some (mkWorkItem (w_course w) (title w) (date_iso w) due_min_today
                      share false (repeat_weekly w)))
    end.

Fixpoint tasks_loop (days : DayStore) (cur : Z) (week : list WorkItem)
  : outcome (list WorkItem) :=
  match week with
  | [] => Ok []
  | w :: rest =>
      match task_for_day days cur w with
      | Raise e => Raise e
      | Diverged => Diverged
      | Ok item =>
          match tasks_loop days cur rest with
          | Ok items => Ok (match item with Some i => i :: items | None => items end)
          | other => other
          end
      end
  end.

Definition _get_tasks_for_day (days : DayStore) (week : list WorkItem)
  (date_iso : string) : outcome (list WorkItem) :=
  match strptime_date date_iso with
  | Raise e => Raise e
  | Diverged => Diverged
  | Ok cur => tasks_loop days cur week
  end.

(** The history lookup in the words of the specification: the summed
    durations of the Study blocks with exactly that label, over the days
    strictly before [cur]. *)
Definition prior_minutes_spec (days : DayStore) (cur : Z) (course title : string) : Z :=
  fold_right Z.add 0
    (map (fun pb => end_min pb - start_min pb)
       (filter (is_study_of course title)
          (flat_map (fun entry : string * list PlanBlock =>
             match strptime_date (fst entry) with
             | Ok d => if d <? cur then snd entry else []
             | _ => []
             end) days))).
End Allocator.

(** [q] is the ceiling of [a / b]. *)
Definition is_ceil (q a b : Z) : Prop := (q - 1) * b < a <= q * b.

(** The day-scoped item of a work item, and the items of an optional one. *)
Definition day_item (w : WorkItem) (due share : Z) : WorkItem :=
  mkWorkItem (w_course w) (title w) (date_iso w) due share false (repeat_weekly w).

Definition item_list (r : option WorkItem) : list WorkItem :=
  match r with Some it => [it] | None => [] end.

(** The per-day share in the words of the specification, for a work item
    that is not prepared: [r] is the item that [w] gives on day [cur]. *)
Definition day_share_spec (strptime_date : string -> outcome Z) (days : DayStore)
  (cur : Z) (w : WorkItem) (r : option WorkItem) : Prop :=
  let prior := prior_minutes_spec strptime_date days cur (w_course w) (title w) in
  let remaining := Z.max 0 (minutes_needed w - prior) in
  (remaining = 0 -> r = None) /\
  (remaining <> 0 ->
   exists due_date,
     strptime_date (date_iso w) = Ok due_date /\
     (due_date < cur -> r = Some (day_item w (23 * 60 + 59) remaining)) /\
     (due_date = cur -> r = Some (day_item w (due_min w) remaining)) /\
     (cur < due_date ->
      exists share,
        is_ceil share remaining (if due_date - cur =? 1 then 2 else due_date - cur) /\
        r = Some (day_item w (23 * 60 + 59) share))).

(* ------------------------------------------------------------------ *)
(** * parse_time_to_min                                                 *)
(* ------------------------------------------------------------------ *)

(** The text functions are those of Python on ASCII text ([is_ascii]):
    [str.strip] removes the characters 9..13 and 28..32, [str.lower] changes
    [A-Z], and [\d] is [0-9].  On other text Python also strips non-ASCII
    white space and reads non-ASCII decimal digits, which a model on bytes
    does not follow. *)
Definition is_ascii (s : string) : bool :=
  forallb (fun c => (nat_of_ascii c <? 128)%nat) (list_ascii_of_string s).

Definition is_space (c : ascii) : bool :=
  let n := nat_of_ascii c in
  ((9 <=? n)%nat && (n <=? 13)%nat) || ((28 <=? n)%nat && (n <=? 32)%nat).

Definition is_digit (c : ascii) : bool :=
  let n := nat_of_ascii c in (48 <=? n)%nat && (n <=? 57)%nat.

Definition digit_value (c : ascii) : Z := Z.of_nat (nat_of_ascii c) - 48.

Definition to_lower (c : ascii) : ascii :=
  let n := nat_of_ascii c in
  if (65 <=? n)%nat && (n <=? 90)%nat then ascii_of_nat (n + 32) else c.

Fixpoint lstrip (s : string) : string :=
  match s with
  | EmptyString => EmptyString
  | String c s' => if is_space c then lstrip s' else s
  end.

Fixpoint rstrip (s : string) : string :=
  match s with
  | EmptyString => EmptyString
  | String c s' =>
      match rstrip s' with
      | EmptyString => if is_space c then EmptyString else String c EmptyString
      | r => String c r
      end
  end.

Definition strip (s : string) : string := lstrip (rstrip s).

Fixpoint lower (s : string) : string :=
  match s with
  | EmptyString => EmptyString
  | String c s' => String (to_lower c) (lower s')
  end.

(** [s.replace(" ", "")] *)
Fixpoint remove_spaces (s : string) : string :=
  match s with
  | EmptyString => EmptyString
  | String c s' => if Ascii.eqb c " " then remove_spaces s' else String c (remove_spaces s')
  end.

(** The match of [^(\d{1,2})(?::(\d{2}))?([ap]m?)?$]: the hour, the
    minute ([0] when the group is absent) and whether the third group is
    absent, starts with [a] or starts with [p]. *)
Inductive meridiem : Type := NoMeridiem | AM | PM.

Definition match_suffix (rest : string) : option meridiem :=
  if String.eqb rest "" then Some NoMeridiem
  else if String.eqb rest "a" || String.eqb rest "am" then Some AM
  else if String.eqb rest "p" || String.eqb rest "pm" then Some PM
  else None.

Definition match_minutes (rest : string) : option (Z * string) :=
  match rest with
  | String c rest1 =>
      if Ascii.eqb c ":" then
        match rest1 with
        | String a (String b rest2) =>
            if is_digit a && is_digit b
            then Some (10 * digit_value a + digit_value b, rest2)
            else None
        | _ => None
        end
      else Some (0, rest)
  | EmptyString => Some (0, rest)
  end.

Definition match_time (t : string) : option (Z * Z * meridiem) :=
  match t with
  | String d1 rest1 =>
      if is_digit d1 then
        let '(hh, rest) :=
          match rest1 with
          | String d2 rest2 =>
              if is_digit d2 then (10 * digit_value d1 + digit_value d2, rest2)
              else (digit_value d1, rest1)
          | EmptyString => (digit_value d1, rest1)
          end in
        match match_minutes rest with
        | Some (mm, rest') =>
            match match_suffix rest' with
            | Some ap => Some (hh, mm, ap)
            | None => None
            end
        | None => None
        end
      else None
  | EmptyString => None
  end.

Definition parse_time_to_min (s : string) : outcome Z :=
  if String.eqb s "" then Raise (ValueError "Time is required")
  else
    let raw := lower (strip s) in
    if String.eqb raw "noon" then Ok (12 * 60)
    else if String.eqb raw "midnight" then Ok 0
    else
      let t := remove_spaces raw in
      match match_time t with
      | None => Raise (ValueError ("Invalid time: " +++ s))
      | Some (hh, mm, NoMeridiem) =>
          if negb ((0 <=? hh) && (hh <=? 23) && (0 <=? mm) && (mm <=? 59))
          then Raise (ValueError ("Invalid time: " +++ s))
          else Ok (hh * 60 + mm)
      | Some (hh, mm, ap) =>
          if negb ((1 <=? hh) && (hh <=? 12) && (0 <=? mm) && (mm <=? 59))
          then Raise (ValueError ("Invalid time: " +++ s))
          else
            let hh := match ap with
                      | AM => if hh =? 12 then 0 else hh
                      | _ => if hh =? 12 then 12 else hh + 12
                      end in
            Ok (hh * 60 + mm)
      end.

(* ------------------------------------------------------------------ *)
(** * LecturesPanel                                                     *)
(* ------------------------------------------------------------------ *)

(** The tree of the panel, as the list of the values of its rows:
    course, start and end, the times as text. *)
Definition LectureRow : Type := string * string * string.

(** The loop [for (ec,es,ee) in self.get_items()] of [add]. *)
Fixpoint overlap_check (rows : list LectureRow) (start end_ : Z) : outcome unit :=
  match rows with
  | [] => Ok tt
  | (ec, es, ee) :: rest =>
      match parse_time_to_min es with
      | Raise x => Raise x
      | Diverged => Diverged
      | Ok s0 =>
          match parse_time_to_min ee with
          | Raise x => Raise x
          | Diverged => Diverged
          | Ok e0 =>
              if negb ((end_ <=? s0) || (start >=? e0))
              then Raise (ValueError ("Overlaps with " +++ ec +++ " " +++ es +++ "-" +++ ee))
              else overlap_check rest start end_
          end
      end
  end.

(** [LecturesPanel.add] on the texts of the three entries: the new rows,
    or the exception whose text goes to the status bar, the tree being
    left as it was. *)
Definition LecturesPanel_add (rows : list LectureRow) (course_e start_e end_e : string)
  : outcome (list LectureRow) :=
  let c := strip course_e in
  let s := strip start_e in
  let e := strip end_e in
  if String.eqb c "" || String.eqb s "" || String.eqb e ""
  then Raise (ValueError "Missing input")
  else
    match parse_time_to_min s with
    | Raise x => Raise x
    | Diverged => Diverged
    | Ok start =>
        match parse_time_to_min e with
        | Raise x => Raise x
        | Diverged => Diverged
        | Ok end_ =>
            if end_ <=? start then Raise (ValueError "End must be after start")
            else
              match overlap_check rows start end_ with
              | Raise x => Raise x
              | Diverged => Diverged
              | Ok _ =>
                  Ok (rows ++ [(c, fmt_min_to_time start, fmt_min_to_time end_)])
              end
        end
    end.

(** [LecturesPanel.export] *)
Fixpoint LecturesPanel_export (rows : list LectureRow) : outcome (list Lecture) :=
  match rows with
  | [] => Ok []
  | (c, s, e) :: rest =>
      match parse_time_to_min s with
      | Raise x => Raise x
      | Diverged => Diverged
      | Ok start =>
          match parse_time_to_min e with
          | Raise x => Raise x
          | Diverged => Diverged
          | Ok end_ =>
              match LecturesPanel_export rest with
              | Ok out => Ok (mkLecture c start end_ :: out)
              | other => other
              end
          end
      end
  end.

(** [LecturesPanel.load] *)
Definition LecturesPanel_load (data : list Lecture) : list LectureRow :=
  map (fun lec => (lec_course lec, fmt_min_to_time (lec_start_min lec),
                   fmt_min_to_time (lec_end_min lec))) data.

(** Lectures inside one day, and two lectures that do not overlap. *)
Definition lecture_in_day (lec : Lecture) : Prop :=
  0 <= lec_start_min lec < lec_end_min lec /\ lec_end_min lec < 24 * 60.

Definition lectures_apart (a b : Lecture) : Prop :=
  lec_end_min a <= lec_start_min b \/ lec_end_min b <= lec_start_min a.

(* ------------------------------------------------------------------ *)
(** * Vocabulary of the properties                                      *)
(* ------------------------------------------------------------------ *)

Definition dist_to_due (due : Z) (seg : Z * Z) : Z := Z.abs (due - snd seg).
Definition seg_len (seg : Z * Z) : Z := snd seg - fst seg.

(** [p] is ranked no later than [q]: nearer to the due minute or, at the
    same distance, at least as long. *)
Definition rank_le (due : Z) (p q : Z * Z) : Prop :=
  dist_to_due due p < dist_to_due due q \/
  (dist_to_due due p = dist_to_due due q /\ seg_len q <= seg_len p).

(** The blocks a commit appends. *)
Definition study_block (w : WorkItem) (s e : Z) : PlanBlock :=
  mkPlanBlock s e (study_label w) "study" (w_course w) false.

Definition break_block (s e : Z) : PlanBlock :=
  mkPlanBlock s e "Break" "break" "" false.

(** The minutes of the Study blocks of a list. *)
Definition study_minutes (l : list PlanBlock) : Z :=
  fold_right (fun b acc =>
    if String.eqb (kind b) "study" then (end_min b - start_min b) + acc else acc) 0 l.

(** The free segments and their ranking in one pass of the loop. *)
Definition free_of (busy : list Interval) (window_start window_end : Z)
  (st : PlanState) : list (Z * Z) :=
  subtract_intervals window_start window_end (busy ++ map block_interval (plan_blocks st)).

(** A block placed for task [w]: one of its Study blocks or a Break. *)
Definition placed_for (w : WorkItem) (b : PlanBlock) : Prop :=
  (kind b = "study"%string /\ label b = study_label w /\ course b = w_course w) \/
  kind b = "break"%string.

(** A block of positive length inside [[lo, hi)]. *)
Definition block_within (lo hi : Z) (b : PlanBlock) : Prop :=
  start_min b < end_min b /\ lo <= start_min b /\ end_min b <= hi.

(** Two blocks share a minute. *)
Definition blocks_overlap (a b : PlanBlock) : Prop :=
  exists x, start_min a <= x < end_min a /\ start_min b <= x < end_min b.

(** A block shares no minute with the fixed busy intervals. *)
Definition clear_of (busy : list Interval) (b : PlanBlock) : Prop :=
  forall s e l, In (s, e, l) busy ->
  forall x, s <= x < e -> ~ start_min b <= x < end_min b.

(** What is kept of the placed blocks along a call: they lie in
    [[lo, hi)], a Study block meets no block placed before it and no fixed
    busy interval, and all are Study or Break blocks. *)
Definition blocks_invariant (busy : list Interval) (lo hi : Z) (l : list PlanBlock) : Prop :=
  Forall (block_within lo hi) l /\
  ForallOrdPairs (fun a b => kind b = "study"%string -> ~ blocks_overlap a b) l /\
  Forall (fun b => kind b = "study"%string -> clear_of busy b) l /\
  Forall (fun b => kind b = "study"%string \/ kind b = "break"%string) l.

(** Membership of a minute in a list of labelled intervals. *)
Definition icovered (l : list Interval) (x : Z) : Prop :=
  exists s e lbl, In (s, e, lbl) l /\ s <= x < e.

Definition istart (i : Interval) : Z := fst (fst i).
Definition iend (i : Interval) : Z := snd (fst i).
Definition ilabel (i : Interval) : string := snd i.

(** The Lecture block of a busy interval. *)
Definition lecture_block (i : Interval) : PlanBlock :=
  let '(s, e, label) := i in
  mkPlanBlock s e label "lecture" (replace_first "Lecture: " "" label) false.

(** The minutes a lecture keeps busy: the lecture with the buffer on both
    sides, inside the day. *)
Definition lecture_window (self : ScheduleEngine) (buffer : Z) (lec : Lecture) (x : Z) : Prop :=
  Z.max (day_start self) (lec_start_min lec - buffer) <= x
  < Z.min (day_end self) (lec_end_min lec + buffer).

(** A Study block is the block of one of the tasks: it has the task's
    label and course, ends by the task's due minute and is no longer than
    the block size. *)
Definition study_of_some (tasks : list WorkItem) (block_size : Z) (b : PlanBlock) : Prop :=
  kind b = "study"%string ->
  exists w, In w tasks /\ label b = study_label w /\ course b = w_course w /\
            end_min b <= due_min w /\ 0 < end_min b - start_min b <= block_size.

(** [parse_time_to_min s] returns [m]. *)
Definition parses_to (s : string) (m : Z) : bool :=
  match parse_time_to_min s with
  | Ok v => v =? m
  | _ => false
  end.

(** Every Break block of [l] lasts at most [cap] minutes and comes
    directly after a Study block that starts at the minute the break ends;
    [prev] is the block before [l], if there is one. *)
Fixpoint breaks_attached (cap : Z) (prev : option PlanBlock) (l : list PlanBlock) : Prop :=
  match l with
  | [] => True
  | b :: rest =>
      (kind b = "break"%string ->
       end_min b - start_min b <= cap /\
       exists s, prev = Some s /\ kind s = "study"%string /\ start_min s = end_min b) /\
      breaks_attached cap (Some b) rest
  end.

(** The longest break [plan] asks [compute_adaptive_break] for. *)
Definition break_cap (max_break : Z) (adaptive_breaks : bool) (tired min_gap : Z) : Z :=
  Z.max (Z.max (min_gap + tired * 3) 0)
        (scaled_max_break (if adaptive_breaks then max_break else 0) tired).

(* ================================================================== *)
(** * Properties                                                        *)
(* ================================================================== *)

(* ------------------------------------------------------------------ *)
(** * Facts about sorting                                               *)
(* ------------------------------------------------------------------ *)

Section PySortFacts.
Variable A : Type.
Variable leb : A -> A -> bool.

Lemma insert_sorted_perm (x : A) (l : list A) :
  Permutation (x :: l) (insert_sorted leb x l).
Proof.
  induction l as [|y l IH]; simpl; [reflexivity|].
  destruct (leb x y); [reflexivity|].
  rewrite perm_swap. now constructor.
Qed.

Lemma py_sorted_perm (l : list A) : Permutation l (py_sorted leb l).
Proof.
  induction l as [|x l IH]; simpl; [constructor|].
  etransitivity; [|apply insert_sorted_perm]. now constructor.
Qed.

Lemma py_sorted_In (l : list A) (x : A) : In x (py_sorted leb l) <-> In x l.
Proof.
  split; apply Permutation_in; [symmetry|]; apply py_sorted_perm.
Qed.

Hypothesis leb_total : forall a b, leb a b = true \/ leb b a = true.
Hypothesis leb_trans : forall a b c, leb a b = true -> leb b c = true -> leb a c = true.

Lemma insert_sorted_sorted (x : A) (l : list A) :
  StronglySorted (fun a b => leb a b = true) l ->
  StronglySorted (fun a b => leb a b = true) (insert_sorted leb x l).
Proof.
  induction 1 as [|y l Hs IH Hy]; simpl.
  - repeat constructor.
  - destruct (leb x y) eqn:E.
    + constructor; [now constructor|].
      constructor; [exact E|].
      eapply Forall_impl; [|exact Hy]. intros z Hz. now apply leb_trans with y.
    + constructor; [exact IH|].
      assert (Hyx : leb y x = true) by (destruct (leb_total x y); congruence).
      rewrite Forall_forall in *. intros z Hz.
      apply (Permutation_in _ (Permutation_sym (insert_sorted_perm x l))) in Hz.
      destruct Hz as [<-|Hz]; auto.
Qed.

Lemma py_sorted_sorted (l : list A) :
  StronglySorted (fun a b => leb a b = true) (py_sorted leb l).
Proof.
  induction l; simpl; [constructor | now apply insert_sorted_sorted].
Qed.
End PySortFacts.

Lemma pair_leb_total (a b : Z * Z) : pair_leb a b = true \/ pair_leb b a = true.
Proof. unfold pair_leb; destruct a, b; simpl; lia. Qed.

Lemma pair_leb_trans (a b c : Z * Z) :
  pair_leb a b = true -> pair_leb b c = true -> pair_leb a c = true.
Proof. unfold pair_leb; destruct a, b, c; simpl; lia. Qed.

Lemma pair_leb_fst (a b : Z * Z) : pair_leb a b = true -> fst a <= fst b.
Proof. unfold pair_leb; destruct a, b; simpl; lia. Qed.

(* ------------------------------------------------------------------ *)
(** * The embedding on small inputs                                     *)
(* ------------------------------------------------------------------ *)

Example merge_intervals_keeps_first_label :
  merge_intervals [(570, 690, "Lecture: B"%string); (500, 600, "Lecture: A"%string);
                   (800, 830, "Lecture: C"%string)]
  = [(500, 690, "Lecture: A"%string); (800, 830, "Lecture: C"%string)].
Proof. reflexivity. Qed.

Example subtract_intervals_empty_window :
  subtract_intervals 480 480 [(400, 500, "Lecture: A"%string)] = [(480, 480)].
Proof. reflexivity. Qed.

Example fmt_min_to_time_samples :
  (fmt_min_to_time 905, fmt_min_to_time 0, fmt_min_to_time 720, fmt_min_to_time 1439)
  = ("3:05 PM", "12:00 AM", "12:00 PM", "11:59 PM")%string.
Proof. vm_compute. reflexivity. Qed.

Example compute_adaptive_break_samples :
  (compute_adaptive_break 60 540 600 60 5 25,
   compute_adaptive_break 30 510 900 60 5 25,
   compute_adaptive_break 30 510 900 0 5 25)
  = (25, 82, 25).
Proof. vm_compute. reflexivity. Qed.

(* ------------------------------------------------------------------ *)
(** * subtract_intervals                                                *)
(* ------------------------------------------------------------------ *)

Lemma covered_app (l1 l2 : list (Z * Z)) (x : Z) :
  covered (l1 ++ l2) x <-> covered l1 x \/ covered l2 x.
Proof.
  unfold covered; split.
  - intros [p [Hin Hx]]. apply in_app_or in Hin. destruct Hin; eauto.
  - intros [[p [Hin Hx]]|[p [Hin Hx]]]; exists p; split; auto using in_or_app.
Qed.

Lemma covered_cons (p : Z * Z) (l : list (Z * Z)) (x : Z) :
  covered (p :: l) x <-> fst p <= x < snd p \/ covered l x.
Proof.
  unfold covered; split.
  - intros [q [[<-|Hin] Hx]]; eauto.
  - intros [Hx|[q [Hin Hx]]]; [exists p | exists q]; simpl; auto.
Qed.

Lemma covered_nil (x : Z) : ~ covered [] x.
Proof. intros [p [[] _]]. Qed.

Lemma covered_perm (l1 l2 : list (Z * Z)) (x : Z) :
  Permutation l1 l2 -> covered l1 x -> covered l2 x.
Proof.
  intros HP [p [Hin Hx]]. exists p. split; [|exact Hx].
  now apply (Permutation_in _ HP).
Qed.

(** Every clipped block is a non-empty part of the window. *)
Lemma clip_blocks_wf (start end_ : Z) (busy : list Interval) :
  Forall (fun b => start <= fst b /\ fst b < snd b /\ snd b <= end_)
         (clip_blocks start end_ busy).
Proof.
  unfold clip_blocks. rewrite Forall_forall. intros b Hb.
  apply filter_In in Hb. destruct Hb as [Hin Hlt].
  apply in_map_iff in Hin. destruct Hin as [[[s e] l] [<- _]].
  simpl in *. lia.
Qed.

Lemma clip_blocks_covered (start end_ : Z) (busy : list Interval) (x : Z) :
  covered (clip_blocks start end_ busy) x <->
  start <= x < end_ /\ exists s e l, In (s, e, l) busy /\ s <= x < e.
Proof.
  unfold covered, clip_blocks. split.
  - intros [p [Hin Hx]]. apply filter_In in Hin. destruct Hin as [Hin _].
    apply in_map_iff in Hin. destruct Hin as [[[s e] l] [<- Hin]].
    simpl in Hx. split; [lia|]. exists s, e, l. split; [exact Hin | lia].
  - intros [Hx [s [e [l [Hin Hse]]]]].
    exists (Z.max start s, Z.min end_ e). split; [|simpl; lia].
    apply filter_In. split; [|simpl; lia].
    apply in_map_iff. exists (s, e, l). auto.
Qed.

Section Sweep.
Variable end_ : Z.

Lemma sweep_shape (blocks : list (Z * Z)) :
  Forall (fun b => fst b < snd b) blocks ->
  forall cur fr c, sweep end_ blocks cur = (fr, c) ->
    cur <= c /\
    Forall (fun p => cur <= fst p /\ fst p < snd p /\ snd p < c) fr /\
    StronglySorted (fun p q => snd p < fst q) fr.
Proof.
  induction 1 as [|[s e] rest Hse Hrest IH]; intros cur fr c Hsw; simpl in *.
  - injection Hsw as <- <-. repeat split; try lia; constructor.
  - destruct (Z.max cur e >=? end_) eqn:Hbrk.
    + injection Hsw as <- <-. split; [lia|].
      destruct (cur <? s) eqn:Hgap; split; repeat constructor; simpl; lia.
    + destruct (sweep end_ rest (Z.max cur e)) as [fr' c'] eqn:Hrec.
      injection Hsw as <- <-.
      destruct (IH _ _ _ Hrec) as [Hc [Hfr Hss]].
      split; [lia|].
      assert (Hfr' : Forall (fun p => cur <= fst p /\ fst p < snd p /\ snd p < c') fr').
      { eapply Forall_impl; [|exact Hfr]. simpl. intros p Hp. lia. }
      destruct (cur <? s) eqn:Hgap; simpl; [|auto].
      split; [constructor; [simpl; lia | exact Hfr']|].
      constructor; [exact Hss|].
      eapply Forall_impl; [|exact Hfr]. simpl. intros p Hp. lia.
Qed.

Lemma sweep_upper (blocks : list (Z * Z)) :
  Forall (fun b => snd b <= end_) blocks ->
  forall cur fr c, cur <= end_ -> sweep end_ blocks cur = (fr, c) -> c <= end_.
Proof.
  induction 1 as [|[s e] rest Hse Hrest IH]; intros cur fr c Hcur Hsw; simpl in *.
  - injection Hsw as <- <-. exact Hcur.
  - destruct (Z.max cur e >=? end_) eqn:Hbrk.
    + injection Hsw as <- <-. lia.
    + destruct (sweep end_ rest (Z.max cur e)) as [fr' c'] eqn:Hrec.
      injection Hsw as <- <-. eapply IH; [|exact Hrec]. lia.
Qed.

Lemma sweep_cover (blocks : list (Z * Z)) :
  forall cur fr c, sweep end_ blocks cur = (fr, c) ->
  forall x, cur <= x < c -> covered fr x \/ covered blocks x.
Proof.
  induction blocks as [|[s e] rest IH]; intros cur fr c Hsw x Hx; simpl in *.
  - injection Hsw as <- <-. lia.
  - assert (Hstep : forall fr', (x < Z.max cur e \/ covered fr' x \/ covered rest x) ->
              covered ((if cur <? s then [(cur, s)] else []) ++ fr') x \/
              covered ((s, e) :: rest) x).
    { intros fr' H. rewrite covered_app, !covered_cons. simpl.
      destruct (cur <? s) eqn:Hgap; [rewrite covered_cons; simpl|]; lia || tauto || idtac.
      - destruct H as [H|[H|H]]; try tauto.
        destruct (Z.ltb_spec x s); [left; left; left; lia | right; left; lia].
      - destruct H as [H|[H|H]]; try tauto. right; left; lia. }
    destruct (Z.max cur e >=? end_) eqn:Hbrk.
    + injection Hsw as <- <-.
      specialize (Hstep [] (or_introl (proj2 Hx))).
      now rewrite app_nil_r in Hstep.
    + destruct (sweep end_ rest (Z.max cur e)) as [fr' c'] eqn:Hrec.
      injection Hsw as <- <-. apply (Hstep fr').
      destruct (Z.ltb_spec x (Z.max cur e)); [now left|right].
      apply (IH _ _ _ Hrec). lia.
Qed.

(** When the sweep ends before [end_], no [break] occurred and every
    block lies to the left of the final cursor. *)
Lemma sweep_exhaust (blocks : list (Z * Z)) :
  forall cur fr c, sweep end_ blocks cur = (fr, c) -> c < end_ ->
    Forall (fun b => snd b <= c) blocks.
Proof.
  induction blocks as [|[s e] rest IH]; intros cur fr c Hsw Hc; simpl in *.
  - constructor.
  - destruct (Z.max cur e >=? end_) eqn:Hbrk.
    + injection Hsw as <- <-. lia.
    + destruct (sweep end_ rest (Z.max cur e)) as [fr' c'] eqn:Hrec.
      injection Hsw as <- <-.
      assert (Hmono : Z.max cur e <= c').
      { clear IH Hbrk. revert fr' c' Hrec Hc. generalize (Z.max cur e).
        induction rest as [|[s' e'] rest' IH']; intros k fr' c' Hrec Hc; simpl in *.
        - injection Hrec as <- <-. lia.
        - destruct (Z.max k e' >=? end_).
          + injection Hrec as <- <-. lia.
          + destruct (sweep end_ rest' (Z.max k e')) as [f2 c2] eqn:H2.
            injection Hrec as <- <-. specialize (IH' _ _ _ H2 Hc). lia. }
      constructor; [simpl; lia|]. eapply IH; eauto.
Qed.

(** On blocks sorted by start, no emitted gap meets a block. *)
Lemma sweep_exact (blocks : list (Z * Z)) :
  Forall (fun b => fst b < snd b) blocks ->
  StronglySorted (fun a b => fst a <= fst b) blocks ->
  forall cur fr c, sweep end_ blocks cur = (fr, c) ->
  forall x, covered fr x -> ~ covered blocks x.
Proof.
  induction 1 as [|[s e] rest Hse Hrest IH]; intros Hsorted cur fr c Hsw x Hx; simpl in *.
  - injection Hsw as <- <-. now apply covered_nil in Hx.
  - apply StronglySorted_inv in Hsorted. destruct Hsorted as [Hsorted Hall].
    assert (Hgap : forall fr', (covered fr' x -> Z.max cur e <= x /\ ~ covered rest x) ->
              covered ((if cur <? s then [(cur, s)] else []) ++ fr') x ->
              ~ covered ((s, e) :: rest) x).
    { intros fr' Hfr' Hc. rewrite covered_app in Hc. rewrite covered_cons. simpl.
      destruct Hc as [Hc|Hc].
      - destruct (cur <? s); [|now apply covered_nil in Hc].
        apply covered_cons in Hc. destruct Hc as [Hc|Hc]; [|now apply covered_nil in Hc].
        simpl in Hc. intros [H|[q [Hq Hxq]]]; [lia|].
        rewrite Forall_forall in Hall. specialize (Hall q Hq). simpl in Hall. lia.
      - destruct (Hfr' Hc). intros [H1|H1]; [lia|tauto]. }
    destruct (Z.max cur e >=? end_) eqn:Hbrk.
    + injection Hsw as <- <-. apply (Hgap []); [|now rewrite app_nil_r].
      intros H. now apply covered_nil in H.
    + destruct (sweep end_ rest (Z.max cur e)) as [fr' c'] eqn:Hrec.
      injection Hsw as <- <-. apply (Hgap fr'); [|exact Hx].
      intros Hc. split; [|eapply IH; eauto].
      destruct (sweep_shape rest Hrest _ _ _ Hrec) as [_ [Hfr _]].
      destruct Hc as [p [Hp Hxp]]. rewrite Forall_forall in Hfr.
      specialize (Hfr p Hp). lia.
Qed.
End Sweep.

Lemma sorted_blocks_wf (P : Z * Z -> Prop) (blocks : list (Z * Z)) :
  Forall P blocks -> Forall P (py_sorted pair_leb blocks).
Proof.
  rewrite !Forall_forall. intros H b Hb. apply H. now apply py_sorted_In in Hb.
Qed.

Lemma sorted_blocks_by_start (blocks : list (Z * Z)) :
  StronglySorted (fun a b => fst a <= fst b) (py_sorted pair_leb blocks).
Proof.
  pose proof (py_sorted_sorted _ pair_leb pair_leb_total pair_leb_trans blocks) as H.
  induction H as [|a l Hs IH Ha]; constructor; auto.
  eapply Forall_impl; [|exact Ha]. intros b. apply pair_leb_fst.
Qed.

(** The free segments lie in the window, have positive length when the
    window has, are strictly separated, and are exactly the minutes of the
    window outside the clipped busy blocks. *)
Lemma subtract_intervals_spec (start end_ : Z) (busy : list Interval) :
  start < end_ ->
  let free := subtract_intervals start end_ busy in
  Forall (fun p => start <= fst p /\ fst p < snd p /\ snd p <= end_) free /\
  StronglySorted (fun p q => snd p < fst q) free /\
  (forall x, covered free x <->
             start <= x < end_ /\ ~ covered (clip_blocks start end_ busy) x).
Proof.
  intros Hlt free. subst free. unfold subtract_intervals.
  pose proof (clip_blocks_wf start end_ busy) as Hwf.
  destruct (clip_blocks start end_ busy) as [|b0 bs] eqn:Hclip.
  - repeat split.
    + repeat constructor; simpl; lia.
    + repeat constructor.
    + apply covered_cons in H. simpl in H. destruct H as [H|H]; [lia|now apply covered_nil in H].
    + apply covered_cons in H. simpl in H. destruct H as [H|H]; [lia|now apply covered_nil in H].
    + apply covered_nil.
    + intros [Hx _]. apply covered_cons. now left.
  - set (blocks := b0 :: bs) in *.
    destruct (sweep end_ (py_sorted pair_leb blocks) start) as [fr c] eqn:Hsw.
    pose proof (sorted_blocks_wf _ _ Hwf) as Hwf'.
    assert (Hpos : Forall (fun b => fst b < snd b) (py_sorted pair_leb blocks)).
    { eapply Forall_impl; [|exact Hwf']. simpl. intros; lia. }
    assert (Hup : Forall (fun b => snd b <= end_) (py_sorted pair_leb blocks)).
    { eapply Forall_impl; [|exact Hwf']. simpl. intros; lia. }
    destruct (sweep_shape _ _ Hpos _ _ _ Hsw) as [Hc [Hfr Hss]].
    pose proof (sweep_upper _ _ Hup start _ _ (Z.lt_le_incl _ _ Hlt) Hsw) as Hcend.
    pose proof (sweep_cover _ _ _ _ _ Hsw) as Hcov.
    pose proof (sweep_exact _ _ Hpos (sorted_blocks_by_start blocks) _ _ _ Hsw) as Hex.
    assert (Hsame : forall x, covered (py_sorted pair_leb blocks) x <-> covered blocks x).
    { intros x; split; apply covered_perm;
        [apply Permutation_sym|]; apply py_sorted_perm. }
    assert (Hfr_in : Forall (fun p => start <= fst p /\ fst p < snd p /\ snd p <= end_) fr).
    { eapply Forall_impl; [|exact Hfr]. simpl. intros; lia. }
    destruct (c <? end_) eqn:Hlast.
    + apply Z.ltb_lt in Hlast.
      pose proof (sweep_exhaust _ _ _ _ _ Hsw Hlast) as Hdone.
      split; [|split].
      * apply Forall_app. split; [exact Hfr_in|]. repeat constructor; simpl; lia.
      * clear - Hss Hfr. induction Hss as [|p l Hl IH Hp]; simpl.
        -- repeat constructor.
        -- apply Forall_cons_iff in Hfr. destruct Hfr as [Hp0 Hfr].
           constructor; [auto|]. apply Forall_app. split; [exact Hp|].
           repeat constructor. simpl. lia.
      * intros x. rewrite covered_app, covered_cons. simpl. split.
        -- intros [H|[H|H]].
           ++ split; [|rewrite <- Hsame; now apply Hex].
              destruct H as [p [Hp Hx]]. rewrite Forall_forall in Hfr_in.
              specialize (Hfr_in p Hp). lia.
           ++ split; [lia|]. rewrite <- Hsame. intros [q [Hq Hxq]].
              rewrite Forall_forall in Hdone. specialize (Hdone q Hq). simpl in Hdone. lia.
           ++ now apply covered_nil in H.
        -- intros [Hx Hnot]. destruct (Z.ltb_spec x c) as [Hxc|Hxc]; [|right; left; lia].
           destruct (Hcov x) as [H|H]; [lia|now left|]. apply Hsame in H. tauto.
    + apply Z.ltb_ge in Hlast. assert (c = end_) by lia. subst c.
      split; [exact Hfr_in|split; [exact Hss|]].
      intros x. split.
      * intros H. split; [|rewrite <- Hsame; now apply Hex].
        destruct H as [p [Hp Hx]]. rewrite Forall_forall in Hfr_in.
        specialize (Hfr_in p Hp). lia.
      * intros [Hx Hnot]. destruct (Hcov x) as [H|H]; [lia|exact H|].
        apply Hsame in H. tauto.
Qed.

(** C6. For [start < end_], [subtract_intervals start end_ busy] is sorted
    by start, pairwise non-overlapping, made of segments of strictly
    positive length, and together with the busy intervals clipped to the
    window it covers exactly [[start, end_)]. *)
Theorem subtract_intervals_partition (start end_ : Z) (busy : list Interval) :
  start < end_ ->
  let free := subtract_intervals start end_ busy in
  StronglySorted (fun p q => fst p < fst q) free /\
  ForallOrdPairs seg_disjoint free /\
  Forall (fun p => fst p < snd p) free /\
  (forall x, covered free x \/ covered (clip_blocks start end_ busy) x
             <-> start <= x < end_).
Proof.
  intros Hlt free.
  destruct (subtract_intervals_spec start end_ busy Hlt) as [Hin [Hss Hcov]].
  fold free in Hin, Hss, Hcov.
  assert (Hpos : Forall (fun p => fst p < snd p) free).
  { eapply Forall_impl; [|exact Hin]. simpl; intros; lia. }
  repeat split.
  - clear Hcov Hin. induction Hss as [|p l Hl IH Hp]; [constructor|].
    apply Forall_cons_iff in Hpos. destruct Hpos as [Hp0 Hpos].
    constructor; [auto|]. eapply Forall_impl; [|exact Hp]. simpl; intros; lia.
  - clear Hcov Hin Hpos. induction Hss as [|p l Hl IH Hp]; [constructor|].
    constructor; [|exact IH].
    eapply Forall_impl; [|exact Hp]. unfold seg_disjoint; intros; lia.
  - exact Hpos.
  - destruct H as [H|H].
    + apply Hcov in H. lia.
    + apply clip_blocks_covered in H. lia.
  - destruct H as [H|H].
    + apply Hcov in H. lia.
    + apply clip_blocks_covered in H. lia.
  - intros Hx.
    destruct (Z.ltb_spec start end_); [|lia].
    assert (Hdec : covered (clip_blocks start end_ busy) x \/
                   ~ covered (clip_blocks start end_ busy) x).
    { generalize (clip_blocks start end_ busy). intros l.
      induction l as [|q l IH].
      - right. apply covered_nil.
      - rewrite covered_cons. destruct IH; [tauto|].
        destruct (Z_le_dec (fst q) x), (Z_lt_dec x (snd q)); try tauto; right; lia. }
    destruct Hdec as [Hd|Hd]; [now right|left]. apply Hcov. tauto.
Qed.

Lemma subtract_intervals_partition_witness :
  let free := subtract_intervals 480 900 [(570, 690, "Lecture: Algebra"%string)] in
  480 < 900 /\
  free = [(480, 570); (690, 900)] /\
  Forall (fun p => fst p < snd p) free.
Proof.
  split; [lia|]. split; [reflexivity|].
  exact (proj1 (proj2 (proj2
    (subtract_intervals_partition 480 900 [(570, 690, "Lecture: Algebra"%string)]
       ltac:(lia))))).
Defined.

(* ------------------------------------------------------------------ *)
(** * Rounding to 53 bits                                               *)
(* ------------------------------------------------------------------ *)

Lemma round_half_even_exact (a d : Z) : 0 < d -> round_half_even (a * d) d = a.
Proof.
  intros Hd. unfold round_half_even.
  rewrite Z.div_mul, Z.mod_mul by lia.
  destruct (Z.ltb_spec (2 * 0) d); [reflexivity | lia].
Qed.

Lemma round_half_even_mono (n n' d : Z) :
  0 < d -> n <= n' -> round_half_even n d <= round_half_even n' d.
Proof.
  intros Hd Hle. unfold round_half_even.
  pose proof (Z.div_mod n d ltac:(lia)) as Hn.
  pose proof (Z.div_mod n' d ltac:(lia)) as Hn'.
  pose proof (Z.mod_pos_bound n d Hd) as Hr.
  pose proof (Z.mod_pos_bound n' d Hd) as Hr'.
  pose proof (Z.div_le_mono n n' d Hd Hle) as Hq.
  set (q := n / d) in *. set (q' := n' / d) in *.
  set (r := n mod d) in *. set (r' := n' mod d) in *.
  assert (Hcases : q = q' /\ r <= r' \/ q + 1 <= q') by nia.
  destruct (Z.ltb_spec (2 * r) d), (Z.ltb_spec (2 * r') d); try lia;
    destruct (Z.ltb_spec d (2 * r)), (Z.ltb_spec d (2 * r')); try lia;
    destruct (Z.even q) eqn:Eq, (Z.even q') eqn:Eq'; try lia;
    destruct Hcases as [[-> _]|Hc]; try lia; congruence.
Qed.

Lemma round_half_even_scale (n d c : Z) :
  0 < d -> 0 < c -> round_half_even (n * c) (d * c) = round_half_even n d.
Proof.
  intros Hd Hc. unfold round_half_even.
  rewrite Z.div_mul_cancel_r by lia.
  rewrite Z.mul_mod_distr_r by lia.
  pose proof (Z.mod_pos_bound n d Hd) as Hr.
  set (r := n mod d) in *.
  destruct (Z.ltb_spec (2 * r) d), (Z.ltb_spec (2 * (r * c)) (d * c)); try nia.
  destruct (Z.ltb_spec d (2 * r)), (Z.ltb_spec (d * c) (2 * (r * c))); nia || reflexivity.
Qed.

Lemma rnd53_scale (n k : Z) : 0 <= n -> 0 <= k -> rnd53 (n * 2 ^ k) = rnd53 n * 2 ^ k.
Proof.
  intros Hn Hk.
  assert (Hn0 : n = 0 \/ 0 < n) by lia. destruct Hn0 as [->|Hpos]; [reflexivity|].
  assert (Hpk : 0 < 2 ^ k) by (apply Z.pow_pos_nonneg; lia).
  unfold rnd53.
  destruct (Z.ltb_spec (n * 2 ^ k) (2 ^ 53)) as [Hs|Hb].
  - destruct (Z.ltb_spec n (2 ^ 53)); [reflexivity | nia].
  - rewrite Z.log2_mul_pow2 by lia.
    destruct (Z.ltb_spec n (2 ^ 53)) as [Hsmall|Hbig].
    + assert (Hl : Z.log2 n < 53) by (apply Z.log2_lt_pow2; lia).
      assert (Hl2 : 53 <= Z.log2 (n * 2 ^ k)).
      { apply Z.log2_le_pow2; nia. }
      rewrite Z.log2_mul_pow2 in Hl2 by lia.
      set (s := k + Z.log2 n - 52) in *.
      replace (n * 2 ^ k) with (n * 2 ^ (k - s) * 2 ^ s).
      * rewrite round_half_even_exact; [reflexivity|]. apply Z.pow_pos_nonneg; lia.
      * rewrite <- Z.mul_assoc, <- Z.pow_add_r by lia. f_equal. f_equal. lia.
    + assert (Hl : 53 <= Z.log2 n) by (apply Z.log2_le_pow2; lia).
      replace (k + Z.log2 n - 52) with ((Z.log2 n - 52) + k) by lia.
      rewrite Z.pow_add_r by lia.
      rewrite round_half_even_scale; [ring| |lia].
      apply Z.pow_pos_nonneg; lia.
Qed.

Lemma rnd53_mono (a b : Z) : 0 <= a -> a <= b -> rnd53 a <= rnd53 b.
Proof.
  intros Ha Hab. unfold rnd53.
  assert (Hbig : forall n, 2 ^ 53 <= n ->
            1 <= Z.log2 n - 52 /\
            2 ^ 52 * 2 ^ (Z.log2 n - 52) <= round_half_even n (2 ^ (Z.log2 n - 52)) * 2 ^ (Z.log2 n - 52) /\
            round_half_even n (2 ^ (Z.log2 n - 52)) * 2 ^ (Z.log2 n - 52) <= 2 ^ 53 * 2 ^ (Z.log2 n - 52)).
  { intros n Hn.
    assert (Hl : 53 <= Z.log2 n) by (apply Z.log2_le_pow2; lia).
    pose proof (Z.log2_spec n ltac:(lia)) as [Hlo Hhi].
    set (s := Z.log2 n - 52) in *.
    assert (Hps : 0 < 2 ^ s) by (apply Z.pow_pos_nonneg; lia).
    assert (E1 : 2 ^ Z.log2 n = 2 ^ 52 * 2 ^ s).
    { rewrite <- Z.pow_add_r by lia. f_equal. lia. }
    assert (E2 : 2 ^ Z.succ (Z.log2 n) = 2 ^ 53 * 2 ^ s).
    { rewrite <- Z.pow_add_r by lia. f_equal. lia. }
    split; [lia|]. split.
    - apply Z.mul_le_mono_nonneg_r; [lia|].
      rewrite <- (round_half_even_exact (2 ^ 52) (2 ^ s) Hps) at 1.
      apply round_half_even_mono; lia.
    - apply Z.mul_le_mono_nonneg_r; [lia|].
      etransitivity; [apply (round_half_even_mono n (2 ^ 53 * 2 ^ s)); lia|].
      rewrite round_half_even_exact by exact Hps. lia. }
  destruct (Z.ltb_spec a (2 ^ 53)) as [Has|Hab53], (Z.ltb_spec b (2 ^ 53)) as [Hbs|Hbb]; try lia.
  - destruct (Hbig b Hbb) as [Hs [Hlo _]].
    assert (2 ^ 1 <= 2 ^ (Z.log2 b - 52)) by (apply Z.pow_le_mono_r; lia).
    nia.
  - destruct (Hbig a Hab53) as [Hsa [_ Hhia]].
    destruct (Hbig b Hbb) as [Hsb [Hlob _]].
    pose proof (Z.log2_le_mono a b Hab) as Hlog.
    assert (Hc : Z.log2 a = Z.log2 b \/ Z.log2 a + 1 <= Z.log2 b) by lia.
    destruct Hc as [Heq|Hlt].
    + rewrite Heq. apply Z.mul_le_mono_nonneg_r.
      * apply Z.pow_nonneg; lia.
      * apply round_half_even_mono; [apply Z.pow_pos_nonneg|]; lia.
    + assert (2 ^ 53 * 2 ^ (Z.log2 a - 52) <= 2 ^ 52 * 2 ^ (Z.log2 b - 52)).
      { replace (2 ^ 53) with (2 ^ 52 * 2 ^ 1) by reflexivity.
        rewrite <- Z.mul_assoc, <- Z.pow_add_r by lia.
        apply Z.mul_le_mono_nonneg_l; [lia|]. apply Z.pow_le_mono_r; lia. }
      lia.
Qed.

Lemma rnd53_nonneg (n : Z) : 0 <= n -> 0 <= rnd53 n.
Proof.
  intros Hn. change 0 with (rnd53 0) at 1. now apply rnd53_mono.
Qed.

Lemma rnd_nonneg (n : Z) : 0 <= n -> rnd n = rnd53 n.
Proof.
  intros Hn. unfold rnd. rewrite Z.abs_eq by lia.
  assert (H : n = 0 \/ 0 < n) by lia. destruct H as [->|H]; [reflexivity|].
  rewrite Z.sgn_pos by lia. lia.
Qed.

Lemma rnd_nonpos (n : Z) : n <= 0 -> rnd n <= 0.
Proof.
  intros Hn. unfold rnd.
  pose proof (rnd53_nonneg (Z.abs n) (Z.abs_nonneg n)).
  assert (H0 : n = 0 \/ n < 0) by lia. destruct H0 as [->|H0]; [reflexivity|].
  rewrite Z.sgn_neg by lia. lia.
Qed.

Lemma fl_trunc_nonpos (a : dyadic) : fst a <= 0 -> fl_trunc a <= 0.
Proof.
  intros Ha. unfold fl_trunc. destruct (Z.leb_spec 0 (snd a)).
  - assert (0 < 2 ^ snd a) by (apply Z.pow_pos_nonneg; lia). nia.
  - assert (0 < 2 ^ (- snd a)) by (apply Z.pow_pos_nonneg; lia).
    rewrite <- (Z.opp_involutive (fst a)), Z.quot_opp_l by lia.
    pose proof (Z.quot_pos (- fst a) (2 ^ (- snd a))). lia.
Qed.

(** Truncation of a non-negative dyadic number, on a finer scale. *)
Lemma fl_trunc_scale (m e e0 : Z) :
  0 <= m -> e0 <= e -> e0 <= 0 ->
  fl_trunc (m, e) = (m * 2 ^ (e - e0)) / 2 ^ (- e0).
Proof.
  intros Hm He He0. unfold fl_trunc. simpl.
  assert (Hp0 : 0 < 2 ^ (- e0)) by (apply Z.pow_pos_nonneg; lia).
  destruct (Z.leb_spec 0 e).
  - replace (e - e0) with (e + - e0) by lia. rewrite Z.pow_add_r by lia.
    rewrite Z.mul_assoc, Z.div_mul by lia. reflexivity.
  - rewrite Z.quot_div_nonneg by (try apply Z.pow_pos_nonneg; lia).
    replace (- e0) with ((- e) + (e - e0)) by lia.
    rewrite Z.pow_add_r by lia.
    rewrite Z.div_mul_cancel_r; [reflexivity| |].
    + apply Z.pow_nonzero; lia.
    + apply Z.pow_nonzero; lia.
Qed.

(** For a non-negative left factor, the truncated rounded product is
    monotone in the right factor. *)
Lemma scaled_product_mono (x : Z) (c c' : dyadic) :
  0 <= x -> 0 <= fst c -> dyadic_le c c' ->
  fl_trunc (fl_mul (x, 0) c) <= fl_trunc (fl_mul (x, 0) c').
Proof.
  intros Hx Hc Hle. unfold fl_mul, dyadic_le in *. simpl in *.
  destruct c as [n e], c' as [n' e']. simpl in *.
  set (e1 := Z.min e e') in *.
  set (e0 := Z.min e1 0).
  assert (Hp : 0 < 2 ^ (e - e1)) by (apply Z.pow_pos_nonneg; lia).
  assert (Hp' : 0 < 2 ^ (e' - e1)) by (apply Z.pow_pos_nonneg; lia).
  assert (Hn' : 0 <= n') by nia.
  rewrite !rnd_nonneg by nia.
  rewrite (fl_trunc_scale _ e e0), (fl_trunc_scale _ e' e0);
    try (apply rnd53_nonneg; nia); try lia.
  apply Z.div_le_mono; [apply Z.pow_pos_nonneg; lia|].
  rewrite <- !rnd53_scale by nia.
  apply rnd53_mono; [assert (0 <= 2 ^ (e - e0)) by (apply Z.pow_nonneg; lia); nia|].
  replace (e - e0) with ((e - e1) + (e1 - e0)) by lia.
  replace (e' - e0) with ((e' - e1) + (e1 - e0)) by lia.
  rewrite !Z.pow_add_r by lia.
  assert (HB : 0 <= 2 ^ (e1 - e0)) by (apply Z.pow_nonneg; lia).
  set (A := 2 ^ (e - e1)) in *. set (A' := 2 ^ (e' - e1)) in *.
  set (B := 2 ^ (e1 - e0)) in *.
  pose proof (Z.mul_le_mono_nonneg_l _ _ x Hx Hle) as H1.
  pose proof (Z.mul_le_mono_nonneg_r _ _ B HB H1) as H2.
  replace (x * n * (A * B)) with (x * (n * A) * B) by ring.
  replace (x * n' * (A' * B)) with (x * (n' * A') * B) by ring.
  exact H2.
Qed.

(** The model and the machine's binary64 arithmetic give the same
    [int(max_break * tired_mult)] on every sampled input. *)
Example scaled_max_break_agrees_with_hw :
  forallb (fun mb => forallb (agrees_with_hw mb) (zrange (-2) 15))
          (zrange (-50) 1600 ++ zrange (2 ^ 53 - 20) 40 ++ zrange (2 ^ 62 - 20) 20) = true.
Proof. vm_compute. reflexivity. Qed.

Example tired_mult_agrees_with_hw :
  forallb (fun t => match sf_to_dyadic (Prim2SF (hw_tired_mult t)) with
                    | Some d => dyadic_eqb d (tired_mult t)
                    | None => false
                    end) (zrange (-100) 300) = true.
Proof. vm_compute. reflexivity. Qed.

(** The product is not the exact one: [100 * 1.15] is just below 115. *)
Example scaled_max_break_not_exact : scaled_max_break 100 2 = 114.
Proof. vm_compute. reflexivity. Qed.

(* ------------------------------------------------------------------ *)
(** * compute_adaptive_break                                            *)
(* ------------------------------------------------------------------ *)

Lemma zrange_In (lo : Z) (n : nat) (x : Z) :
  lo <= x < lo + Z.of_nat n -> In x (zrange lo n).
Proof.
  intros Hx. unfold zrange. apply in_map_iff.
  exists (Z.to_nat (x - lo)). split; [lia|]. apply in_seq. lia.
Qed.

Lemma tired_mult_mono (t t' : Z) :
  1 <= t -> t <= t' -> t' <= 10 ->
  0 <= fst (tired_mult t) /\ dyadic_le (tired_mult t) (tired_mult t').
Proof.
  intros H1 H2 H3.
  assert (Hall : forallb (fun a => forallb (fun b =>
            (0 <=? fst (tired_mult a)) &&
            ((b <? a) || dyadic_leb (tired_mult a) (tired_mult b)))
            (zrange 1 10)) (zrange 1 10) = true) by (vm_compute; reflexivity).
  rewrite forallb_forall in Hall.
  specialize (Hall t (zrange_In 1 10 t ltac:(lia))).
  rewrite forallb_forall in Hall.
  specialize (Hall t' (zrange_In 1 10 t' ltac:(lia))).
  apply andb_true_iff in Hall. destruct Hall as [Ha Hb].
  apply Z.leb_le in Ha. split; [exact Ha|].
  apply orb_true_iff in Hb. destruct Hb as [Hb|Hb]; [apply Z.ltb_lt in Hb; lia|].
  unfold dyadic_leb in Hb. apply Z.leb_le in Hb. exact Hb.
Qed.

Lemma scaled_max_break_mono (max_break t t' : Z) :
  0 <= max_break -> 1 <= t -> t <= t' -> t' <= 10 ->
  scaled_max_break max_break t <= scaled_max_break max_break t'.
Proof.
  intros Hmb H1 H2 H3. unfold scaled_max_break, fl_of_Z.
  destruct (tired_mult_mono t t' H1 H2 H3) as [Hpos Hle].
  apply scaled_product_mono; [|exact Hpos|exact Hle].
  rewrite rnd_nonneg by lia. now apply rnd53_nonneg.
Qed.

Lemma scaled_max_break_nonpos (max_break t : Z) :
  max_break <= 0 -> 1 <= t -> t <= 10 -> scaled_max_break max_break t <= 0.
Proof.
  intros Hmb H1 H2. unfold scaled_max_break, fl_of_Z, fl_mul.
  destruct (tired_mult_mono t t H1 ltac:(lia) H2) as [Hpos _].
  apply fl_trunc_nonpos. cbn [fst snd]. apply rnd_nonpos.
  pose proof (rnd_nonpos max_break Hmb) as Hr.
  apply Z.mul_nonpos_nonneg; assumption.
Qed.

(** The tiers as a function of the scaled budget and the slack. *)
Lemma break_tiers_mono (m m' s s' base : Z) :
  m <= m' -> s <= s' ->
  (if (m <=? 0) || (s <=? 5) then base
   else if s <=? 20 then Z.max base (Z.min 10 m)
   else if s <=? 40 then Z.max base (Z.min 15 m)
   else Z.max base (Z.min m (Z.max 20 (s / 3))))
  <=
  (if (m' <=? 0) || (s' <=? 5) then base
   else if s' <=? 20 then Z.max base (Z.min 10 m')
   else if s' <=? 40 then Z.max base (Z.min 15 m')
   else Z.max base (Z.min m' (Z.max 20 (s' / 3)))).
Proof.
  intros Hm Hs.
  pose proof (Z.div_le_mono s s' 3 ltac:(lia) Hs) as Hdiv.
  destruct (Z.leb_spec m 0), (Z.leb_spec m' 0), (Z.leb_spec s 5), (Z.leb_spec s' 5);
    simpl; try lia;
    destruct (Z.leb_spec s 20), (Z.leb_spec s' 20); try lia;
    destruct (Z.leb_spec s 40), (Z.leb_spec s' 40); lia.
Qed.

(** C7. [compute_adaptive_break] is monotone non-decreasing in the slack
    for fixed [tired], [max_break] and floor; monotone non-decreasing in
    [tired] over [1..10] for fixed slack, [max_break] and floor; and never
    below the floor [min_gap_between_study]. *)
Theorem compute_adaptive_break_monotone :
  (forall ra ce we ra' ce' we' max_break tired floor,
      slack_of ra ce we <= slack_of ra' ce' we' ->
      compute_adaptive_break ra ce we max_break tired floor
      <= compute_adaptive_break ra' ce' we' max_break tired floor) /\
  (forall ra ce we max_break t t' floor,
      1 <= t -> t <= t' -> t' <= 10 ->
      compute_adaptive_break ra ce we max_break t floor
      <= compute_adaptive_break ra ce we max_break t' floor) /\
  (forall ra ce we max_break tired floor,
      floor <= compute_adaptive_break ra ce we max_break tired floor).
Proof.
  split; [|split].
  - intros. unfold compute_adaptive_break. apply break_tiers_mono; [lia|assumption].
  - intros ra ce we max_break t t' floor H1 H2 H3. unfold compute_adaptive_break.
    destruct (Z.le_ge_cases 0 max_break) as [Hmb|Hmb].
    + apply break_tiers_mono; [|lia]. now apply scaled_max_break_mono.
    + pose proof (scaled_max_break_nonpos max_break t Hmb H1 ltac:(lia)) as Ht.
      pose proof (scaled_max_break_nonpos max_break t' Hmb ltac:(lia) H3) as Ht'.
      apply Z.leb_le in Ht, Ht'. rewrite Ht, Ht'. simpl. lia.
  - intros. unfold compute_adaptive_break.
    destruct (_ || _); [lia|]. repeat destruct (_ <=? _); lia.
Qed.

Lemma compute_adaptive_break_monotone_witness :
  compute_adaptive_break 60 540 600 100 2 16 <= compute_adaptive_break 60 540 700 100 2 16 /\
  compute_adaptive_break 60 540 700 100 2 16 <= compute_adaptive_break 60 540 700 100 9 16.
Proof.
  split.
  - apply (proj1 compute_adaptive_break_monotone). vm_compute. discriminate.
  - apply (proj1 (proj2 compute_adaptive_break_monotone)); lia.
Defined.

(* ------------------------------------------------------------------ *)
(** * Where the break computation does not overflow                     *)
(* ------------------------------------------------------------------ *)

Lemma abs_rnd (n : Z) : Z.abs (rnd n) = rnd53 (Z.abs n).
Proof.
  unfold rnd. pose proof (rnd53_nonneg (Z.abs n) (Z.abs_nonneg n)) as Hr.
  destruct n as [|p|p]; [reflexivity| |]; cbn [Z.sgn]; lia.
Qed.

Lemma rnd53_below (n k : Z) : 0 <= k -> 0 <= n <= 2 ^ k -> rnd53 n <= 2 ^ k.
Proof.
  intros Hk Hn.
  pose proof (rnd53_mono n (2 ^ k) (proj1 Hn) (proj2 Hn)) as Hm.
  pose proof (rnd53_scale 1 k ltac:(lia) Hk) as Hs.
  rewrite Z.mul_1_l in Hs. change (rnd53 1) with 1 in Hs. lia.
Qed.

Lemma fl_of_Z_finite (n : Z) : Z.abs n < 2 ^ 1023 -> fl_finite (fl_of_Z n) = true.
Proof.
  intros Hn. unfold fl_finite, fl_of_Z. cbn [fst snd].
  change (Z.min 0 0) with 0. change (0 - 0) with 0. change (- 0) with 0.
  rewrite abs_rnd, Z.pow_0_r, !Z.mul_1_r. apply Z.ltb_lt.
  pose proof (rnd53_below (Z.abs n) 1023 ltac:(lia) ltac:(lia)) as Hb.
  assert (2 ^ 1023 < 2 ^ 1024) by (apply Z.pow_lt_mono_r; lia). lia.
Qed.

Lemma fl_mul_finite (n : Z) (c : dyadic) :
  Z.abs n < 2 ^ 1023 ->
  0 <= fst c -> rnd53 (fst c) = fst c -> snd c <= 0 -> fst c < 2 * 2 ^ (- snd c) ->
  fl_finite (fl_mul (fl_of_Z n) c) = true.
Proof.
  intros Hn Hm Hfc He Hc. unfold fl_finite, fl_mul, fl_of_Z. cbn [fst snd].
  rewrite Z.add_0_l, Z.min_l by lia. rewrite Z.sub_diag, Z.pow_0_r, Z.mul_1_r.
  rewrite abs_rnd, Z.abs_mul, abs_rnd, (Z.abs_eq (fst c)) by lia.
  apply Z.ltb_lt.
  pose proof (rnd53_below (Z.abs n) 1023 ltac:(lia) ltac:(lia)) as Hb.
  pose proof (rnd53_nonneg (Z.abs n) (Z.abs_nonneg n)) as Hnn.
  assert (Hprod : rnd53 (Z.abs n) * fst c <= fst c * 2 ^ 1023) by nia.
  assert (Hpos : 0 <= rnd53 (Z.abs n) * fst c) by nia.
  pose proof (rnd53_mono _ _ Hpos Hprod) as Hmono.
  rewrite rnd53_scale in Hmono by lia.
  rewrite Hfc in Hmono.
  assert (H24 : 2 ^ 1024 = 2 * 2 ^ 1023).
  { change 1024 with (Z.succ 1023). rewrite Z.pow_succ_r by lia. reflexivity. }
  rewrite H24.
  assert (Hp : 0 < 2 ^ 1023) by (apply Z.pow_pos_nonneg; lia).
  nia.
Qed.

(** With the tiredness in [1..10], as [plan] passes it, and
    [|max_break| < 2^1023], lines 179-180 do not raise. *)
Lemma float_error_in_range (max_break tired : Z) :
  1 <= tired <= 10 -> Z.abs max_break < 2 ^ 1023 -> float_error max_break tired = None.
Proof.
  intros Ht Hm. unfold float_error.
  rewrite (fl_of_Z_finite max_break Hm).
  assert (Htf : fl_finite (fl_of_Z tired) = true).
  { apply fl_of_Z_finite. assert (2 ^ 4 <= 2 ^ 1023) by (apply Z.pow_le_mono_r; lia).
    change (2 ^ 4) with 16 in *. lia. }
  rewrite Htf. cbn [negb].
  assert (Hcases : tired = 1 \/ tired = 2 \/ tired = 3 \/ tired = 4 \/ tired = 5 \/
                   tired = 6 \/ tired = 7 \/ tired = 8 \/ tired = 9 \/ tired = 10) by lia.
  assert (Hfin : fl_finite (fl_mul (fl_of_Z max_break) (tired_mult tired)) = true).
  { apply fl_mul_finite; [exact Hm| | | |];
      repeat (destruct Hcases as [->|Hcases]); try subst tired;
      vm_compute; try split; try reflexivity; intros Hd; discriminate Hd. }
  rewrite Hfin. reflexivity.
Qed.

Lemma compute_adaptive_break_call_in_range
  (remaining_after current_end window_end max_break tired min_gap : Z) :
  1 <= tired <= 10 -> Z.abs max_break < 2 ^ 1023 ->
  compute_adaptive_break_call remaining_after current_end window_end max_break tired min_gap
  = Ok (compute_adaptive_break remaining_after current_end window_end max_break tired min_gap).
Proof.
  intros Ht Hm. unfold compute_adaptive_break_call.
  now rewrite float_error_in_range.
Qed.

(** Beyond the floats the call raises, whatever the other arguments. *)
Example compute_adaptive_break_call_overflows :
  compute_adaptive_break_call 0 0 1000 (2 ^ 1024) 5 10
  = Raise (OverflowError "int too large to convert to float") /\
  compute_adaptive_break_call 0 0 1000 0 (10 ^ 400) 12
  = Raise (OverflowError "int too large to convert to float") /\
  compute_adaptive_break_call 0 0 1000 (2 ^ 1023 + 2 ^ 1022 + 2 ^ 1021) 10 10
  = Raise (OverflowError "cannot convert float infinity to integer").
Proof. vm_compute. repeat split. Qed.

(* ------------------------------------------------------------------ *)
(** * choose_free_segments and the reverse walk                         *)
(* ------------------------------------------------------------------ *)

Lemma score_leb_total (a b : Z * Z * (Z * Z)) :
  score_leb a b = true \/ score_leb b a = true.
Proof.
  destruct a as [[d1 n1] [x1 y1]], b as [[d2 n2] [x2 y2]].
  unfold score_leb, pair_leb; simpl. lia.
Qed.

Lemma score_leb_trans (a b c : Z * Z * (Z * Z)) :
  score_leb a b = true -> score_leb b c = true -> score_leb a c = true.
Proof.
  destruct a as [[d1 n1] [x1 y1]], b as [[d2 n2] [x2 y2]], c as [[d3 n3] [x3 y3]].
  unfold score_leb, pair_leb; simpl. lia.
Qed.

Lemma score_leb_rank (due : Z) (p q : Z * Z) :
  score_leb (score due p) (score due q) = true -> rank_le due p q.
Proof.
  unfold score_leb, score, rank_le, dist_to_due, seg_len, pair_leb.
  destruct p, q; simpl. lia.
Qed.

Lemma choose_free_segments_perm (free : list (Z * Z)) (due : Z) :
  Permutation free (choose_free_segments free due).
Proof.
  unfold choose_free_segments.
  rewrite <- (map_id free) at 1.
  rewrite <- (map_ext (fun p => snd (score due p)) id) by reflexivity.
  rewrite <- (map_map (score due) snd).
  apply Permutation_map, py_sorted_perm.
Qed.

Lemma choose_free_segments_ranked (free : list (Z * Z)) (due : Z) :
  StronglySorted (rank_le due) (choose_free_segments free due).
Proof.
  unfold choose_free_segments.
  pose proof (py_sorted_sorted _ score_leb score_leb_total score_leb_trans
                (map (score due) free)) as Hs.
  assert (Hform : Forall (fun t => t = score due (snd t))
                         (py_sorted score_leb (map (score due) free))).
  { rewrite Forall_forall. intros t Ht. apply py_sorted_In in Ht.
    apply in_map_iff in Ht. destruct Ht as [p [<- _]]. reflexivity. }
  induction Hs as [|t l Hl IH Ht]; simpl; [constructor|].
  apply Forall_cons_iff in Hform. destruct Hform as [Ht0 Hform].
  constructor; [now apply IH|].
  rewrite Forall_forall in *. intros q Hq.
  apply in_map_iff in Hq. destruct Hq as [u [<- Hu]].
  apply score_leb_rank. rewrite <- Ht0, <- (Hform u Hu). now apply Ht.
Qed.

(** What [first_fit] returns, when it returns a segment. *)
Lemma first_fit_Some (block_size remaining : Z) (segs : list (Z * Z)) fs fe alloc :
  first_fit block_size remaining segs = Some (fs, fe, alloc) ->
  In (fs, fe) segs /\ 0 < fe - fs /\ 0 < alloc /\
  alloc = Z.min (Z.min block_size remaining) (fe - fs).
Proof.
  induction segs as [|[s e] rest IH]; simpl; [discriminate|].
  destruct (Z.leb_spec (e - s) 0) as [Hspan|Hspan].
  - intros H. destruct (IH H) as [Hin Hrest]. auto.
  - destruct (Z.leb_spec (Z.min (Z.min block_size remaining) (e - s)) 0) as [Ha|Ha].
    + intros H. destruct (IH H) as [Hin Hrest]. auto.
    + intros H. injection H as <- <- <-. auto.
Qed.

(** With a positive block size and a positive remainder the walk stops
    at the first segment of positive length. *)
Lemma first_fit_first_positive (block_size remaining : Z) (segs : list (Z * Z)) :
  0 < block_size -> 0 < remaining ->
  forall fs fe alloc,
    first_fit block_size remaining segs = Some (fs, fe, alloc) <->
    exists skipped rest,
      segs = skipped ++ (fs, fe) :: rest /\
      Forall (fun p => seg_len p <= 0) skipped /\
      0 < seg_len (fs, fe) /\
      alloc = Z.min (Z.min block_size remaining) (fe - fs).
Proof.
  intros Hb Hr fs fe alloc. unfold seg_len.
  induction segs as [|[s e] rest IH]; simpl.
  - split; [discriminate|]. intros [sk [rs [H _]]]. now destruct sk.
  - destruct (Z.leb_spec (e - s) 0) as [Hspan|Hspan].
    + rewrite IH. split.
      * intros [sk [rs [-> [Hsk Hrest]]]]. exists ((s, e) :: sk), rs.
        split; [reflexivity|]. split; [constructor; simpl; auto|exact Hrest].
      * intros [sk [rs [Heq [Hsk Hrest]]]]. destruct sk as [|p sk]; simpl in *.
        -- injection Heq as Hs He _. subst. lia.
        -- injection Heq as _ Hrs. apply Forall_cons_iff in Hsk.
           exists sk, rs. tauto.
    + destruct (Z.leb_spec (Z.min (Z.min block_size remaining) (e - s)) 0) as [Ha|Ha]; [lia|].
      split.
      * intros H. injection H as <- <- <-. exists [], rest. simpl. auto.
      * intros [sk [rs [Heq [Hsk [Hpos ->]]]]]. destruct sk as [|p sk]; simpl in *.
        -- injection Heq as Hs He _. subst. reflexivity.
        -- injection Heq as Hp _. subst p. apply Forall_cons_iff in Hsk. simpl in Hsk. lia.
Qed.

Lemma StronglySorted_app_mid (A : Type) (R : A -> A -> Prop) (l1 l2 : list A) (x : A) :
  StronglySorted R (l1 ++ x :: l2) -> Forall (fun a => R a x) l1.
Proof.
  induction l1 as [|a l1 IH]; simpl; intros H; [constructor|].
  apply StronglySorted_inv in H. destruct H as [Hs Ha].
  constructor; [|now apply IH].
  rewrite Forall_forall in Ha. apply Ha. apply in_or_app. right. now left.
Qed.

(** The ranking, and the segment the reverse walk stops at. *)
Lemma reverse_walk_spec
  (block_size remaining : Z) (free : list (Z * Z)) (due : Z) :
  0 < block_size -> 0 < remaining ->
  let ordered := choose_free_segments free due in
  Permutation free ordered /\
  StronglySorted (rank_le due) ordered /\
  forall fs fe alloc,
    first_fit block_size remaining (rev ordered) = Some (fs, fe, alloc) ->
    (exists skipped rest,
        rev ordered = skipped ++ (fs, fe) :: rest /\
        Forall (fun p => seg_len p <= 0) skipped /\ 0 < seg_len (fs, fe)) /\
    (forall p, In p free -> 0 < seg_len p -> rank_le due p (fs, fe)).
Proof.
  intros Hb Hr ordered.
  pose proof (choose_free_segments_perm free due) as Hperm.
  pose proof (choose_free_segments_ranked free due) as Hsorted.
  fold ordered in Hperm, Hsorted.
  split; [exact Hperm|]. split; [exact Hsorted|].
  intros fs fe alloc Hfit.
  apply (first_fit_first_positive _ _ _ Hb Hr) in Hfit.
  destruct Hfit as [sk [rs [Hrev [Hsk [Hpos _]]]]].
  split; [exists sk, rs; auto|].
  intros p Hp Hlen.
  assert (Hord : ordered = rev rs ++ (fs, fe) :: rev sk).
  { rewrite <- (rev_involutive ordered), Hrev, rev_app_distr. simpl.
    now rewrite <- app_assoc. }
  apply (Permutation_in _ Hperm) in Hp. rewrite Hord in Hp, Hsorted.
  apply in_app_or in Hp. destruct Hp as [Hp|[<-|Hp]].
  - apply StronglySorted_app_mid in Hsorted. rewrite Forall_forall in Hsorted. auto.
  - right. split; [reflexivity|lia].
  - apply in_rev in Hp. rewrite Forall_forall in Hsk. specialize (Hsk p Hp). lia.
Qed.

(* ------------------------------------------------------------------ *)
(** * The placement loop                                                *)
(* ------------------------------------------------------------------ *)

Lemma subtract_intervals_within (start end_ : Z) (busy : list Interval) :
  start <= end_ ->
  Forall (fun p => start <= fst p /\ snd p <= end_) (subtract_intervals start end_ busy).
Proof.
  intros Hle. destruct (Z.eq_dec start end_) as [->|Hne].
  - unfold subtract_intervals.
    pose proof (clip_blocks_wf end_ end_ busy) as Hwf.
    destruct (clip_blocks end_ end_ busy) as [|b bs].
    + repeat constructor; simpl; lia.
    + apply Forall_cons_iff in Hwf. lia.
  - destruct (subtract_intervals_spec start end_ busy ltac:(lia)) as [Hin _].
    eapply Forall_impl; [|exact Hin]. simpl. intros; lia.
Qed.

Section PlanFacts.
Variable self : ScheduleEngine.
Variable block_size max_break : Z.
Variable adaptive_breaks : bool.
Variable tired : Z.
Variable min_gap_between_study : Z.
Variable busy : list Interval.
Variable window_start : Z.

Local Abbreviation commit' := (commit max_break adaptive_breaks tired min_gap_between_study window_start).
Local Abbreviation place_step' :=
  (place_step block_size max_break adaptive_breaks tired min_gap_between_study busy window_start).
Local Abbreviation place_loop' :=
  (place_loop block_size max_break adaptive_breaks tired min_gap_between_study busy window_start).
Local Abbreviation plan_task' :=
  (plan_task self block_size max_break adaptive_breaks tired min_gap_between_study busy
             window_start).
Local Abbreviation plan_tasks' :=
  (plan_tasks self block_size max_break adaptive_breaks tired min_gap_between_study busy
              window_start).

(** What a commit adds: the Study block, then at most one Break block
    that ends where the Study block starts and begins inside the window. *)
Lemma commit_spec (w : WorkItem) (window_end remaining fe alloc : Z) (st : PlanState) :
  exists brk extra,
    commit' w window_end remaining fe alloc st =
      (fe - alloc, remaining - alloc,
       mkState (plan_blocks st ++ study_block w (fe - alloc) fe :: brk)
               (lines st ++ extra)) /\
    (brk = [] \/
     exists bstart, brk = [break_block bstart (fe - alloc)] /\
                    0 < remaining - alloc /\
                    window_start <= bstart < fe - alloc).
Proof.
  unfold commit, study_block, break_block.
  destruct (remaining - alloc >? 0) eqn:Hrem.
  2:{ exists [], [fmt_min_to_time (fe - alloc) +++ " - " +++ fmt_min_to_time fe +++ "  "
                  +++ study_label w]. auto. }
  set (brk := compute_adaptive_break _ _ _ _ _ _).
  destruct (brk >? 0).
  2:{ exists [], [fmt_min_to_time (fe - alloc) +++ " - " +++ fmt_min_to_time fe +++ "  "
                  +++ study_label w]. auto. }
  destruct (Z.ltb_spec (Z.max window_start (fe - alloc - brk)) (fe - alloc)) as [Hb|Hb].
  2:{ exists [], [fmt_min_to_time (fe - alloc) +++ " - " +++ fmt_min_to_time fe +++ "  "
                  +++ study_label w]. auto. }
  eexists [_], [_; _]. split.
  - cbn [plan_blocks lines]. rewrite <- !app_assoc. reflexivity.
  - right. eexists. split; [reflexivity|]. lia.
Qed.

(** A pass that does not leave the loop has committed to a free segment
    of the window. *)
Lemma place_step_Some (w : WorkItem) (window_end remaining : Z) (st : PlanState) r :
  place_step' w window_end remaining st = Some r ->
  exists fs fe alloc,
    In (fs, fe) (subtract_intervals window_start window_end
                   (busy ++ map block_interval (plan_blocks st))) /\
    first_fit block_size remaining
      (rev (choose_free_segments
              (subtract_intervals window_start window_end
                 (busy ++ map block_interval (plan_blocks st))) (due_min w)))
      = Some (fs, fe, alloc) /\
    0 < alloc /\ alloc <= fe - fs /\ alloc <= remaining /\ alloc <= block_size /\
    r = commit' w window_end remaining fe alloc st.
Proof.
  unfold place_step.
  set (free := subtract_intervals _ _ _).
  destruct free as [|p free'] eqn:Hfree; [discriminate|]. rewrite <- Hfree.
  destruct (first_fit _ _ _) as [[[fs fe] alloc]|] eqn:Hfit; [|discriminate].
  intros H. injection H as <-.
  exists fs, fe, alloc.
  apply first_fit_Some in Hfit. destruct Hfit as [Hin [Hspan [Hpos ->]]].
  split.
  - apply in_rev in Hin.
    apply (Permutation_in _ (Permutation_sym (choose_free_segments_perm _ _))) in Hin.
    exact Hin.
  - split; [reflexivity|]. repeat split; lia.
Qed.

(** Every placement moves [window_end] strictly to the left and keeps it
    at or after [window_start]. *)
Lemma place_step_shrinks (w : WorkItem) (window_end remaining : Z) (st : PlanState)
  window_end' remaining' st' :
  window_start <= window_end ->
  place_step' w window_end remaining st = Some (window_end', remaining', st') ->
  window_start <= window_end' < window_end /\ remaining' < remaining.
Proof.
  intros Hw Hstep. apply place_step_Some in Hstep.
  destruct Hstep as [fs [fe [alloc [Hin [_ [Hpos [Hspan [Hrem [Hbs Hr]]]]]]]]].
  destruct (commit_spec w window_end remaining fe alloc st) as [brk [extra [Hc _]]].
  rewrite Hc in Hr. injection Hr as -> -> ->.
  pose proof (subtract_intervals_within window_start window_end
                (busy ++ map block_interval (plan_blocks st)) Hw) as Hall.
  rewrite Forall_forall in Hall. specialize (Hall _ Hin). simpl in Hall. lia.
Qed.

Lemma place_loop_fuel_mono (fuel fuel' : nat) (w : WorkItem) (window_end remaining : Z)
  (st : PlanState) r :
  (fuel <= fuel')%nat ->
  place_loop' fuel w window_end remaining st = Some r ->
  place_loop' fuel' w window_end remaining st = Some r.
Proof.
  revert fuel' window_end remaining st.
  induction fuel as [|fuel IH]; intros fuel' we rem st Hle; simpl; [discriminate|].
  destruct fuel' as [|fuel']; [lia|]. simpl.
  destruct (rem >? 0); [|auto].
  destruct (place_step' w we rem st) as [[[we' rem'] st']|]; [|auto].
  apply IH. lia.
Qed.

(** The loop halts within [window_end - window_start + 1] tests. *)
Lemma place_loop_halts (fuel : nat) (w : WorkItem) (window_end remaining : Z)
  (st : PlanState) :
  window_start <= window_end ->
  (Z.to_nat (window_end - window_start) < fuel)%nat ->
  exists r, place_loop' fuel w window_end remaining st = Some r.
Proof.
  revert window_end remaining st.
  induction fuel as [|fuel IH]; intros we rem st Hw Hfuel; [lia|]. simpl.
  destruct (rem >? 0); [|eauto].
  destruct (place_step' w we rem st) as [[[we' rem'] st']|] eqn:Hstep; [|eauto].
  apply place_step_shrinks in Hstep; [|exact Hw].
  apply IH; lia.
Qed.

(** Induction along the iterations of the loop. *)
Lemma place_loop_invariant (w : WorkItem) (P : Z -> Z -> PlanState -> Prop) :
  (forall we rem st we' rem' st',
      P we rem st -> 0 < rem ->
      place_step' w we rem st = Some (we', rem', st') -> P we' rem' st') ->
  forall fuel we rem st rem' st',
    P we rem st ->
    place_loop' fuel w we rem st = Some (rem', st') ->
    exists we', P we' rem' st' /\
                (rem' <= 0 \/ place_step' w we' rem' st' = None).
Proof.
  intros Hstep. induction fuel as [|fuel IH]; intros we rem st rem' st' HP; simpl;
    [discriminate|].
  destruct (Z.gtb_spec rem 0) as [Hpos|Hneg].
  - destruct (place_step' w we rem st) as [[[we1 rem1] st1]|] eqn:Hs.
    + apply IH. eapply Hstep; eauto.
    + intros H. injection H as <- <-. exists we. auto.
  - intros H. injection H as <- <-. exists we. split; [exact HP|lia].
Qed.

Lemma plan_task_halts (fuel : nat) (w : WorkItem) (st : PlanState) :
  (Z.to_nat (day_end self - window_start) < fuel)%nat ->
  exists st', plan_task' fuel w st = Some st'.
Proof.
  intros Hfuel. unfold plan_task.
  destruct (Z.leb_spec (Z.min (day_end self) (due_min w)) window_start) as [Hw|Hw];
    [eauto|].
  destruct (place_loop_halts fuel w (Z.min (day_end self) (due_min w))
              (minutes_needed w) st) as [[rem st'] Hr]; [lia|lia|].
  rewrite Hr. destruct (rem >? 0); eauto.
Qed.

Lemma plan_task_fuel_mono (fuel fuel' : nat) (w : WorkItem) (st st' : PlanState) :
  (fuel <= fuel')%nat ->
  plan_task' fuel w st = Some st' -> plan_task' fuel' w st = Some st'.
Proof.
  intros Hle. unfold plan_task.
  destruct (_ <=? _); [auto|].
  destruct (place_loop' fuel w _ _ st) as [[rem st1]|] eqn:Hl; [|discriminate].
  rewrite (place_loop_fuel_mono fuel fuel' _ _ _ _ _ Hle Hl). auto.
Qed.

Lemma plan_tasks_halts (fuel : nat) (pending : list WorkItem) (st : PlanState) :
  (Z.to_nat (day_end self - window_start) < fuel)%nat ->
  exists st', plan_tasks' fuel pending st = Some st'.
Proof.
  intros Hfuel. revert st. induction pending as [|w rest IH]; intros st; simpl; [eauto|].
  destruct (plan_task_halts fuel w st Hfuel) as [st1 ->]. apply IH.
Qed.

Lemma plan_tasks_fuel_mono (fuel fuel' : nat) (pending : list WorkItem) (st st' : PlanState) :
  (fuel <= fuel')%nat ->
  plan_tasks' fuel pending st = Some st' -> plan_tasks' fuel' pending st = Some st'.
Proof.
  intros Hle. revert st. induction pending as [|w rest IH]; intros st; simpl; [auto|].
  destruct (plan_task' fuel w st) as [st1|] eqn:Ht; [|discriminate].
  rewrite (plan_task_fuel_mono fuel fuel' w st st1 Hle Ht). apply IH.
Qed.
End PlanFacts.

(* ------------------------------------------------------------------ *)
(** * plan                                                              *)
(* ------------------------------------------------------------------ *)

Lemma plan_halts_with (fuel : nat) (self : ScheduleEngine) (lectures : list Lecture)
  (work : list WorkItem) (block_size max_break : Z) (adaptive_breaks : bool)
  (tired lecture_buffer_min min_gap_between_study : Z) :
  (enough_fuel self <= fuel)%nat ->
  exists r,
    plan fuel self lectures work block_size max_break adaptive_breaks tired
         lecture_buffer_min min_gap_between_study = Some r /\
    plan (enough_fuel self) self lectures work block_size max_break adaptive_breaks tired
         lecture_buffer_min min_gap_between_study = Some r.
Proof.
  intros Hfuel. unfold plan.
  set (busy := merge_intervals _).
  destruct (plan_tasks_halts self block_size max_break adaptive_breaks (clamp_tired tired)
              min_gap_between_study busy (start_bound_of self) (enough_fuel self)
              (pending_of work) (mkState [] [])) as [st Hst].
  { unfold enough_fuel. lia. }
  rewrite Hst.
  rewrite (plan_tasks_fuel_mono _ _ _ _ _ _ _ _ _ _ _ _ _ Hfuel Hst).
  eauto.
Qed.

Lemma place_step_None (block_size max_break : Z) (adaptive_breaks : bool)
  (tired min_gap_between_study : Z) (busy : list Interval) (window_start : Z)
  (w : WorkItem) (window_end remaining : Z) (st : PlanState) :
  place_step block_size max_break adaptive_breaks tired min_gap_between_study busy
             window_start w window_end remaining st = None <->
  free_of busy window_start window_end st = [] \/
  first_fit block_size remaining
    (rev (choose_free_segments (free_of busy window_start window_end st) (due_min w))) = None.
Proof.
  unfold place_step, free_of.
  set (free := subtract_intervals _ _ _).
  destruct free as [|p free'] eqn:Hfree; [tauto|]. rewrite <- Hfree.
  destruct (first_fit _ _ _) as [[[fs fe] alloc]|].
  - split; [discriminate|]. intros [H|H]; [congruence|discriminate].
  - tauto.
Qed.

(** C8. [plan] terminates: with the budget [enough_fuel] or any larger
    one it returns, and returns the same; in a task's loop every
    placement strictly decreases [window_end], which stays at or after
    [window_start]; a pass that finds no free segment, or places nothing,
    leaves the loop. *)
Theorem plan_terminates :
  (forall fuel self lectures work block_size max_break adaptive_breaks tired
          lecture_buffer_min min_gap_between_study,
      (enough_fuel self <= fuel)%nat ->
      exists r,
        plan fuel self lectures work block_size max_break adaptive_breaks tired
             lecture_buffer_min min_gap_between_study = Some r /\
        plan (enough_fuel self) self lectures work block_size max_break adaptive_breaks
             tired lecture_buffer_min min_gap_between_study = Some r) /\
  (forall block_size max_break adaptive_breaks tired min_gap busy window_start
          w window_end remaining st window_end' remaining' st',
      window_start <= window_end ->
      place_step block_size max_break adaptive_breaks tired min_gap busy window_start
                 w window_end remaining st = Some (window_end', remaining', st') ->
      window_start <= window_end' < window_end) /\
  (forall block_size max_break adaptive_breaks tired min_gap busy window_start
          w window_end remaining st fuel,
      0 < remaining ->
      (free_of busy window_start window_end st = [] \/
       first_fit block_size remaining
         (rev (choose_free_segments (free_of busy window_start window_end st) (due_min w)))
         = None) ->
      place_loop block_size max_break adaptive_breaks tired min_gap busy window_start
                 (S fuel) w window_end remaining st = Some (remaining, st)).
Proof.
  split; [|split].
  - intros. now apply plan_halts_with.
  - intros until st'. intros Hw Hstep.
    eapply place_step_shrinks in Hstep; [|exact Hw]. tauto.
  - intros until fuel. intros Hrem Hnone.
    pose proof (proj2 (place_step_None block_size max_break adaptive_breaks tired min_gap
                         busy window_start w window_end remaining st) Hnone) as Hn.
    simpl. destruct (Z.gtb_spec remaining 0); [|lia]. now rewrite Hn.
Qed.

Lemma plan_terminates_witness :
  exists r,
    plan 2000 (mkEngine 480 1320 None) [mkLecture "Bio" 600 660]
      [mkWorkItem "Math" "HW1" "2024-01-01" 900 90 false false] 60 60 true 5 30 10
    = Some r.
Proof.
  destruct (proj1 plan_terminates 2000%nat (mkEngine 480 1320 None)
              [mkLecture "Bio" 600 660]
              [mkWorkItem "Math" "HW1" "2024-01-01" 900 90 false false]
              60 60 true 5 30 10) as [r [Hr _]].
  - unfold enough_fuel, start_bound_of. simpl. lia.
  - exists r. exact Hr.
Defined.

(** C4. In every pass of a task's placement loop (valid block size, work
    remaining) the free segments are ranked by ascending distance from
    their end to the due minute, the larger first among equals; the walk
    goes through the ranking in reverse and the pass commits to the first
    segment of positive length it meets, which therefore is ranked last
    among the free segments of positive length. *)
Theorem reverse_walk_commits_last_ranked
  (block_size max_break : Z) (adaptive_breaks : bool) (tired min_gap : Z)
  (busy : list Interval) (window_start : Z)
  (w : WorkItem) (window_end remaining : Z) (st : PlanState) :
  0 < block_size -> 0 < remaining ->
  let free := free_of busy window_start window_end st in
  let ordered := choose_free_segments free (due_min w) in
  Permutation free ordered /\
  StronglySorted (rank_le (due_min w)) ordered /\
  forall r,
    place_step block_size max_break adaptive_breaks tired min_gap busy window_start
               w window_end remaining st = Some r ->
    exists fs fe alloc skipped rest,
      rev ordered = skipped ++ (fs, fe) :: rest /\
      Forall (fun p => seg_len p <= 0) skipped /\
      0 < seg_len (fs, fe) /\
      (forall p, In p free -> 0 < seg_len p -> rank_le (due_min w) p (fs, fe)) /\
      alloc = Z.min (Z.min block_size remaining) (fe - fs) /\
      r = commit max_break adaptive_breaks tired min_gap window_start
                 w window_end remaining fe alloc st.
Proof.
  intros Hb Hr free ordered.
  destruct (reverse_walk_spec block_size remaining free (due_min w) Hb Hr)
    as [Hperm [Hsorted Hwalk]].
  split; [exact Hperm|]. split; [exact Hsorted|].
  intros r Hstep. apply place_step_Some in Hstep.
  destruct Hstep as [fs [fe [alloc [_ [Hfit [_ [_ [_ [_ ->]]]]]]]]].
  destruct (Hwalk fs fe alloc Hfit) as [[sk [rs [Hrev [Hsk Hpos]]]] Hlast].
  apply first_fit_Some in Hfit. destruct Hfit as [_ [_ [_ Halloc]]].
  exists fs, fe, alloc, sk, rs. auto 10.
Qed.

Lemma reverse_walk_commits_last_ranked_witness :
  exists fs fe alloc,
    place_step 60 60 true 5 10 [] 480
      (mkWorkItem "Phys" "Lab" "2024-01-01" 700 120 false false) 700 120
      (mkState [study_block (mkWorkItem "Math" "HW1" "2024-01-01" 600 60 false false) 540 600] [])
    = Some (commit 60 true 5 10 480
              (mkWorkItem "Phys" "Lab" "2024-01-01" 700 120 false false) 700 120 fe alloc
              (mkState [study_block (mkWorkItem "Math" "HW1" "2024-01-01" 600 60 false false) 540 600] []))
    /\ (fs, fe, alloc) = (480, 540, 60)
    /\ rank_le 700 (600, 700) (fs, fe).
Proof.
  destruct (proj2 (proj2 (reverse_walk_commits_last_ranked 60 60 true 5 10 [] 480
      (mkWorkItem "Phys" "Lab" "2024-01-01" 700 120 false false) 700 120
      (mkState [study_block (mkWorkItem "Math" "HW1" "2024-01-01" 600 60 false false) 540 600] [])
      ltac:(lia) ltac:(lia))) _ eq_refl)
    as [fs [fe [alloc [sk [rs [Hrev [Hsk [Hpos [Hlast [Halloc Hr]]]]]]]]]].
  assert (Hseg : (fs, fe) = (480, 540)).
  { vm_compute in Hrev. destruct sk as [|p sk].
    - simpl in Hrev. injection Hrev as <- <-. reflexivity.
    - exfalso. simpl in Hrev. injection Hrev as <- Hrev'.
      apply Forall_cons_iff in Hsk. destruct Hsk as [Hp _].
      unfold seg_len in Hp. simpl in Hp. lia. }
  injection Hseg as -> ->.
  exists 480, 540, alloc. split; [|split].
  - rewrite Halloc. reflexivity.
  - rewrite Halloc. reflexivity.
  - apply Hlast; [vm_compute; auto|unfold seg_len; simpl; lia].
Defined.

(* ------------------------------------------------------------------ *)
(** * Shortfalls                                                        *)
(* ------------------------------------------------------------------ *)

Lemma study_minutes_app (l1 l2 : list PlanBlock) :
  study_minutes (l1 ++ l2) = study_minutes l1 + study_minutes l2.
Proof.
  induction l1 as [|b l1 IH]; simpl; [reflexivity|].
  destruct (String.eqb (kind b) "study"); lia.
Qed.

Section ShortfallFacts.
Variable self : ScheduleEngine.
Variable block_size max_break : Z.
Variable adaptive_breaks : bool.
Variable tired : Z.
Variable min_gap_between_study : Z.
Variable busy : list Interval.
Variable window_start : Z.

Local Abbreviation place_step' :=
  (place_step block_size max_break adaptive_breaks tired min_gap_between_study busy window_start).
Local Abbreviation place_loop' :=
  (place_loop block_size max_break adaptive_breaks tired min_gap_between_study busy window_start).
Local Abbreviation plan_task' :=
  (plan_task self block_size max_break adaptive_breaks tired min_gap_between_study busy
             window_start).

(** A pass only appends: the Study block of the task, with its [alloc]
    minutes, and possibly a Break. *)
Lemma place_step_appends (w : WorkItem) (we rem : Z) (st : PlanState) we' rem' st' :
  place_step' w we rem st = Some (we', rem', st') ->
  exists newb newl,
    plan_blocks st' = plan_blocks st ++ newb /\
    lines st' = lines st ++ newl /\
    study_minutes newb = rem - rem' /\
    Forall (placed_for w) newb /\
    0 <= rem' < rem.
Proof.
  intros Hstep. apply place_step_Some in Hstep.
  destruct Hstep as [fs [fe [alloc [_ [_ [Hpos [_ [Hrem [_ Hr]]]]]]]]].
  destruct (commit_spec max_break adaptive_breaks tired min_gap_between_study window_start
              w we rem fe alloc st) as [brk [extra [Hc Hbrk]]].
  rewrite Hc in Hr. injection Hr as -> -> ->.
  exists (study_block w (fe - alloc) fe :: brk), extra. cbn [plan_blocks lines].
  split; [reflexivity|]. split; [reflexivity|].
  assert (Hstudy : placed_for w (study_block w (fe - alloc) fe)).
  { left. repeat split. }
  destruct Hbrk as [->|[bstart [-> _]]]; (split; [simpl; lia|]); (split; [|lia]).
  - constructor; [exact Hstudy|constructor].
  - constructor; [exact Hstudy|]. constructor; [|constructor]. now right.
Qed.

Lemma place_loop_appends (fuel : nat) (w : WorkItem) (we rem : Z) (st : PlanState) rem' st' :
  place_loop' fuel w we rem st = Some (rem', st') ->
  exists newb newl,
    plan_blocks st' = plan_blocks st ++ newb /\
    lines st' = lines st ++ newl /\
    study_minutes newb = rem - rem' /\
    Forall (placed_for w) newb /\
    rem' <= rem /\ (0 <= rem -> 0 <= rem').
Proof.
  intros Hloop.
  destruct (place_loop_invariant block_size max_break adaptive_breaks tired
              min_gap_between_study busy window_start w
              (fun _ r s => exists newb newl,
                   plan_blocks s = plan_blocks st ++ newb /\
                   lines s = lines st ++ newl /\
                   study_minutes newb = rem - r /\
                   Forall (placed_for w) newb /\
                   r <= rem /\ (0 <= rem -> 0 <= r))) with
    (fuel := fuel) (we := we) (rem := rem) (st := st) (rem' := rem') (st' := st')
    as [we' [HP _]].
  - intros we0 rem0 st0 we1 rem1 st1 [nb [nl [Hb [Hl [Hm [Hf [Hle Hnn]]]]]]] Hpos Hstep.
    apply place_step_appends in Hstep.
    destruct Hstep as [nb' [nl' [Hb' [Hl' [Hm' [Hf' Hrange]]]]]].
    exists (nb ++ nb'), (nl ++ nl').
    rewrite Hb', Hl', Hb, Hl, <- !app_assoc, study_minutes_app.
    repeat split; try lia. apply Forall_app. auto.
  - exists [], []. rewrite !app_nil_r. simpl. repeat split; try lia. constructor.
  - exact Hloop.
  - exact HP.
Qed.

Lemma plan_task_spec (fuel : nat) (w : WorkItem) (st : PlanState) :
  (Z.to_nat (day_end self - window_start) < fuel)%nat ->
  exists st' newb newl,
    plan_task' fuel w st = Some st' /\
    plan_blocks st' = plan_blocks st ++ newb /\
    lines st' = lines st ++ newl /\
    Forall (placed_for w) newb /\
    (Z.min (day_end self) (due_min w) <= window_start ->
       newb = [] /\ newl = [no_window_line w]) /\
    (window_start < Z.min (day_end self) (due_min w) ->
       exists remaining,
         study_minutes newb = minutes_needed w - remaining /\
         remaining <= minutes_needed w /\
         (0 < remaining -> exists pre, newl = pre ++ [shortfall_line w remaining])).
Proof.
  intros Hfuel. unfold plan_task.
  destruct (Z.leb_spec (Z.min (day_end self) (due_min w)) window_start) as [Hw|Hw].
  - exists (mkState (plan_blocks st) (lines st ++ [no_window_line w])), [], [no_window_line w].
    cbn [plan_blocks lines]. rewrite app_nil_r.
    repeat split; try constructor; try lia.
  - destruct (place_loop_halts block_size max_break adaptive_breaks tired
                min_gap_between_study busy window_start fuel w
                (Z.min (day_end self) (due_min w)) (minutes_needed w) st)
      as [[rem st1] Hloop]; [lia|lia|].
    rewrite Hloop. apply place_loop_appends in Hloop.
    destruct Hloop as [nb [nl [Hb [Hl [Hm [Hf [Hle _]]]]]]].
    destruct (Z.gtb_spec rem 0) as [Hpos|Hneg].
    + exists (mkState (plan_blocks st1) (lines st1 ++ [shortfall_line w rem])),
        nb, (nl ++ [shortfall_line w rem]).
      cbn [plan_blocks lines]. rewrite Hl, <- app_assoc.
      repeat split; auto; try lia.
      intros _. exists rem. repeat split; try lia. intros _. now exists nl.
    + exists st1, nb, nl. repeat split; auto; try lia.
      intros _. exists rem. repeat split; try lia.
Qed.

(** A task with a window: the state after it is the state the loop
    leaves, with the warning line appended when minutes remain. *)
Lemma plan_task_loop (fuel : nat) (w : WorkItem) (st : PlanState) :
  (Z.to_nat (day_end self - window_start) < fuel)%nat ->
  window_start < Z.min (day_end self) (due_min w) ->
  exists remaining placed newb newl,
    place_loop' fuel w (Z.min (day_end self) (due_min w)) (minutes_needed w) st
    = Some (remaining, placed) /\
    plan_blocks placed = plan_blocks st ++ newb /\
    lines placed = lines st ++ newl /\
    study_minutes newb = minutes_needed w - remaining /\
    Forall (placed_for w) newb /\
    remaining <= minutes_needed w /\
    plan_task' fuel w st
    = Some (if remaining >? 0
            then mkState (plan_blocks placed) (lines placed ++ [shortfall_line w remaining])
            else placed).
Proof.
  intros Hfuel Hw.
  destruct (place_loop_halts block_size max_break adaptive_breaks tired
              min_gap_between_study busy window_start fuel w
              (Z.min (day_end self) (due_min w)) (minutes_needed w) st)
    as [[rem st1] Hloop]; [lia|lia|].
  pose proof (place_loop_appends _ _ _ _ _ _ _ Hloop) as Happ.
  destruct Happ as [nb [nl [Hb [Hl [Hm [Hf [Hle _]]]]]]].
  exists rem, st1, nb, nl. repeat split; auto.
  unfold plan_task.
  destruct (Z.leb_spec (Z.min (day_end self) (due_min w)) window_start); [lia|].
  rewrite Hloop. destruct (rem >? 0); reflexivity.
Qed.
End ShortfallFacts.

(** C9. A task that cannot be fully placed never makes [plan] fail: with
    the tiredness in [1..10], as [plan] passes it on, and a maximal break
    below [2^1023] no break computation raises, and the task's pass
    returns.  With an empty window the task adds no block and one warning
    line naming it.  Otherwise the blocks after the task are exactly those
    the loop has committed, none is taken back: they account for the
    minutes needed less the remainder the loop leaves, and when that
    remainder is positive (no free segment, or nothing placed) the only
    further change is the warning line with the task and the unmet
    minutes.  The remaining tasks are processed from the resulting state,
    and they return. *)
Theorem shortfall_is_soft
  (self : ScheduleEngine) (block_size max_break : Z) (adaptive_breaks : bool)
  (tired min_gap : Z) (busy : list Interval) (window_start : Z)
  (fuel : nat) (w : WorkItem) (rest : list WorkItem) (st : PlanState) :
  (Z.to_nat (day_end self - window_start) < fuel)%nat ->
  1 <= tired <= 10 -> Z.abs max_break < 2 ^ 1023 ->
  (forall remaining_after current_end window_end,
      compute_adaptive_break_call remaining_after current_end window_end
        (if adaptive_breaks then max_break else 0) tired (min_gap + tired * 3)
      = Ok (compute_adaptive_break remaining_after current_end window_end
              (if adaptive_breaks then max_break else 0) tired (min_gap + tired * 3))) /\
  exists st' newb newl,
    plan_task self block_size max_break adaptive_breaks tired min_gap busy window_start
              fuel w st = Some st' /\
    plan_tasks self block_size max_break adaptive_breaks tired min_gap busy window_start
               fuel (w :: rest) st
    = plan_tasks self block_size max_break adaptive_breaks tired min_gap busy window_start
                 fuel rest st' /\
    (exists final,
        plan_tasks self block_size max_break adaptive_breaks tired min_gap busy window_start
                   fuel rest st' = Some final) /\
    plan_blocks st' = plan_blocks st ++ newb /\
    lines st' = lines st ++ newl /\
    Forall (placed_for w) newb /\
    (Z.min (day_end self) (due_min w) <= window_start ->
       newb = [] /\ newl = [no_window_line w]) /\
    (window_start < Z.min (day_end self) (due_min w) ->
       exists remaining placed,
         place_loop block_size max_break adaptive_breaks tired min_gap busy window_start
                    fuel w (Z.min (day_end self) (due_min w)) (minutes_needed w) st
         = Some (remaining, placed) /\
         plan_blocks placed = plan_blocks st ++ newb /\
         study_minutes newb = minutes_needed w - remaining /\
         remaining <= minutes_needed w /\
         (0 < remaining -> lines st' = lines placed ++ [shortfall_line w remaining]) /\
         (remaining <= 0 -> st' = placed)).
Proof.
  intros Hfuel Htired Hmb. split.
  { intros ra ce we. apply compute_adaptive_break_call_in_range; [exact Htired|].
    destruct adaptive_breaks; [exact Hmb|].
    assert (0 < 2 ^ 1023) by (apply Z.pow_pos_nonneg; lia). simpl Z.abs. lia. }
  destruct (Z.leb_spec (Z.min (day_end self) (due_min w)) window_start) as [Hw|Hw].
  - exists (mkState (plan_blocks st) (lines st ++ [no_window_line w])), [], [no_window_line w].
    assert (Ht : plan_task self block_size max_break adaptive_breaks tired min_gap busy
                   window_start fuel w st
                 = Some (mkState (plan_blocks st) (lines st ++ [no_window_line w]))).
    { unfold plan_task.
      destruct (Z.leb_spec (Z.min (day_end self) (due_min w)) window_start); [reflexivity|lia]. }
    split; [exact Ht|]. split; [cbn [plan_tasks]; now rewrite Ht|].
    split; [now apply plan_tasks_halts|].
    cbn [plan_blocks lines]. rewrite app_nil_r.
    repeat split; try constructor. intros Hlt. lia.
  - destruct (plan_task_loop self block_size max_break adaptive_breaks tired min_gap busy
                window_start fuel w st Hfuel Hw)
      as [rem [placed [nb [nl [Hloop [Hb [Hl [Hm [Hf [Hle Ht]]]]]]]]]].
    destruct (Z.gtb_spec rem 0) as [Hpos|Hneg].
    + exists (mkState (plan_blocks placed) (lines placed ++ [shortfall_line w rem])),
        nb, (nl ++ [shortfall_line w rem]).
      split; [exact Ht|]. split; [cbn [plan_tasks]; now rewrite Ht|].
      split; [now apply plan_tasks_halts|].
      cbn [plan_blocks lines]. rewrite Hl, <- app_assoc.
      split; [exact Hb|]. split; [reflexivity|]. split; [exact Hf|].
      split; [intros Hle'; lia|]. intros _.
      exists rem, placed. rewrite Hl, <- app_assoc.
      repeat split; auto. intros Hle'. lia.
    + exists placed, nb, nl.
      split; [exact Ht|]. split; [cbn [plan_tasks]; now rewrite Ht|].
      split; [now apply plan_tasks_halts|].
      split; [exact Hb|]. split; [exact Hl|]. split; [exact Hf|].
      split; [intros Hle'; lia|]. intros _.
      exists rem, placed. repeat split; auto. intros Hpos. lia.
Qed.

Lemma shortfall_is_soft_witness :
  exists st' newb,
    plan_task (mkEngine 480 1320 None) 60 60 true 5 10 [] 480 2000
      (mkWorkItem "Phys" "Lab" "2024-01-01" 540 120 false false) (mkState [] []) = Some st' /\
    plan_blocks st' = [] ++ newb /\
    exists remaining placed,
      place_loop 60 60 true 5 10 [] 480 2000
        (mkWorkItem "Phys" "Lab" "2024-01-01" 540 120 false false)
        (Z.min 1320 540) 120 (mkState [] []) = Some (remaining, placed) /\
      plan_blocks placed = [] ++ newb /\
      study_minutes newb = 120 - remaining.
Proof.
  destruct (shortfall_is_soft (mkEngine 480 1320 None) 60 60 true 5 10 [] 480 2000
              (mkWorkItem "Phys" "Lab" "2024-01-01" 540 120 false false) []
              (mkState [] []))
    as [_ [st' [nb [nl [Ht [_ [_ [Hb [_ [_ [_ Hshort]]]]]]]]]]].
  - simpl. lia.
  - lia.
  - vm_compute. reflexivity.
  - exists st', nb. split; [exact Ht|]. split; [exact Hb|].
    destruct Hshort as [rem [placed [Hloop [Hpb [Hm _]]]]]; [simpl; lia|].
    exists rem, placed. auto.
Defined.

(* ------------------------------------------------------------------ *)
(** * The tired level                                                   *)
(* ------------------------------------------------------------------ *)

Lemma clamp_tired_idem (tired : Z) : clamp_tired (clamp_tired tired) = clamp_tired tired.
Proof. unfold clamp_tired. lia. Qed.

Lemma plan_of_clamped (fuel : nat) (self : ScheduleEngine) (lectures : list Lecture)
  (work : list WorkItem) (block_size max_break : Z) (adaptive_breaks : bool)
  (tired lecture_buffer_min min_gap_between_study : Z) :
  plan fuel self lectures work block_size max_break adaptive_breaks tired
       lecture_buffer_min min_gap_between_study
  = plan fuel self lectures work block_size max_break adaptive_breaks (clamp_tired tired)
         lecture_buffer_min min_gap_between_study.
Proof. unfold plan. now rewrite clamp_tired_idem. Qed.

(** C10. [plan] accepts every integer [tired]: it uses only [tired]
    clamped into [1..10], so that a call with [tired < 1] is the call with
    [tired = 1] and a call with [tired > 10] is the call with [tired = 10].
    No tiredness makes it fail: for a maximal break below [2^1023] every
    break computation gets the clamped value and returns, whatever
    [tired] is, and with enough loop budget [plan] returns. *)
Theorem plan_clamps_tired
  (fuel : nat) (self : ScheduleEngine) (lectures : list Lecture)
  (work : list WorkItem) (block_size max_break : Z) (adaptive_breaks : bool)
  (tired lecture_buffer_min min_gap_between_study : Z) :
  (Z.abs max_break < 2 ^ 1023 ->
   (forall remaining_after current_end window_end,
       compute_adaptive_break_call remaining_after current_end window_end
         (if adaptive_breaks then max_break else 0) (clamp_tired tired)
         (min_gap_between_study + clamp_tired tired * 3)
       = Ok (compute_adaptive_break remaining_after current_end window_end
               (if adaptive_breaks then max_break else 0) (clamp_tired tired)
               (min_gap_between_study + clamp_tired tired * 3))) /\
   ((enough_fuel self <= fuel)%nat ->
    exists r, plan fuel self lectures work block_size max_break adaptive_breaks tired
                   lecture_buffer_min min_gap_between_study = Some r)) /\
  1 <= clamp_tired tired <= 10 /\
  plan fuel self lectures work block_size max_break adaptive_breaks tired
       lecture_buffer_min min_gap_between_study
  = plan fuel self lectures work block_size max_break adaptive_breaks (clamp_tired tired)
         lecture_buffer_min min_gap_between_study /\
  (tired < 1 ->
   plan fuel self lectures work block_size max_break adaptive_breaks tired
        lecture_buffer_min min_gap_between_study
   = plan fuel self lectures work block_size max_break adaptive_breaks 1
          lecture_buffer_min min_gap_between_study) /\
  (10 < tired ->
   plan fuel self lectures work block_size max_break adaptive_breaks tired
        lecture_buffer_min min_gap_between_study
   = plan fuel self lectures work block_size max_break adaptive_breaks 10
          lecture_buffer_min min_gap_between_study).
Proof.
  split; [|split; [|split; [|split]]].
  - intros Hmb. split.
    + intros ra ce we. apply compute_adaptive_break_call_in_range.
      * unfold clamp_tired. lia.
      * destruct adaptive_breaks; [exact Hmb|].
        assert (0 < 2 ^ 1023) by (apply Z.pow_pos_nonneg; lia). simpl Z.abs. lia.
    + intros Hfuel.
      destruct (plan_halts_with fuel self lectures work block_size max_break adaptive_breaks
                  tired lecture_buffer_min min_gap_between_study Hfuel) as [r [Hr _]].
      now exists r.
  - unfold clamp_tired. lia.
  - apply plan_of_clamped.
  - intros Hlow. rewrite plan_of_clamped.
    rewrite (plan_of_clamped fuel self lectures work block_size max_break adaptive_breaks 1).
    f_equal. unfold clamp_tired. lia.
  - intros Hhigh. rewrite plan_of_clamped.
    rewrite (plan_of_clamped fuel self lectures work block_size max_break adaptive_breaks 10).
    f_equal. unfold clamp_tired. lia.
Qed.

Lemma plan_clamps_tired_witness :
  plan 2000 (mkEngine 480 1320 None) []
       [mkWorkItem "Phys" "Lab" "2024-01-01" 900 120 false false] 60 60 true (-3) 30 10
  = plan 2000 (mkEngine 480 1320 None) []
         [mkWorkItem "Phys" "Lab" "2024-01-01" 900 120 false false] 60 60 true 1 30 10 /\
  plan 2000 (mkEngine 480 1320 None) []
       [mkWorkItem "Phys" "Lab" "2024-01-01" 900 120 false false] 60 60 true 42 30 10
  = plan 2000 (mkEngine 480 1320 None) []
         [mkWorkItem "Phys" "Lab" "2024-01-01" 900 120 false false] 60 60 true 10 30 10 /\
  (exists r,
     plan 2000 (mkEngine 480 1320 None) []
          [mkWorkItem "Phys" "Lab" "2024-01-01" 900 120 false false] 60 60 true (10 ^ 400) 30 10
     = Some r) /\
  compute_adaptive_break_call 60 540 900 60 (clamp_tired (10 ^ 400))
    (10 + clamp_tired (10 ^ 400) * 3)
  = Ok (compute_adaptive_break 60 540 900 60 (clamp_tired (10 ^ 400))
          (10 + clamp_tired (10 ^ 400) * 3)).
Proof.
  split; [|split; [|split]].
  - apply (proj1 (proj2 (proj2 (proj2 (plan_clamps_tired 2000 (mkEngine 480 1320 None) []
       [mkWorkItem "Phys" "Lab" "2024-01-01" 900 120 false false] 60 60 true (-3) 30 10))))).
    lia.
  - apply (proj2 (proj2 (proj2 (proj2 (plan_clamps_tired 2000 (mkEngine 480 1320 None) []
       [mkWorkItem "Phys" "Lab" "2024-01-01" 900 120 false false] 60 60 true 42 30 10))))).
    vm_compute. reflexivity.
  - apply (proj1 (plan_clamps_tired 2000 (mkEngine 480 1320 None) []
       [mkWorkItem "Phys" "Lab" "2024-01-01" 900 120 false false] 60 60 true (10 ^ 400) 30 10)).
    + vm_compute. reflexivity.
    + unfold enough_fuel, start_bound_of. simpl. lia.
  - apply (proj1 (proj1 (plan_clamps_tired 2000 (mkEngine 480 1320 None) []
       [mkWorkItem "Phys" "Lab" "2024-01-01" 900 120 false false] 60 60 true (10 ^ 400) 30 10)
       ltac:(vm_compute; reflexivity))).
Defined.

(* ------------------------------------------------------------------ *)
(** * Configuration errors                                              *)
(* ------------------------------------------------------------------ *)

(** C3. A scheduling call whose configuration has
    [day_start >= day_end], [block <= 0] or [max_break < 0] ends in a
    [ValueError]: the error does not depend on the lectures, on the tasks
    or on the loop budget, since it is raised before the callbacks and
    [plan] are reached, and it carries no block.  The engine's constructor
    itself refuses [day_start >= day_end]. *)
Theorem config_errors_raise
  (day_start day_end block max_break tired : Z) (now_min : option Z) :
  day_start >= day_end \/ block <= 0 \/ max_break < 0 ->
  (exists msg, forall fuel lectures tasks_today,
      generate fuel day_start day_end block max_break tired now_min lectures tasks_today
      = Raise (ValueError msg)) /\
  (day_start >= day_end ->
   ScheduleEngine_init day_start day_end now_min
   = Raise (ValueError "Day start must be before day end.")).
Proof.
  intros Hbad. split.
  - unfold generate.
    destruct (negb ((0 <=? day_start) && (day_start <? day_end) && (day_end <=? 24 * 60)))
      eqn:Hday; [eauto|].
    destruct ((block <=? 0) || (max_break <? 0)) eqn:Hblk; [eauto|].
    exfalso. apply negb_false_iff in Hday.
    apply andb_true_iff in Hday. destruct Hday as [Hday _].
    apply andb_true_iff in Hday. destruct Hday as [_ Hday].
    apply orb_false_iff in Hblk. destruct Hblk as [Hb Hm]. lia.
  - intros Hday. unfold ScheduleEngine_init.
    destruct (Z.geb_spec day_start day_end); [reflexivity|lia].
Qed.

Lemma config_errors_raise_witness :
  generate 2000 600 480 60 60 5 None (Ok [])
    (Ok [mkWorkItem "Math" "HW1" "2024-01-01" 900 90 false false])
  = Raise (ValueError "Day start must be before end").
Proof.
  destruct (proj1 (config_errors_raise 600 480 60 60 5 None ltac:(lia))) as [msg Hmsg].
  rewrite Hmsg. rewrite <- (Hmsg 0%nat (Ok []) (Ok [])). reflexivity.
Defined.

(* ------------------------------------------------------------------ *)
(** * The per-day share                                                 *)
(* ------------------------------------------------------------------ *)

Section AllocatorFacts.
Variable strptime_date : string -> outcome Z.

Lemma sum_app (l1 l2 : list Z) :
  fold_right Z.add 0 (l1 ++ l2) = fold_right Z.add 0 l1 + fold_right Z.add 0 l2.
Proof. induction l1 as [|x l1 IH]; simpl; lia. Qed.

Lemma study_sum_fold (course title : string) (l : list PlanBlock) (acc : Z) :
  Forall (fun pb => start_min pb <= end_min pb) l ->
  fold_left (fun total pb =>
      if is_study_of course title pb
      then total + Z.max 0 (end_min pb - start_min pb) else total) l acc
  = acc + fold_right Z.add 0
            (map (fun pb => end_min pb - start_min pb) (filter (is_study_of course title) l)).
Proof.
  intros Hwf. revert acc. induction Hwf as [|pb l Hpb Hl IH]; intros acc; simpl; [lia|].
  rewrite IH. destruct (is_study_of course title pb); simpl; lia.
Qed.

Lemma previously_planned_minutes_fold (days : DayStore) (cur : Z) (course title : string)
  (acc : Z) :
  Forall (fun entry => Forall (fun pb => start_min pb <= end_min pb) (snd entry)) days ->
  fold_left (fun total (entry : string * list PlanBlock) =>
    match strptime_date (fst entry) with
    | Ok d =>
        if d >=? cur then total
        else fold_left (fun total pb =>
               if is_study_of course title pb
               then total + Z.max 0 (end_min pb - start_min pb)
               else total) (snd entry) total
    | _ => total
    end) days acc
  = acc + prior_minutes_spec strptime_date days cur course title.
Proof.
  intros Hwf. revert acc. unfold prior_minutes_spec.
  induction Hwf as [|entry days Hentry Hdays IH]; intros acc; simpl; [lia|].
  rewrite IH, filter_app, map_app, sum_app.
  destruct (strptime_date (fst entry)) as [d|e|]; simpl; try lia.
  destruct (Z.geb_spec d cur), (Z.ltb_spec d cur); try lia; simpl; [lia|].
  rewrite study_sum_fold by exact Hentry. lia.
Qed.

Lemma ceil_share (remaining parts : Z) :
  0 < remaining -> 0 < parts ->
  is_ceil (Z.max 1 ((remaining + parts - 1) / parts)) remaining parts.
Proof.
  intros Hr Hp. unfold is_ceil.
  pose proof (Z.div_mod (remaining + parts - 1) parts ltac:(lia)) as Hdm.
  pose proof (Z.mod_pos_bound (remaining + parts - 1) parts Hp) as Hmod.
  set (q := (remaining + parts - 1) / parts) in *.
  assert (Hq : 1 <= q) by nia.
  rewrite Z.max_r by lia. nia.
Qed.
End AllocatorFacts.

(** The share of one unprepared work item over a history of well-formed
    blocks: [prior] is the sum of the durations of the Study blocks
    labelled exactly ["Study: {course} — {title}"] on the days strictly
    before today; [remaining = max(0, minutes_needed - prior)]; with
    [remaining = 0] no item is produced; overdue and due-today items get
    the whole remainder, due at 23:59 and at the item's own due minute;
    an item due in [d > 0] days gets the ceiling of [remaining / parts],
    [parts] being 2 for [d = 1] and [d] otherwise, due at 23:59. *)
Lemma task_for_day_share
  (strptime_date : string -> outcome Z) (days : DayStore) (cur : Z)
  (w : WorkItem) (due_date : Z) :
  Forall (fun entry => Forall (fun pb => start_min pb <= end_min pb) (snd entry)) days ->
  prepared w = false ->
  strptime_date (date_iso w) = Ok due_date ->
  let prior := previously_planned_minutes strptime_date days cur (w_course w) (title w) in
  let remaining := Z.max 0 (minutes_needed w - prior) in
  let item share due :=
    Ok (Some (mkWorkItem (w_course w) (title w) (date_iso w) due share false
                (repeat_weekly w))) in
  prior = prior_minutes_spec strptime_date days cur (w_course w) (title w) /\
  (remaining = 0 -> task_for_day strptime_date days cur w = Ok None) /\
  (remaining <> 0 -> due_date < cur ->
     task_for_day strptime_date days cur w = item remaining (23 * 60 + 59)) /\
  (remaining <> 0 -> due_date = cur ->
     task_for_day strptime_date days cur w = item remaining (due_min w)) /\
  (remaining <> 0 -> cur < due_date ->
     exists share,
       is_ceil share remaining (if due_date - cur =? 1 then 2 else due_date - cur) /\
       task_for_day strptime_date days cur w = item share (23 * 60 + 59)).
Proof.
  intros Hwf Hprep Hdate prior remaining item.
  split; [|split; [|split; [|split]]].
  - unfold prior, previously_planned_minutes.
    rewrite previously_planned_minutes_fold by exact Hwf. lia.
  - intros H0. unfold task_for_day. rewrite Hprep, Hdate.
    fold prior. fold remaining. rewrite H0. reflexivity.
  - intros Hne Hlt. unfold task_for_day. rewrite Hprep, Hdate.
    fold prior. fold remaining.
    destruct (Z.eqb_spec remaining 0); [contradiction|].
    destruct (Z.ltb_spec (due_date - cur) 0); [reflexivity|lia].
  - intros Hne Heq. unfold task_for_day. rewrite Hprep, Hdate.
    fold prior. fold remaining.
    destruct (Z.eqb_spec remaining 0); [contradiction|].
    destruct (Z.ltb_spec (due_date - cur) 0); [lia|].
    destruct (Z.eqb_spec (due_date - cur) 0); [reflexivity|lia].
  - intros Hne Hgt.
    exists (Z.max 1 ((remaining + (if due_date - cur =? 1 then 2 else due_date - cur) - 1)
                     / (if due_date - cur =? 1 then 2 else due_date - cur))).
    split.
    + apply ceil_share; [unfold remaining in *; lia|].
      destruct (Z.eqb_spec (due_date - cur) 1); lia.
    + unfold task_for_day. rewrite Hprep, Hdate.
      fold prior. fold remaining.
      destruct (Z.eqb_spec remaining 0); [contradiction|].
      destruct (Z.ltb_spec (due_date - cur) 0); [lia|].
      destruct (Z.eqb_spec (due_date - cur) 0); [lia|reflexivity].
Qed.

(** The loop body on an unprepared item whose due date parses returns,
    and what it returns is the item of the specification's rule. *)
Lemma task_for_day_meets_spec
  (strptime_date : string -> outcome Z) (days : DayStore) (cur : Z)
  (w : WorkItem) (due_date : Z) :
  Forall (fun entry => Forall (fun pb => start_min pb <= end_min pb) (snd entry)) days ->
  prepared w = false ->
  strptime_date (date_iso w) = Ok due_date ->
  exists r, task_for_day strptime_date days cur w = Ok r /\
            day_share_spec strptime_date days cur w r.
Proof.
  intros Hwf Hp Hd.
  destruct (task_for_day_share strptime_date days cur w due_date Hwf Hp Hd)
    as [Hprior [H0 [Hlt [Heq Hgt]]]].
  unfold day_share_spec. cbv zeta. rewrite <- Hprior.
  set (remaining := Z.max 0 (minutes_needed w - _)) in *.
  destruct (Z.eq_dec remaining 0) as [Hz|Hnz].
  - exists None. split; [exact (H0 Hz)|]. split; [reflexivity|]. intros Hne. contradiction.
  - destruct (Z.lt_trichotomy due_date cur) as [Hc|[Hc|Hc]].
    + exists (Some (day_item w (23 * 60 + 59) remaining)).
      split; [exact (Hlt Hnz Hc)|]. split; [intros Hz; contradiction|].
      intros _. exists due_date. split; [exact Hd|].
      split; [reflexivity|]. split; intros; lia.
    + exists (Some (day_item w (due_min w) remaining)).
      split; [exact (Heq Hnz Hc)|]. split; [intros Hz; contradiction|].
      intros _. exists due_date. split; [exact Hd|].
      split; [intros; lia|]. split; [reflexivity|intros; lia].
    + destruct (Hgt Hnz Hc) as [share [Hceil Ht]].
      exists (Some (day_item w (23 * 60 + 59) share)).
      split; [exact Ht|]. split; [intros Hz; contradiction|].
      intros _. exists due_date. split; [exact Hd|].
      split; [intros; lia|]. split; [intros; lia|].
      intros _. exists share. split; [exact Hceil|reflexivity].
Qed.

(** C5. The claim as amended: a prepared work item gives no day-scoped
    item, whatever is left of it.  For the work items that are not
    prepared, over a history of well-formed blocks and with due dates
    that parse: [prior] is the sum of the durations of the Study blocks
    labelled exactly ["Study: {course} — {title}"] on the days strictly
    before today and [remaining = max(0, minutes_needed - prior)]; with
    [remaining = 0] no item is produced; overdue and due-today items get
    the whole remainder, due at 23:59 and at the item's own due minute;
    an item due in [d > 0] days gets the ceiling of [remaining / parts],
    [parts] being 2 for [d = 1] and [d] otherwise, due at 23:59.  What
    [_get_tasks_for_day] returns is these items, in the order of the
    work items. *)
Theorem share_for_day
  (strptime_date : string -> outcome Z) (days : DayStore) (week : list WorkItem)
  (date : string) (cur : Z) :
  Forall (fun entry => Forall (fun pb => start_min pb <= end_min pb) (snd entry)) days ->
  strptime_date date = Ok cur ->
  (forall w, In w week -> prepared w = false ->
             exists due_date, strptime_date (date_iso w) = Ok due_date) ->
  exists produced,
    Forall2 (fun w r => if prepared w then r = None
                        else day_share_spec strptime_date days cur w r) week produced /\
    _get_tasks_for_day strptime_date days week date = Ok (flat_map item_list produced).
Proof.
  intros Hwf Hcur Hdates. unfold _get_tasks_for_day. rewrite Hcur.
  induction week as [|w rest IH].
  - exists []. split; [constructor|reflexivity].
  - destruct IH as [ps [Hf Hloop]]; [intros v Hv; apply Hdates; now right|].
    cbn [tasks_loop].
    destruct (prepared w) eqn:Hp.
    + exists (None :: ps). split; [constructor; [now rewrite Hp|exact Hf]|].
      unfold task_for_day. rewrite Hp, Hloop. reflexivity.
    + destruct (Hdates w (or_introl eq_refl) Hp) as [d Hd].
      destruct (task_for_day_meets_spec strptime_date days cur w d Hwf Hp Hd)
        as [r [Hr Hs]].
      exists (r :: ps). split; [constructor; [now rewrite Hp|exact Hf]|].
      rewrite Hr, Hloop. destruct r; reflexivity.
Qed.

Lemma share_for_day_witness :
  exists produced,
    Forall2 (fun w r =>
               if prepared w then r = None
               else day_share_spec
                      (fun s => if String.eqb s "2024-01-13" then Ok 13
                                else if String.eqb s "2024-01-10" then Ok 10 else Ok 9)
                      [("2024-01-09"%string,
                        [mkPlanBlock 480 520 "Study: Math — HW1" "study" "Math" false])]
                      10 w r)
      [mkWorkItem "Math" "HW1" "2024-01-13" 900 140 false false;
       mkWorkItem "Phys" "Lab" "2024-01-09" 900 40 true false] produced /\
    _get_tasks_for_day
      (fun s => if String.eqb s "2024-01-13" then Ok 13
                else if String.eqb s "2024-01-10" then Ok 10 else Ok 9)
      [("2024-01-09"%string,
        [mkPlanBlock 480 520 "Study: Math — HW1" "study" "Math" false])]
      [mkWorkItem "Math" "HW1" "2024-01-13" 900 140 false false;
       mkWorkItem "Phys" "Lab" "2024-01-09" 900 40 true false] "2024-01-10"
    = Ok (flat_map item_list produced).
Proof.
  apply (share_for_day
    (fun s => if String.eqb s "2024-01-13" then Ok 13
              else if String.eqb s "2024-01-10" then Ok 10 else Ok 9)
    [("2024-01-09"%string,
      [mkPlanBlock 480 520 "Study: Math — HW1" "study" "Math" false])]
    [mkWorkItem "Math" "HW1" "2024-01-13" 900 140 false false;
     mkWorkItem "Phys" "Lab" "2024-01-09" 900 40 true false] "2024-01-10" 10).
  - repeat constructor; simpl; lia.
  - reflexivity.
  - intros w [<-|[<-|[]]] Hp; [exists 13; reflexivity|discriminate Hp].
Defined.

(** The claim as it is worded fails on a prepared item: this one is
    overdue (due on day 8, today is day 10) with 40 minutes remaining, so
    the claim gives it a share of 40 due at 23:59, while the loop skips it
    and [_get_tasks_for_day] returns no item. *)
Lemma share_for_day_counterexample :
  (fun s => if String.eqb s "2024-01-10" then Ok 10 else Ok 8)
    (date_iso (mkWorkItem "Math" "HW1" "2024-01-08" 900 40 true false)) = Ok 8 /\
  8 < 10 /\
  Z.max 0 (minutes_needed (mkWorkItem "Math" "HW1" "2024-01-08" 900 40 true false)
           - prior_minutes_spec (fun s => if String.eqb s "2024-01-10" then Ok 10 else Ok 8)
               [] 10 "Math" "HW1") = 40 /\
  ~ day_share_spec (fun s => if String.eqb s "2024-01-10" then Ok 10 else Ok 8) [] 10
      (mkWorkItem "Math" "HW1" "2024-01-08" 900 40 true false) None /\
  task_for_day (fun s => if String.eqb s "2024-01-10" then Ok 10 else Ok 8) [] 10
    (mkWorkItem "Math" "HW1" "2024-01-08" 900 40 true false) = Ok None /\
  _get_tasks_for_day (fun s => if String.eqb s "2024-01-10" then Ok 10 else Ok 8) []
    [mkWorkItem "Math" "HW1" "2024-01-08" 900 40 true false] "2024-01-10" = Ok [].
Proof.
  split; [reflexivity|]. split; [lia|]. split; [reflexivity|].
  split; [|split; reflexivity].
  intros [_ Hspec].
  destruct Hspec as [due_date [Hd [Hover _]]]; [vm_compute; discriminate|].
  cbv beta in Hd. cbn in Hd. injection Hd as <-.
  specialize (Hover ltac:(lia)). discriminate Hover.
Qed.

(* ------------------------------------------------------------------ *)
(** * What does hold of the blocks of a call                            *)
(* ------------------------------------------------------------------ *)

Lemma ForallOrdPairs_snoc (A : Type) (R : A -> A -> Prop) (l : list A) (x : A) :
  ForallOrdPairs R l -> Forall (fun a => R a x) l -> ForallOrdPairs R (l ++ [x]).
Proof.
  induction 1 as [|a l Ha Hl IH]; intros Hx; simpl.
  - repeat constructor.
  - apply Forall_cons_iff in Hx. destruct Hx as [Hax Hx].
    constructor; [|now apply IH].
    apply Forall_app. split; [exact Ha|]. repeat constructor. exact Hax.
Qed.

Lemma merge_loop_Forall (P : Interval -> Prop) :
  (forall ls le ll s e l, P (ls, le, ll) -> P (s, e, l) -> s <= le -> P (ls, Z.max le e, ll)) ->
  forall xs acc cur,
    Forall P acc -> P cur -> Forall P xs -> Forall P (merge_loop acc cur xs).
Proof.
  intros Hmerge. induction xs as [|[[s e] l] xs IH]; intros acc [[ls le] ll] Hacc Hcur Hxs.
  - simpl. apply Forall_app. split; [now apply Forall_rev|]. repeat constructor. exact Hcur.
  - apply Forall_cons_iff in Hxs. destruct Hxs as [Hx Hxs]. simpl.
    destruct (Z.leb_spec s le).
    + apply IH; auto. eapply Hmerge; eauto.
    + apply IH; auto.
Qed.

Lemma merge_intervals_Forall (P : Interval -> Prop) (intervals : list Interval) :
  (forall ls le ll s e l, P (ls, le, ll) -> P (s, e, l) -> s <= le -> P (ls, Z.max le e, ll)) ->
  Forall P intervals -> Forall P (merge_intervals intervals).
Proof.
  intros Hmerge Hall. unfold merge_intervals.
  assert (Hs : Forall P (py_sorted interval_leb intervals)).
  { rewrite Forall_forall in *. intros i Hi. apply Hall. now apply py_sorted_In in Hi. }
  destruct (py_sorted interval_leb intervals) as [|x xs]; [constructor|].
  apply Forall_cons_iff in Hs. destruct Hs as [Hx Hxs].
  now apply merge_loop_Forall.
Qed.

Lemma lecture_busy_in_day (self : ScheduleEngine) (buffer : Z) (lectures : list Lecture) :
  Forall (fun i : Interval => day_start self <= fst (fst i) /\
                              fst (fst i) < snd (fst i) /\ snd (fst i) <= day_end self)
         (merge_intervals (lecture_busy self buffer lectures)).
Proof.
  apply merge_intervals_Forall.
  - simpl. intros; lia.
  - unfold lecture_busy. rewrite Forall_forall. intros i Hi.
    apply in_flat_map in Hi. destruct Hi as [lec [_ Hi]].
    destruct (Z.gtb_spec (Z.min (day_end self) (lec_end_min lec + buffer))
                         (Z.max (day_start self) (lec_start_min lec - buffer))) as [Hgt|Hle].
    + destruct Hi as [<-|[]]. simpl. lia.
    + destruct Hi.
Qed.

Section BlockFacts.
Variable self : ScheduleEngine.
Variable block_size max_break : Z.
Variable adaptive_breaks : bool.
Variable tired : Z.
Variable min_gap_between_study : Z.
Variable busy : list Interval.
Variable window_start : Z.

Local Abbreviation place_step' :=
  (place_step block_size max_break adaptive_breaks tired min_gap_between_study busy window_start).
Local Abbreviation place_loop' :=
  (place_loop block_size max_break adaptive_breaks tired min_gap_between_study busy window_start).
Local Abbreviation plan_task' :=
  (plan_task self block_size max_break adaptive_breaks tired min_gap_between_study busy
             window_start).
Local Abbreviation plan_tasks' :=
  (plan_tasks self block_size max_break adaptive_breaks tired min_gap_between_study busy
              window_start).

Local Abbreviation blocks_inv := (blocks_invariant busy window_start (day_end self)).

(** The minutes of a committed Study block are free: in no fixed busy
    interval and in no block placed so far. *)
Lemma committed_minutes_free (w : WorkItem) (we rem : Z) (st : PlanState)
  fs fe alloc x :
  window_start <= we ->
  In (fs, fe) (free_of busy window_start we st) ->
  0 < alloc -> alloc <= fe - fs -> fe - alloc <= x < fe ->
  (forall s e l, In (s, e, l) busy -> ~ s <= x < e) /\
  (forall a, In a (plan_blocks st) -> ~ start_min a <= x < end_min a).
Proof.
  intros Hw Hin Hpos Hspan Hx. unfold free_of in Hin.
  pose proof (subtract_intervals_within window_start we
                (busy ++ map block_interval (plan_blocks st)) Hw) as Hwithin.
  rewrite Forall_forall in Hwithin. specialize (Hwithin _ Hin). simpl in Hwithin.
  destruct (subtract_intervals_spec window_start we
              (busy ++ map block_interval (plan_blocks st)) ltac:(lia)) as [_ [_ Hcov]].
  assert (Hc : covered (subtract_intervals window_start we
                          (busy ++ map block_interval (plan_blocks st))) x).
  { exists (fs, fe). split; [exact Hin|simpl; lia]. }
  apply Hcov in Hc. destruct Hc as [Hxw Hnot].
  rewrite clip_blocks_covered in Hnot.
  split.
  - intros s e l Hi Hse. apply Hnot. split; [exact Hxw|].
    exists s, e, l. split; [apply in_or_app; now left|exact Hse].
  - intros a Ha Hse. apply Hnot. split; [exact Hxw|].
    exists (start_min a), (end_min a), (label a). split; [|exact Hse].
    apply in_or_app. right. apply in_map_iff. exists a. auto.
Qed.

Lemma place_step_keeps (w : WorkItem) (we rem : Z) (st : PlanState) we' rem' st' :
  window_start <= we <= day_end self ->
  blocks_inv (plan_blocks st) ->
  place_step' w we rem st = Some (we', rem', st') ->
  window_start <= we' <= day_end self /\ blocks_inv (plan_blocks st').
Proof.
  intros Hw [Hin [Hpairs [Hclear Hkinds]]] Hstep.
  pose proof (place_step_shrinks _ _ _ _ _ _ _ _ _ _ _ _ _ _ (proj1 Hw) Hstep) as Hshrink.
  split; [lia|].
  apply place_step_Some in Hstep.
  destruct Hstep as [fs [fe [alloc [Hfree [_ [Hpos [Hspan [_ [_ Hr]]]]]]]]].
  destruct (commit_spec max_break adaptive_breaks tired min_gap_between_study window_start
              w we rem fe alloc st) as [brk [extra [Hc Hbrk]]].
  rewrite Hc in Hr. injection Hr as -> -> ->. cbn [plan_blocks].
  pose proof (subtract_intervals_within window_start we
                (busy ++ map block_interval (plan_blocks st)) (proj1 Hw)) as Hwithin.
  rewrite Forall_forall in Hwithin. specialize (Hwithin _ Hfree). simpl in Hwithin.
  assert (Hfreex : forall x, fe - alloc <= x < fe ->
            (forall s e l, In (s, e, l) busy -> ~ s <= x < e) /\
            (forall a, In a (plan_blocks st) -> ~ start_min a <= x < end_min a)).
  { intros x Hx. eapply committed_minutes_free; eauto. lia. }
  assert (Hstudy : blocks_inv (plan_blocks st ++ [study_block w (fe - alloc) fe])).
  { split; [|split; [|split]].
    - apply Forall_app. split; [exact Hin|]. repeat constructor; simpl; lia.
    - apply ForallOrdPairs_snoc; [exact Hpairs|].
      rewrite Forall_forall. intros a Ha _ [x [Hxa Hxb]]. simpl in Hxb.
      destruct (Hfreex x Hxb) as [_ Hb]. exact (Hb a Ha Hxa).
    - apply Forall_app. split; [exact Hclear|]. repeat constructor.
      intros _ s e l Hi x Hse Hxb. simpl in Hxb.
      destruct (Hfreex x Hxb) as [Hb _]. exact (Hb s e l Hi Hse).
    - apply Forall_app. split; [exact Hkinds|]. repeat constructor. }
  destruct Hbrk as [->|[bstart [-> [_ Hbs]]]]; [exact Hstudy|].
  change (plan_blocks st ++ [study_block w (fe - alloc) fe; break_block bstart (fe - alloc)])
    with (plan_blocks st ++ [study_block w (fe - alloc) fe] ++ [break_block bstart (fe - alloc)]).
  rewrite app_assoc.
  destruct Hstudy as [H1 [H2 [H3 H4]]].
  split; [|split; [|split]].
  - apply Forall_app. split; [exact H1|]. repeat constructor; simpl; lia.
  - apply ForallOrdPairs_snoc; [exact H2|].
    rewrite Forall_forall. intros a _ Hk. discriminate Hk.
  - apply Forall_app. split; [exact H3|]. repeat constructor. intros Hk. discriminate Hk.
  - apply Forall_app. split; [exact H4|]. constructor; [now right|constructor].
Qed.

Lemma plan_task_keeps (fuel : nat) (w : WorkItem) (st st' : PlanState) :
  blocks_inv (plan_blocks st) ->
  plan_task' fuel w st = Some st' -> blocks_inv (plan_blocks st').
Proof.
  intros Hinv. unfold plan_task.
  destruct (Z.leb_spec (Z.min (day_end self) (due_min w)) window_start) as [Hw|Hw].
  - intros H. injection H as <-. exact Hinv.
  - destruct (place_loop' fuel w _ _ st) as [[rem st1]|] eqn:Hloop; [|discriminate].
    destruct (place_loop_invariant block_size max_break adaptive_breaks tired
                min_gap_between_study busy window_start w
                (fun we _ s => window_start <= we <= day_end self /\
                               blocks_inv (plan_blocks s)))
      with (fuel := fuel) (we := Z.min (day_end self) (due_min w))
           (rem := minutes_needed w) (st := st) (rem' := rem) (st' := st1)
      as [we' [[_ HP] _]].
    + intros we0 rem0 st0 we1 rem1 st2 [Hw0 Hi0] _ Hstep.
      eapply place_step_keeps; eauto.
    + cbv beta. split; [lia|exact Hinv].
    + exact Hloop.
    + destruct (rem >? 0); intros H; injection H as <-; exact HP.
Qed.

Lemma plan_tasks_keeps (fuel : nat) (pending : list WorkItem) (st st' : PlanState) :
  blocks_inv (plan_blocks st) ->
  plan_tasks' fuel pending st = Some st' -> blocks_inv (plan_blocks st').
Proof.
  revert st. induction pending as [|w rest IH]; intros st Hinv; simpl.
  - intros H. injection H as <-. exact Hinv.
  - destruct (plan_task' fuel w st) as [st1|] eqn:Ht; [|discriminate].
    apply IH. eapply plan_task_keeps; eauto.
Qed.
End BlockFacts.

(** The closing loop appends Lecture blocks, one per busy interval. *)
Lemma fixed_items_blocks (busy : list Interval) (st : PlanState) :
  exists lec,
    plan_blocks (fixed_items busy st) = plan_blocks st ++ lec /\
    Forall (fun b => kind b = "lecture"%string /\ In (block_interval b) busy) lec.
Proof.
  unfold fixed_items.
  assert (Hsub : forall i, In i (py_sorted interval_leb busy) -> In i busy).
  { intros i. apply py_sorted_In. }
  revert st Hsub. generalize (py_sorted interval_leb busy).
  match goal with |- context [fold_left ?f _ _] => set (step := f) end.
  assert (Hstep : forall st i, In i busy ->
            exists one, plan_blocks (step st i) = plan_blocks st ++ one /\
              Forall (fun b => kind b = "lecture"%string /\ In (block_interval b) busy) one).
  { intros st [[s e] lb] Hi. unfold step. destruct (startswith lb "Lecture").
    - eexists [_]. split; [reflexivity|]. repeat constructor. exact Hi.
    - exists []. rewrite app_nil_r. auto. }
  induction l as [|i l IH]; intros st Hsub; cbn [fold_left].
  - exists []. rewrite app_nil_r. auto.
  - destruct (IH (step st i)) as [lec [Hb Hl]]; [intros j Hj; apply Hsub; now right|].
    destruct (Hstep st i (Hsub i (or_introl eq_refl))) as [one [Ho Hf]].
    exists (one ++ lec). rewrite Hb, Ho, <- app_assoc. split; [reflexivity|].
    apply Forall_app. auto.
Qed.

(** X8. Every block [plan] returns has positive length and ends within
    the day.  A Study or Break block starts at or after the horizon
    ([now_min], or [day_start] when there is none), a Lecture block at or
    after [day_start], and there is no other kind of block.  So with a
    horizon at or after the day's start all blocks lie in the day. *)
Theorem plan_blocks_within (fuel : nat) (self : ScheduleEngine) (lectures : list Lecture)
  (work : list WorkItem) (block_size max_break : Z) (adaptive_breaks : bool)
  (tired lecture_buffer_min min_gap_between_study : Z) blocks text :
  plan fuel self lectures work block_size max_break adaptive_breaks tired
       lecture_buffer_min min_gap_between_study = Some (blocks, text) ->
  Forall (fun b =>
            ((kind b = "study"%string \/ kind b = "break"%string) /\
             block_within (start_bound_of self) (day_end self) b) \/
            (kind b = "lecture"%string /\
             block_within (day_start self) (day_end self) b)) blocks /\
  (day_start self <= start_bound_of self ->
   Forall (block_within (day_start self) (day_end self)) blocks).
Proof.
  unfold plan. set (busy := merge_intervals _).
  destruct (plan_tasks _ _ _ _ _ _ _ _ _ _ _) as [st|] eqn:Hst; [|discriminate].
  intros H. injection H as <- _.
  apply plan_tasks_keeps in Hst.
  2:{ repeat split; constructor. }
  destruct Hst as [Hin [_ [_ Hkinds]]].
  match goal with
  | |- context [fixed_items busy ?s] =>
      destruct (fixed_items_blocks busy s) as [lec [-> Hlec]]
  end.
  cbn [plan_blocks].
  pose proof (lecture_busy_in_day self lecture_buffer_min lectures) as Hbusy.
  fold busy in Hbusy. rewrite Forall_forall in Hbusy.
  assert (Hlec' : Forall (fun b => kind b = "lecture"%string /\
                                   block_within (day_start self) (day_end self) b) lec).
  { rewrite Forall_forall in *. intros b Hb. destruct (Hlec b Hb) as [Hk Hi].
    specialize (Hbusy _ Hi). unfold block_interval in Hbusy. simpl in Hbusy.
    unfold block_within. split; [exact Hk|lia]. }
  assert (Hplaced : Forall (fun b => (kind b = "study"%string \/ kind b = "break"%string) /\
                                     block_within (start_bound_of self) (day_end self) b)
                           (plan_blocks st)).
  { rewrite Forall_forall in *. intros b Hb. split; [exact (Hkinds b Hb)|exact (Hin b Hb)]. }
  split; [|intros Hday]; apply Forall_app; split.
  - eapply Forall_impl; [|exact Hplaced]. intros b Hb. now left.
  - eapply Forall_impl; [|exact Hlec']. intros b Hb. now right.
  - eapply Forall_impl; [|exact Hplaced]. unfold block_within. intros b [_ Hb]. lia.
  - eapply Forall_impl; [|exact Hlec']. intros b [_ Hb]. exact Hb.
Qed.

(** X9. A Study block never overlaps a block returned before it, nor a
    Lecture block. *)
Theorem study_blocks_clear (fuel : nat) (self : ScheduleEngine) (lectures : list Lecture)
  (work : list WorkItem) (block_size max_break : Z) (adaptive_breaks : bool)
  (tired lecture_buffer_min min_gap_between_study : Z) blocks text :
  plan fuel self lectures work block_size max_break adaptive_breaks tired
       lecture_buffer_min min_gap_between_study = Some (blocks, text) ->
  ForallOrdPairs (fun a b => kind b = "study"%string -> ~ blocks_overlap a b) blocks /\
  (forall a b, In a blocks -> In b blocks ->
               kind a = "lecture"%string -> kind b = "study"%string ->
               ~ blocks_overlap a b).
Proof.
  unfold plan. set (busy := merge_intervals _).
  destruct (plan_tasks _ _ _ _ _ _ _ _ _ _ _) as [st|] eqn:Hst; [|discriminate].
  intros H. injection H as <- _.
  apply plan_tasks_keeps in Hst.
  2:{ repeat split; constructor. }
  destruct Hst as [_ [Hpairs [Hclear Hkinds]]].
  match goal with
  | |- context [fixed_items busy ?s] =>
      destruct (fixed_items_blocks busy s) as [lec [-> Hlec]]
  end.
  cbn [plan_blocks]. rewrite Forall_forall in Hlec, Hclear, Hkinds.
  split.
  - clear Hclear Hkinds. induction Hpairs as [|a l Ha Hl IH]; simpl.
    + induction lec as [|b lec IHl]; [constructor|].
      constructor.
      * rewrite Forall_forall. intros c Hc Hk.
        destruct (Hlec c (or_intror Hc)) as [Hk' _]. congruence.
      * apply IHl. intros c Hc. apply Hlec. now right.
    + constructor; [|exact IH]. apply Forall_app. split; [exact Ha|].
      rewrite Forall_forall. intros c Hc Hk.
      destruct (Hlec c Hc) as [Hk' _]. congruence.
  - intros a b Ha Hb Hka Hkb [x [Hxa Hxb]].
    apply in_app_or in Ha, Hb.
    destruct Hb as [Hb|Hb]; [|destruct (Hlec b Hb) as [Hk' _]; congruence].
    destruct Ha as [Ha|Ha].
    + destruct (Hkinds a Ha); congruence.
    + destruct (Hlec a Ha) as [_ Hi]. unfold block_interval in Hi.
      exact (Hclear b Hb Hkb _ _ _ Hi x Hxa Hxb).
Qed.

(* ------------------------------------------------------------------ *)
(** * Overlap and day bounds on concrete calls                          *)
(* ------------------------------------------------------------------ *)

(** C1, on the code.  Two tasks due at 9:00 and 10:00 on a day from 8:00
    to 22:00, no lecture: the second task's Study block fills
    [[540, 600)] and its Break is put at [[515, 540)], inside the first
    task's Study block [[480, 540)]. *)
Theorem break_overlaps_earlier_study :
  exists text,
    plan 2000 (mkEngine 480 1320 None) []
      [mkWorkItem "Math" "HW1" "2024-01-01" 540 60 false false;
       mkWorkItem "Phys" "Lab" "2024-01-01" 600 120 false false]
      60 60 true 5 30 10
    = Some ([study_block (mkWorkItem "Math" "HW1" "2024-01-01" 540 60 false false) 480 540;
             study_block (mkWorkItem "Phys" "Lab" "2024-01-01" 600 120 false false) 540 600;
             break_block 515 540], text) /\
    ScheduleEngine_init 480 1320 None = Ok (mkEngine 480 1320 None) /\
    blocks_overlap
      (study_block (mkWorkItem "Math" "HW1" "2024-01-01" 540 60 false false) 480 540)
      (break_block 515 540) /\
    ~ ForallOrdPairs
        (fun a b => seg_disjoint (start_min a, end_min a) (start_min b, end_min b))
        [study_block (mkWorkItem "Math" "HW1" "2024-01-01" 540 60 false false) 480 540;
         study_block (mkWorkItem "Phys" "Lab" "2024-01-01" 600 120 false false) 540 600;
         break_block 515 540].
Proof.
  eexists. split; [vm_compute; reflexivity|]. split; [reflexivity|]. split.
  - exists 520. simpl. lia.
  - intros H. inversion H as [|a l Ha Hl]; subst.
    apply Forall_cons_iff in Ha. destruct Ha as [_ Ha].
    apply Forall_cons_iff in Ha. destruct Ha as [Ha _].
    unfold seg_disjoint in Ha. simpl in Ha. lia.
Qed.

(** C2, on the code.  The same day opened at 7:00, before the day's
    start at 8:00, with a 90-minute task due at 9:00: the call is accepted
    by [generate]; after the Study block [[480, 540)] the Break is put at
    [[455, 480)] and the second Study block at [[425, 455)], both before
    the day's start. *)
Theorem study_before_day_start :
  exists text,
    generate 2000 480 1320 60 60 5 (Some 420) (Ok [])
      (Ok [mkWorkItem "Math" "HW1" "2024-01-01" 540 90 false false])
    = Ok ([study_block (mkWorkItem "Math" "HW1" "2024-01-01" 540 90 false false) 480 540;
           break_block 455 480;
           study_block (mkWorkItem "Math" "HW1" "2024-01-01" 540 90 false false) 425 455],
          text) /\
    plan 2000 (mkEngine 480 1320 (Some 420)) []
      [mkWorkItem "Math" "HW1" "2024-01-01" 540 90 false false] 60 60 true 5 30 10
    = Some ([study_block (mkWorkItem "Math" "HW1" "2024-01-01" 540 90 false false) 480 540;
             break_block 455 480;
             study_block (mkWorkItem "Math" "HW1" "2024-01-01" 540 90 false false) 425 455],
            text) /\
    ~ block_within 480 1320 (break_block 455 480) /\
    ~ block_within 480 1320
        (study_block (mkWorkItem "Math" "HW1" "2024-01-01" 540 90 false false) 425 455).
Proof.
  eexists. split; [vm_compute; reflexivity|]. split; [vm_compute; reflexivity|].
  unfold block_within. simpl. lia.
Qed.

(** The engine itself takes a block size that is not positive: the call
    returns, with the Lecture blocks and a warning for the task. *)
Example plan_with_zero_block_size :
  exists text,
    plan 2000 (mkEngine 480 1320 None) [mkLecture "Bio" 600 660]
      [mkWorkItem "Math" "HW1" "2024-01-01" 900 90 false false] 0 60 true 5 30 10
    = Some ([mkPlanBlock 570 690 "Lecture: Bio" "lecture" "Bio" false], text).
Proof. eexists. vm_compute. reflexivity. Qed.

(* ------------------------------------------------------------------ *)
(** * merge_intervals                                                   *)
(* ------------------------------------------------------------------ *)

Lemma interval_leb_start (a b : Interval) :
  (interval_leb a b = true -> istart a <= istart b) /\
  (interval_leb a b = false -> istart b <= istart a).
Proof.
  destruct a as [[s1 e1] l1], b as [[s2 e2] l2]. unfold interval_leb, istart. simpl.
  split; intros H.
  - destruct (Z.ltb_spec s1 s2); [lia|]. destruct (Z.eqb_spec s1 s2); [lia|discriminate].
  - destruct (Z.ltb_spec s1 s2); [discriminate|lia].
Qed.

Lemma insert_sorted_by_start (x : Interval) (l : list Interval) :
  StronglySorted (fun a b => istart a <= istart b) l ->
  StronglySorted (fun a b => istart a <= istart b) (insert_sorted interval_leb x l).
Proof.
  induction 1 as [|y l Hs IH Hy]; simpl.
  - repeat constructor.
  - destruct (interval_leb x y) eqn:E.
    + apply interval_leb_start in E.
      constructor; [now constructor|]. constructor; [exact E|].
      eapply Forall_impl; [|exact Hy]. simpl. intros; lia.
    + apply interval_leb_start in E.
      constructor; [exact IH|]. rewrite Forall_forall in *. intros z Hz.
      apply (Permutation_in _ (Permutation_sym (insert_sorted_perm _ interval_leb x l))) in Hz.
      destruct Hz as [<-|Hz]; auto.
Qed.

Lemma sorted_intervals_by_start (l : list Interval) :
  StronglySorted (fun a b => istart a <= istart b) (py_sorted interval_leb l).
Proof.
  induction l; simpl; [constructor|now apply insert_sorted_by_start].
Qed.

Lemma StronglySorted_snoc (A : Type) (R : A -> A -> Prop) (l : list A) (x : A) :
  StronglySorted R l -> Forall (fun a => R a x) l -> StronglySorted R (l ++ [x]).
Proof.
  induction 1 as [|a l Hl IH Ha]; intros Hx; simpl.
  - repeat constructor.
  - apply Forall_cons_iff in Hx. destruct Hx as [Hax Hx].
    constructor; [now apply IH|]. apply Forall_app. split; [exact Ha|].
    repeat constructor. exact Hax.
Qed.

Lemma icovered_app (l1 l2 : list Interval) (x : Z) :
  icovered (l1 ++ l2) x <-> icovered l1 x \/ icovered l2 x.
Proof.
  unfold icovered. split.
  - intros [s [e [lb [Hin Hx]]]]. apply in_app_or in Hin. destruct Hin; eauto 10.
  - intros [[s [e [lb [Hin Hx]]]]|[s [e [lb [Hin Hx]]]]];
      exists s, e, lb; split; auto using in_or_app.
Qed.

Lemma icovered_cons (i : Interval) (l : list Interval) (x : Z) :
  icovered (i :: l) x <-> istart i <= x < iend i \/ icovered l x.
Proof.
  destruct i as [[s e] lb]. unfold icovered, istart, iend. simpl. split.
  - intros [s' [e' [lb' [[H|Hin] Hx]]]]; [injection H as <- <- <-; now left|eauto 10].
  - intros [Hx|[s' [e' [lb' [Hin Hx]]]]]; [exists s, e, lb|exists s', e', lb']; auto.
Qed.

Lemma icovered_nil (x : Z) : ~ icovered [] x.
Proof. intros [s [e [lb [[] _]]]]. Qed.

Lemma icovered_perm (l1 l2 : list Interval) (x : Z) :
  Permutation l1 l2 -> icovered l1 x -> icovered l2 x.
Proof.
  intros HP [s [e [lb [Hin Hx]]]]. exists s, e, lb. split; [|exact Hx].
  now apply (Permutation_in _ HP).
Qed.

(** The loop of [merge_intervals] on a list sorted by start. *)
Lemma merge_loop_separated (xs : list Interval) :
  forall acc cur,
    StronglySorted (fun a b => iend a < istart b) (rev acc) ->
    Forall (fun a => iend a < istart cur) acc ->
    StronglySorted (fun a b => istart a <= istart b) (cur :: xs) ->
    StronglySorted (fun a b => iend a < istart b) (merge_loop acc cur xs).
Proof.
  induction xs as [|[[s e] lb] xs IH]; intros acc [[ls le] ll] Hacc Hcur Hsorted.
  - simpl. apply StronglySorted_snoc; [exact Hacc|]. now apply Forall_rev.
  - apply StronglySorted_inv in Hsorted. destruct Hsorted as [Hxs Hhd].
    apply StronglySorted_inv in Hxs. destruct Hxs as [Hxs Hse].
    apply Forall_cons_iff in Hhd. destruct Hhd as [Hls Hhd]. unfold istart in Hls; simpl in Hls.
    simpl. destruct (Z.leb_spec s le).
    + apply IH; [exact Hacc|exact Hcur|]. constructor; [exact Hxs|exact Hhd].
    + apply IH.
      * simpl. apply StronglySorted_snoc; [exact Hacc|].
        apply Forall_rev. exact Hcur.
      * constructor; [unfold iend, istart; simpl; lia|].
        eapply Forall_impl; [|exact Hcur]. unfold istart. simpl. intros; lia.
      * constructor; [exact Hxs|exact Hse].
Qed.

Lemma merge_loop_covers (xs : list Interval) (x : Z) :
  forall acc cur,
    StronglySorted (fun a b => istart a <= istart b) (cur :: xs) ->
    (icovered (merge_loop acc cur xs) x <-> icovered (acc ++ cur :: xs) x).
Proof.
  induction xs as [|[[s e] lb] xs IH]; intros acc [[ls le] ll] Hsorted.
  - simpl. rewrite !icovered_app, !icovered_cons. split.
    + intros [H|[H|H]]; [left|right; now left|now apply icovered_nil in H].
      destruct H as [s' [e' [l' [Hin Hx]]]]. exists s', e', l'. split; [|exact Hx].
      now apply in_rev.
    + intros [H|[H|H]]; [left|right; now left|now apply icovered_nil in H].
      destruct H as [s' [e' [l' [Hin Hx]]]]. exists s', e', l'. split; [|exact Hx].
      now apply in_rev in Hin.
  - apply StronglySorted_inv in Hsorted. destruct Hsorted as [Hxs Hhd].
    apply StronglySorted_inv in Hxs. destruct Hxs as [Hxs Hse].
    apply Forall_cons_iff in Hhd. destruct Hhd as [Hls Hhd]. unfold istart in Hls; simpl in Hls.
    simpl. destruct (Z.leb_spec s le) as [Hmerge|Hgap].
    + rewrite IH by (constructor; [exact Hxs|exact Hhd]).
      rewrite !icovered_app, !icovered_cons. unfold istart, iend. simpl.
      split; intros [H|[H|H]]; try tauto.
      * destruct (Z.ltb_spec x le); [right; left; lia|right; right; left; lia].
      * right; left; lia.
      * destruct H as [H|H]; [right; left; lia|tauto].
    + rewrite IH by (constructor; [exact Hxs|exact Hse]).
      simpl. repeat (rewrite icovered_app || rewrite icovered_cons). tauto.
Qed.

Lemma merge_intervals_minutes (intervals : list Interval) (x : Z) :
  icovered (merge_intervals intervals) x <-> icovered intervals x.
Proof.
  unfold merge_intervals.
  pose proof (sorted_intervals_by_start intervals) as Hs.
  pose proof (py_sorted_perm _ interval_leb intervals) as Hp.
  destruct (py_sorted interval_leb intervals) as [|i xs] eqn:E.
  - split; [intros H; now apply icovered_nil in H|].
    intros H. apply (icovered_perm _ _ _ Hp) in H. exact H.
  - rewrite (merge_loop_covers xs x [] i Hs). simpl. split.
    + apply icovered_perm. now apply Permutation_sym.
    + now apply icovered_perm.
Qed.

Lemma merge_intervals_gaps (intervals : list Interval) :
  StronglySorted (fun a b => iend a < istart b) (merge_intervals intervals).
Proof.
  unfold merge_intervals.
  pose proof (sorted_intervals_by_start intervals) as Hs.
  destruct (py_sorted interval_leb intervals) as [|x xs]; [constructor|].
  apply merge_loop_separated; [constructor|constructor|exact Hs].
Qed.

Lemma py_sorted_of_increasing (l : list Interval) :
  StronglySorted (fun a b => istart a < istart b) l -> py_sorted interval_leb l = l.
Proof.
  induction 1 as [|a l Hl IH Ha]; simpl; [reflexivity|].
  rewrite IH. destruct l as [|y l']; [reflexivity|]. simpl.
  apply Forall_cons_iff in Ha. destruct Ha as [Hay _].
  destruct (interval_leb a y) eqn:E; [reflexivity|].
  apply interval_leb_start in E. lia.
Qed.

Lemma merge_intervals_increasing (intervals : list Interval) :
  Forall (fun i => istart i < iend i) intervals ->
  StronglySorted (fun a b => istart a < istart b) (merge_intervals intervals).
Proof.
  intros Hwf.
  assert (Hwf' : Forall (fun i => istart i < iend i) (merge_intervals intervals)).
  { apply merge_intervals_Forall; [|exact Hwf].
    unfold istart, iend. simpl. intros; lia. }
  pose proof (merge_intervals_gaps intervals) as Hsep.
  induction Hsep as [|a l Hl IH Ha]; [constructor|].
  apply Forall_cons_iff in Hwf'. destruct Hwf' as [Hwa Hwl].
  constructor; [now apply IH|].
  eapply Forall_impl; [|exact Ha]. simpl. intros; lia.
Qed.

(** X3. On intervals of positive length [merge_intervals] is idempotent:
    merging a merged list changes nothing. *)
Theorem merge_intervals_idempotent (intervals : list Interval) :
  Forall (fun i => istart i < iend i) intervals ->
  merge_intervals (merge_intervals intervals) = merge_intervals intervals.
Proof.
  intros Hwf.
  pose proof (merge_intervals_increasing intervals Hwf) as Hinc.
  pose proof (merge_intervals_gaps intervals) as Hsep.
  unfold merge_intervals at 1. rewrite (py_sorted_of_increasing _ Hinc).
  destruct (merge_intervals intervals) as [|x xs]; [reflexivity|].
  assert (Hgen : forall ys acc cur,
            StronglySorted (fun a b => iend a < istart b) (cur :: ys) ->
            merge_loop acc cur ys = rev acc ++ cur :: ys).
  { induction ys as [|[[s e] lb] ys IH]; intros acc [[ls le] ll] Hs.
    - reflexivity.
    - apply StronglySorted_inv in Hs. destruct Hs as [Hys Hhd].
      apply Forall_cons_iff in Hhd. destruct Hhd as [Hse _].
      unfold iend, istart in Hse. simpl in Hse. simpl.
      destruct (Z.leb_spec s le); [lia|].
      rewrite IH by exact Hys. simpl. now rewrite <- app_assoc. }
  rewrite Hgen by exact Hsep. reflexivity.
Qed.

Lemma merge_intervals_idempotent_witness :
  merge_intervals (merge_intervals [(570, 690, "Lecture: B"%string);
                                    (500, 600, "Lecture: A"%string)])
  = merge_intervals [(570, 690, "Lecture: B"%string); (500, 600, "Lecture: A"%string)].
Proof.
  apply merge_intervals_idempotent. repeat constructor.
Defined.

(** X1. The intervals [merge_intervals] returns are in ascending order and
    strictly separated: each one ends before the next one starts.  Each
    starts where one of the given intervals starts and carries that
    interval's label, and ends where one of the given intervals ends. *)
Theorem merge_intervals_separated (intervals : list Interval) :
  StronglySorted (fun a b => iend a < istart b) (merge_intervals intervals) /\
  Forall (fun m => (exists e, In (istart m, e, ilabel m) intervals) /\
                   (exists s lb, In (s, iend m, lb) intervals))
         (merge_intervals intervals).
Proof.
  split; [apply merge_intervals_gaps|].
  apply merge_intervals_Forall.
  - unfold istart, iend, ilabel. simpl.
    intros ls le ll s e l [Hstart [s1 [l1 Hend]]] [_ [s2 [l2 Hend2]]] _.
    split; [exact Hstart|].
    destruct (Z.max_spec le e) as [[_ ->]|[_ ->]]; eauto.
  - rewrite Forall_forall. intros [[s e] lb] Hi. unfold istart, iend, ilabel. simpl. eauto.
Qed.

(** X2. [merge_intervals] keeps the covered minutes: a minute lies in a
    merged interval exactly when it lies in one of the given intervals;
    no input gives no output. *)
Theorem merge_intervals_covers (intervals : list Interval) :
  (forall x, icovered (merge_intervals intervals) x <-> icovered intervals x) /\
  (intervals = [] <-> merge_intervals intervals = []).
Proof.
  split; [intros x; apply merge_intervals_minutes|].
  unfold merge_intervals.
  pose proof (py_sorted_perm _ interval_leb intervals) as Hp.
  destruct (py_sorted interval_leb intervals) as [|i xs].
  - apply Permutation_sym, Permutation_nil in Hp. tauto.
  - split; [intros ->; now apply Permutation_nil in Hp|].
    intros H. exfalso. clear Hp.
    assert (Hne : forall ys acc cur, merge_loop acc cur ys <> []).
    { induction ys as [|[[s e] lb] ys IH]; intros acc [[ls le] ll]; simpl.
      - intros H'. apply app_eq_nil in H'. destruct H' as [_ H']. discriminate H'.
      - destruct (s <=? le); apply IH. }
    exact (Hne xs [] i H).
Qed.

(* ------------------------------------------------------------------ *)
(** * More on subtract_intervals and compute_adaptive_break             *)
(* ------------------------------------------------------------------ *)

(** X4. For [start < end_] the free segments are exactly the window less
    the busy intervals: a minute lies in a free segment if and only if it
    lies in the window and in no busy interval.  So no free segment meets
    a busy interval. *)
Theorem free_is_window_less_busy (start end_ : Z) (busy : list Interval) :
  start < end_ ->
  forall x, covered (subtract_intervals start end_ busy) x <->
            start <= x < end_ /\ ~ icovered busy x.
Proof.
  intros Hlt x.
  destruct (subtract_intervals_spec start end_ busy Hlt) as [_ [_ Hcov]].
  rewrite Hcov, clip_blocks_covered. unfold icovered. tauto.
Qed.

Lemma free_is_window_less_busy_witness :
  ~ covered (subtract_intervals 480 900 [(570, 690, "Lecture: Bio"%string)]) 600 /\
  covered (subtract_intervals 480 900 [(570, 690, "Lecture: Bio"%string)]) 700.
Proof.
  split.
  - intros H.
    apply (free_is_window_less_busy 480 900 [(570, 690, "Lecture: Bio"%string)]
             ltac:(lia)) in H.
    destruct H as [_ H]. apply H. exists 570, 690, "Lecture: Bio"%string.
    split; [now left|lia].
  - apply (free_is_window_less_busy 480 900 [(570, 690, "Lecture: Bio"%string)]
             ltac:(lia)).
    split; [lia|]. intros [s [e [lb [[H|[]] Hx]]]]. injection H as <- <- _. lia.
Defined.

(** X5. On a window that is empty or reversed, [subtract_intervals]
    returns the window itself as its only segment, whatever is busy: the
    result is never the empty list there. *)
Theorem subtract_intervals_degenerate (start end_ : Z) (busy : list Interval) :
  end_ <= start -> subtract_intervals start end_ busy = [(start, end_)].
Proof.
  intros Hle. unfold subtract_intervals.
  pose proof (clip_blocks_wf start end_ busy) as Hwf.
  destruct (clip_blocks start end_ busy) as [|b bs]; [reflexivity|].
  apply Forall_cons_iff in Hwf. lia.
Qed.

Lemma subtract_intervals_degenerate_witness :
  subtract_intervals 540 480 [(400, 600, "Lecture: Bio"%string)] = [(540, 480)].
Proof. apply subtract_intervals_degenerate. lia. Defined.

Lemma scaled_max_break_zero (tired : Z) : scaled_max_break 0 tired = 0.
Proof.
  unfold scaled_max_break, fl_of_Z, fl_mul, fl_trunc. cbn [fst snd].
  change (rnd 0) with 0. rewrite Z.mul_0_l. change (rnd 0) with 0.
  destruct (0 <=? 0 + snd (tired_mult tired)); reflexivity.
Qed.

Lemma compute_adaptive_break_bounds
  (remaining_after current_end window_end max_break tired min_gap : Z) :
  0 <= compute_adaptive_break remaining_after current_end window_end max_break tired min_gap
    <= Z.max (Z.max min_gap 0) (scaled_max_break max_break tired).
Proof.
  unfold compute_adaptive_break.
  set (m := scaled_max_break max_break tired).
  set (s := slack_of remaining_after current_end window_end).
  destruct (Z.leb_spec m 0), (Z.leb_spec s 5); simpl; try lia;
    destruct (Z.leb_spec s 20); try lia; destruct (Z.leb_spec s 40); lia.
Qed.

(** X6. A break is never negative and never longer than the larger of
    the floor and the scaled budget [int(max_break * tired_mult)], and so
    is every value a call returns; with a
    budget of 0 (adaptive breaks switched off) and a tiredness that
    converts to a float ([|tired| < 2^1023]) the call returns, and
    returns exactly the floor. *)
Theorem compute_adaptive_break_capped
  (remaining_after current_end window_end max_break tired min_gap : Z) :
  0 <= compute_adaptive_break remaining_after current_end window_end max_break tired min_gap
    <= Z.max (Z.max min_gap 0) (scaled_max_break max_break tired) /\
  (forall v,
     compute_adaptive_break_call remaining_after current_end window_end max_break tired min_gap
     = Ok v ->
     0 <= v <= Z.max (Z.max min_gap 0) (scaled_max_break max_break tired)) /\
  (Z.abs tired < 2 ^ 1023 ->
   compute_adaptive_break_call remaining_after current_end window_end 0 tired min_gap
   = Ok (Z.max min_gap 0)).
Proof.
  split; [|split].
  - apply compute_adaptive_break_bounds.
  - intros v. unfold compute_adaptive_break_call.
    destruct (float_error max_break tired); [discriminate|].
    intros Hv. injection Hv as <-. apply compute_adaptive_break_bounds.
  - intros Ht. unfold compute_adaptive_break_call, float_error.
    rewrite (fl_of_Z_finite tired Ht).
    assert (H0 : fl_finite (fl_of_Z 0) = true) by reflexivity.
    rewrite H0. cbn [negb].
    assert (Hm : fl_finite (fl_mul (fl_of_Z 0) (tired_mult tired)) = true).
    { assert (Hz : fl_mul (fl_of_Z 0) (tired_mult tired) = (0, 0 + snd (tired_mult tired))).
      { unfold fl_mul, fl_of_Z. cbn [fst snd]. change (rnd 0) with 0.
        rewrite Z.mul_0_l. reflexivity. }
      rewrite Hz. unfold fl_finite. cbn [fst snd Z.abs]. rewrite Z.mul_0_l.
      apply Z.ltb_lt. apply Z.mul_pos_pos; apply Z.pow_pos_nonneg; lia. }
    rewrite Hm. cbn [negb].
    unfold compute_adaptive_break. rewrite scaled_max_break_zero. reflexivity.
Qed.

Lemma compute_adaptive_break_capped_witness :
  compute_adaptive_break_call 60 540 900 0 7 12 = Ok (Z.max 12 0).
Proof.
  apply (proj2 (proj2 (compute_adaptive_break_capped 60 540 900 0 7 12))).
  vm_compute. reflexivity.
Defined.

(* ------------------------------------------------------------------ *)
(** * The order of the tasks                                            *)
(* ------------------------------------------------------------------ *)

Lemma task_leb_total (a b : WorkItem) : task_leb a b = true \/ task_leb b a = true.
Proof. apply pair_leb_total. Qed.

Lemma task_leb_trans (a b c : WorkItem) :
  task_leb a b = true -> task_leb b c = true -> task_leb a c = true.
Proof. apply pair_leb_trans. Qed.

(** X7. The tasks [plan] goes through are the unprepared ones, each as
    often as it is given, in the order of ascending due minute and, for
    equal due minutes, of descending minutes needed. *)
Theorem pending_order (work : list WorkItem) :
  Permutation (filter (fun w => negb (prepared w)) work) (pending_of work) /\
  (forall w, In w (pending_of work) <-> In w work /\ prepared w = false) /\
  StronglySorted (fun a b => due_min a < due_min b \/
                             (due_min a = due_min b /\ minutes_needed b <= minutes_needed a))
                 (pending_of work).
Proof.
  unfold pending_of. split; [apply py_sorted_perm|]. split.
  - intros w. rewrite py_sorted_In, filter_In, negb_true_iff. tauto.
  - pose proof (py_sorted_sorted _ task_leb task_leb_total task_leb_trans
                  (filter (fun w => negb (prepared w)) work)) as Hs.
    induction Hs as [|a l Hl IH Ha]; constructor; [exact IH|].
    eapply Forall_impl; [|exact Ha]. intros b. unfold task_leb, task_key, pair_leb. simpl. lia.
Qed.

(* ------------------------------------------------------------------ *)
(** * More on the blocks of a call                                      *)
(* ------------------------------------------------------------------ *)

Section StudyFacts.
Variable self : ScheduleEngine.
Variable block_size max_break : Z.
Variable adaptive_breaks : bool.
Variable tired : Z.
Variable min_gap_between_study : Z.
Variable busy : list Interval.
Variable window_start : Z.
Variable tasks : list WorkItem.

Local Abbreviation place_step' :=
  (place_step block_size max_break adaptive_breaks tired min_gap_between_study busy window_start).
Local Abbreviation place_loop' :=
  (place_loop block_size max_break adaptive_breaks tired min_gap_between_study busy window_start).
Local Abbreviation plan_task' :=
  (plan_task self block_size max_break adaptive_breaks tired min_gap_between_study busy
             window_start).
Local Abbreviation plan_tasks' :=
  (plan_tasks self block_size max_break adaptive_breaks tired min_gap_between_study busy
              window_start).

Lemma place_step_study (w : WorkItem) (we rem : Z) (st : PlanState) we' rem' st' :
  In w tasks ->
  window_start <= we <= due_min w ->
  Forall (study_of_some tasks block_size) (plan_blocks st) ->
  place_step' w we rem st = Some (we', rem', st') ->
  window_start <= we' <= due_min w /\
  Forall (study_of_some tasks block_size) (plan_blocks st').
Proof.
  intros Hw Hwe Hall Hstep.
  pose proof (place_step_shrinks _ _ _ _ _ _ _ _ _ _ _ _ _ _ (proj1 Hwe) Hstep) as Hshrink.
  split; [lia|].
  apply place_step_Some in Hstep.
  destruct Hstep as [fs [fe [alloc [Hfree [_ [Hpos [Hspan [_ [Hbs Hr]]]]]]]]].
  destruct (commit_spec max_break adaptive_breaks tired min_gap_between_study window_start
              w we rem fe alloc st) as [brk [extra [Hc Hbrk]]].
  rewrite Hc in Hr. injection Hr as -> -> ->. cbn [plan_blocks].
  pose proof (subtract_intervals_within window_start we
                (busy ++ map block_interval (plan_blocks st)) (proj1 Hwe)) as Hwithin.
  rewrite Forall_forall in Hwithin. specialize (Hwithin _ Hfree). simpl in Hwithin.
  apply Forall_app. split; [exact Hall|].
  constructor.
  - intros _. exists w. simpl. repeat split; auto; lia.
  - destruct Hbrk as [->|[bstart [-> _]]]; [constructor|].
    constructor; [|constructor]. intros Hk. discriminate Hk.
Qed.

Lemma plan_task_study (fuel : nat) (w : WorkItem) (st st' : PlanState) :
  In w tasks ->
  Forall (study_of_some tasks block_size) (plan_blocks st) ->
  plan_task' fuel w st = Some st' ->
  Forall (study_of_some tasks block_size) (plan_blocks st').
Proof.
  intros Hw Hall. unfold plan_task.
  destruct (Z.leb_spec (Z.min (day_end self) (due_min w)) window_start) as [Hwin|Hwin].
  - intros H. injection H as <-. exact Hall.
  - destruct (place_loop' fuel w _ _ st) as [[rem st1]|] eqn:Hloop; [|discriminate].
    destruct (place_loop_invariant block_size max_break adaptive_breaks tired
                min_gap_between_study busy window_start w
                (fun we _ s => window_start <= we <= due_min w /\
                               Forall (study_of_some tasks block_size) (plan_blocks s)))
      with (fuel := fuel) (we := Z.min (day_end self) (due_min w))
           (rem := minutes_needed w) (st := st) (rem' := rem) (st' := st1)
      as [we' [[_ HP] _]].
    + intros we0 rem0 st0 we1 rem1 st2 [Hw0 Hi0] _ Hstep.
      eapply place_step_study; eauto.
    + cbv beta. split; [lia|exact Hall].
    + exact Hloop.
    + destruct (rem >? 0); intros H; injection H as <-; exact HP.
Qed.

Lemma plan_tasks_study (fuel : nat) (pending : list WorkItem) (st st' : PlanState) :
  (forall w, In w pending -> In w tasks) ->
  Forall (study_of_some tasks block_size) (plan_blocks st) ->
  plan_tasks' fuel pending st = Some st' ->
  Forall (study_of_some tasks block_size) (plan_blocks st').
Proof.
  revert st. induction pending as [|w rest IH]; intros st Hsub Hall; simpl.
  - intros H. injection H as <-. exact Hall.
  - destruct (plan_task' fuel w st) as [st1|] eqn:Ht; [|discriminate].
    apply IH; [intros v Hv; apply Hsub; now right|].
    eapply plan_task_study; eauto. apply Hsub. now left.
Qed.
End StudyFacts.

Lemma lecture_busy_labels (self : ScheduleEngine) (buffer : Z) (lectures : list Lecture) :
  Forall (fun i => exists lec, In lec lectures /\ ilabel i = "Lecture: " +++ lec_course lec)
         (merge_intervals (lecture_busy self buffer lectures)).
Proof.
  apply merge_intervals_Forall.
  - unfold ilabel. simpl. auto.
  - unfold lecture_busy. rewrite Forall_forall. intros i Hi.
    apply in_flat_map in Hi. destruct Hi as [lec [Hlec Hi]].
    destruct (_ >? _); [|destruct Hi].
    destruct Hi as [<-|[]]. exists lec. split; [exact Hlec|reflexivity].
Qed.

Lemma lecture_busy_minutes (self : ScheduleEngine) (buffer : Z) (lectures : list Lecture)
  (x : Z) :
  icovered (merge_intervals (lecture_busy self buffer lectures)) x <->
  exists lec, In lec lectures /\ lecture_window self buffer lec x.
Proof.
  rewrite merge_intervals_minutes. unfold icovered, lecture_busy, lecture_window. split.
  - intros [s [e [lb [Hin Hx]]]]. apply in_flat_map in Hin.
    destruct Hin as [lec [Hlec Hi]]. exists lec. split; [exact Hlec|].
    destruct (_ >? _); [|destruct Hi]. destruct Hi as [Hi|[]].
    injection Hi as <- <- _. exact Hx.
  - intros [lec [Hlec Hx]].
    exists (Z.max (day_start self) (lec_start_min lec - buffer)),
           (Z.min (day_end self) (lec_end_min lec + buffer)),
           ("Lecture: " +++ lec_course lec).
    split; [|exact Hx]. apply in_flat_map. exists lec. split; [exact Hlec|].
    destruct (Z.gtb_spec (Z.min (day_end self) (lec_end_min lec + buffer))
                         (Z.max (day_start self) (lec_start_min lec - buffer)));
      [now left|lia].
Qed.

Lemma lecture_course_of_label (c : string) (s e : Z) :
  course (lecture_block (s, e, "Lecture: " +++ c)) = c.
Proof. destruct c; reflexivity. Qed.

Lemma fixed_items_all (busy : list Interval) (st : PlanState) :
  Forall (fun i => startswith (ilabel i) "Lecture" = true) busy ->
  plan_blocks (fixed_items busy st)
  = plan_blocks st ++ map lecture_block (py_sorted interval_leb busy).
Proof.
  intros Hall. unfold fixed_items.
  assert (Hs : Forall (fun i => startswith (ilabel i) "Lecture" = true)
                      (py_sorted interval_leb busy)).
  { rewrite Forall_forall in *. intros i Hi. apply Hall. now apply py_sorted_In in Hi. }
  revert st. induction Hs as [|[[s e] lb] l Hi Hl IH]; intros st; cbn [fold_left map].
  - now rewrite app_nil_r.
  - unfold ilabel in Hi. simpl in Hi. rewrite Hi, IH. cbn [plan_blocks].
    now rewrite <- app_assoc.
Qed.

(** The blocks of a call: the placed Study and Break blocks, then the
    Lecture blocks of the merged busy intervals, in their order. *)
Lemma plan_shape (fuel : nat) (self : ScheduleEngine) (lectures : list Lecture)
  (work : list WorkItem) (block_size max_break : Z) (adaptive_breaks : bool)
  (tired lecture_buffer_min min_gap_between_study : Z) blocks text :
  plan fuel self lectures work block_size max_break adaptive_breaks tired
       lecture_buffer_min min_gap_between_study = Some (blocks, text) ->
  exists placed,
    blocks = placed ++ map lecture_block
                         (merge_intervals (lecture_busy self lecture_buffer_min lectures)) /\
    blocks_invariant (merge_intervals (lecture_busy self lecture_buffer_min lectures))
                     (start_bound_of self) (day_end self) placed /\
    Forall (study_of_some (pending_of work) block_size) placed.
Proof.
  unfold plan. set (busy := merge_intervals _).
  destruct (plan_tasks _ _ _ _ _ _ _ _ _ _ _) as [st|] eqn:Hst; [|discriminate].
  intros H. injection H as <- _.
  rewrite fixed_items_all.
  2:{ pose proof (lecture_busy_labels self lecture_buffer_min lectures) as Hl.
      fold busy in Hl. eapply Forall_impl; [|exact Hl].
      intros i [lec [_ ->]]. reflexivity. }
  cbn [plan_blocks].
  assert (Hinc : StronglySorted (fun a b => istart a < istart b) busy).
  { apply merge_intervals_increasing.
    unfold lecture_busy. rewrite Forall_forall. intros i Hi.
    apply in_flat_map in Hi. destruct Hi as [lec [_ Hi]].
    destruct (Z.gtb_spec (Z.min (day_end self) (lec_end_min lec + lecture_buffer_min))
                         (Z.max (day_start self) (lec_start_min lec - lecture_buffer_min)));
      [|destruct Hi].
    destruct Hi as [<-|[]]. unfold istart, iend. simpl. lia. }
  rewrite (py_sorted_of_increasing _ Hinc).
  exists (plan_blocks st). split; [reflexivity|]. split.
  - eapply plan_tasks_keeps; [|exact Hst]. repeat split; constructor.
  - eapply plan_tasks_study; [| |exact Hst]; [auto|constructor].
Qed.

(** X10. Every Study block [plan] returns is the block of an unprepared
    task of the call: it carries the task's label and course, ends at or
    before the task's due minute, and is at most [block_size] long. *)
Theorem study_blocks_meet_deadlines (fuel : nat) (self : ScheduleEngine)
  (lectures : list Lecture) (work : list WorkItem) (block_size max_break : Z)
  (adaptive_breaks : bool) (tired lecture_buffer_min min_gap_between_study : Z) blocks text :
  plan fuel self lectures work block_size max_break adaptive_breaks tired
       lecture_buffer_min min_gap_between_study = Some (blocks, text) ->
  forall b, In b blocks -> kind b = "study"%string ->
  exists w, In w work /\ prepared w = false /\
            label b = study_label w /\ course b = w_course w /\
            end_min b <= due_min w /\ 0 < end_min b - start_min b <= block_size.
Proof.
  intros Hplan b Hb Hk.
  destruct (plan_shape _ _ _ _ _ _ _ _ _ _ _ _ Hplan) as [placed [-> [_ Hstudy]]].
  apply in_app_or in Hb. destruct Hb as [Hb|Hb].
  - rewrite Forall_forall in Hstudy.
    destruct (Hstudy b Hb Hk) as [w [Hw Hrest]].
    exists w. unfold pending_of in Hw. apply py_sorted_In in Hw.
    apply filter_In in Hw. destruct Hw as [Hw Hp]. apply negb_true_iff in Hp. tauto.
  - apply in_map_iff in Hb. destruct Hb as [[[s e] lb] [<- _]]. discriminate Hk.
Qed.

Lemma study_blocks_meet_deadlines_witness :
  exists w, In w [mkWorkItem "Math" "HW1" "2024-01-01" 900 90 false false] /\ prepared w = false /\
            label (study_block (mkWorkItem "Math" "HW1" "2024-01-01" 900 90 false false) 510 570)
            = study_label w /\
            course (study_block (mkWorkItem "Math" "HW1" "2024-01-01" 900 90 false false) 510 570)
            = w_course w /\
            570 <= due_min w /\ 0 < 570 - 510 <= 60.
Proof.
  refine (study_blocks_meet_deadlines 2000 (mkEngine 480 1320 None) [mkLecture "Bio" 600 660]
            [mkWorkItem "Math" "HW1" "2024-01-01" 900 90 false false] 60 60 true 5 30 10
            _ _ _
            (study_block (mkWorkItem "Math" "HW1" "2024-01-01" 900 90 false false) 510 570)
            _ eq_refl).
  - vm_compute. reflexivity.
  - simpl. left. reflexivity.
Defined.

(** X11. Study blocks keep clear of the lectures: no Study block [plan]
    returns contains a minute of a lecture or of its buffer. *)
Theorem study_blocks_avoid_lectures (fuel : nat) (self : ScheduleEngine)
  (lectures : list Lecture) (work : list WorkItem) (block_size max_break : Z)
  (adaptive_breaks : bool) (tired lecture_buffer_min min_gap_between_study : Z) blocks text :
  plan fuel self lectures work block_size max_break adaptive_breaks tired
       lecture_buffer_min min_gap_between_study = Some (blocks, text) ->
  forall b lec x,
    In b blocks -> kind b = "study"%string -> In lec lectures ->
    lecture_window self lecture_buffer_min lec x ->
    ~ start_min b <= x < end_min b.
Proof.
  intros Hplan b lec x Hb Hk Hlec Hx.
  destruct (plan_shape _ _ _ _ _ _ _ _ _ _ _ _ Hplan) as [placed [-> [Hinv _]]].
  destruct Hinv as [_ [_ [Hclear _]]].
  apply in_app_or in Hb. destruct Hb as [Hb|Hb].
  - rewrite Forall_forall in Hclear. specialize (Hclear b Hb Hk).
    assert (Hc : icovered (merge_intervals (lecture_busy self lecture_buffer_min lectures)) x).
    { apply lecture_busy_minutes. eauto. }
    destruct Hc as [s [e [lb [Hi Hse]]]]. exact (Hclear s e lb Hi x Hse).
  - apply in_map_iff in Hb. destruct Hb as [[[s e] lb] [<- _]]. discriminate Hk.
Qed.

Lemma study_blocks_avoid_lectures_witness :
  ~ start_min (study_block (mkWorkItem "Math" "HW1" "2024-01-01" 900 90 false false) 510 570)
    <= 575
    < end_min (study_block (mkWorkItem "Math" "HW1" "2024-01-01" 900 90 false false) 510 570).
Proof.
  refine (study_blocks_avoid_lectures 2000 (mkEngine 480 1320 None) [mkLecture "Bio" 600 660]
            [mkWorkItem "Math" "HW1" "2024-01-01" 900 90 false false] 60 60 true 5 30 10
            _ _ _
            (study_block (mkWorkItem "Math" "HW1" "2024-01-01" 900 90 false false) 510 570)
            (mkLecture "Bio" 600 660) 575 _ eq_refl _ _).
  - vm_compute. reflexivity.
  - simpl. left. reflexivity.
  - simpl. left. reflexivity.
  - unfold lecture_window. simpl. lia.
Defined.

(** X12. The Lecture blocks [plan] returns come last and are the merged
    busy intervals in ascending order: they are strictly separated, every
    minute of a lecture or its buffer lies in one of them, and each has the
    label and course of one of the lectures. *)
Theorem lecture_blocks_of_plan (fuel : nat) (self : ScheduleEngine)
  (lectures : list Lecture) (work : list WorkItem) (block_size max_break : Z)
  (adaptive_breaks : bool) (tired lecture_buffer_min min_gap_between_study : Z) blocks text :
  plan fuel self lectures work block_size max_break adaptive_breaks tired
       lecture_buffer_min min_gap_between_study = Some (blocks, text) ->
  exists placed lec_blocks,
    blocks = placed ++ lec_blocks /\
    Forall (fun b => kind b = "study"%string \/ kind b = "break"%string) placed /\
    Forall (fun b => kind b = "lecture"%string /\
                     exists lec, In lec lectures /\
                                 label b = "Lecture: " +++ lec_course lec /\
                                 course b = lec_course lec) lec_blocks /\
    StronglySorted (fun a b => end_min a < start_min b) lec_blocks /\
    (forall lec x, In lec lectures -> lecture_window self lecture_buffer_min lec x ->
                   exists b, In b lec_blocks /\ start_min b <= x < end_min b).
Proof.
  intros Hplan.
  destruct (plan_shape _ _ _ _ _ _ _ _ _ _ _ _ Hplan) as [placed [-> [Hinv _]]].
  set (busy := merge_intervals (lecture_busy self lecture_buffer_min lectures)).
  exists placed, (map lecture_block busy).
  split; [reflexivity|]. split; [apply Hinv|]. split; [|split].
  - pose proof (lecture_busy_labels self lecture_buffer_min lectures) as Hl.
    fold busy in Hl. rewrite Forall_forall in *. intros b Hb.
    apply in_map_iff in Hb. destruct Hb as [[[s e] lb] [<- Hi]].
    split; [reflexivity|]. destruct (Hl _ Hi) as [lec [Hlec Hlab]].
    unfold ilabel in Hlab. simpl in Hlab. subst lb.
    exists lec. split; [exact Hlec|]. split; [reflexivity|apply lecture_course_of_label].
  - pose proof (merge_intervals_gaps (lecture_busy self lecture_buffer_min lectures)) as Hs.
    fold busy in Hs. induction Hs as [|[[s e] lb] l Hl IH Ha]; simpl; constructor; [exact IH|].
    rewrite Forall_forall in *. intros b Hb.
    apply in_map_iff in Hb. destruct Hb as [[[s' e'] lb'] [<- Hi]].
    exact (Ha _ Hi).
  - intros lec x Hlec Hx.
    assert (Hc : icovered busy x) by (apply lecture_busy_minutes; eauto).
    destruct Hc as [s [e [lb [Hi Hse]]]].
    exists (lecture_block (s, e, lb)). split; [|exact Hse].
    apply in_map_iff. exists (s, e, lb). auto.
Qed.

Lemma lecture_blocks_of_plan_witness :
  exists placed lec_blocks,
    [mkPlanBlock 570 690 "Lecture: Bio" "lecture" "Bio" false] = placed ++ lec_blocks /\
    StronglySorted (fun a b => end_min a < start_min b) lec_blocks.
Proof.
  destruct (lecture_blocks_of_plan 2000 (mkEngine 480 1320 None) [mkLecture "Bio" 600 660]
              [] 60 60 true 5 30 10
              [mkPlanBlock 570 690 "Lecture: Bio" "lecture" "Bio" false]
              (nl +++ "— Today’s Fixed Items —" +++ nl +++ "9:30 AM - 11:30 AM  Lecture: Bio")
              ltac:(vm_compute; reflexivity))
    as [placed [lec [Heq [_ [_ [Hs _]]]]]].
  exists placed, lec. split; [exact Heq|exact Hs].
Defined.

(** X13. A task never gets more Study minutes than it needs: the blocks
    a task adds hold between 0 and [minutes_needed] Study minutes, and a
    task that needs nothing adds no block. *)
Theorem task_never_overallocated
  (self : ScheduleEngine) (block_size max_break : Z) (adaptive_breaks : bool)
  (tired min_gap : Z) (busy : list Interval) (window_start : Z)
  (fuel : nat) (w : WorkItem) (st st' : PlanState) :
  plan_task self block_size max_break adaptive_breaks tired min_gap busy window_start
            fuel w st = Some st' ->
  0 <= minutes_needed w ->
  exists newb,
    plan_blocks st' = plan_blocks st ++ newb /\
    0 <= study_minutes newb <= minutes_needed w /\
    (minutes_needed w = 0 -> newb = []).
Proof.
  unfold plan_task. intros Hplan Hneed.
  destruct (_ <=? _).
  - injection Hplan as <-. exists []. cbn [plan_blocks]. rewrite app_nil_r. simpl.
    repeat split; auto; lia.
  - destruct (place_loop _ _ _ _ _ _ _ _ _ _ _ _) as [[rem st1]|] eqn:Hloop; [|discriminate].
    assert (Hblocks : plan_blocks st' = plan_blocks st1).
    { destruct (rem >? 0); injection Hplan as <-; reflexivity. }
    pose proof Hloop as Hloop'.
    apply place_loop_appends in Hloop.
    destruct Hloop as [nb [nl [Hb [_ [Hm [_ [Hle Hnn]]]]]]].
    exists nb. rewrite Hblocks. split; [exact Hb|]. split; [specialize (Hnn Hneed); lia|].
    intros H0. rewrite H0 in Hloop'. destruct fuel as [|fuel]; [discriminate|].
    simpl in Hloop'. injection Hloop' as _ <-.
    apply (f_equal (@List.length PlanBlock)) in Hb. rewrite length_app in Hb.
    destruct nb; [reflexivity|simpl in Hb; lia].
Qed.

Lemma task_never_overallocated_witness :
  exists newb,
    [study_block (mkWorkItem "Phys" "Lab" "2024-01-01" 540 120 false false) 480 540]
    = [] ++ newb /\ 0 <= study_minutes newb <= 120.
Proof.
  destruct (task_never_overallocated (mkEngine 480 1320 None) 60 60 true 5 10 [] 480 2000
              (mkWorkItem "Phys" "Lab" "2024-01-01" 540 120 false false) (mkState [] [])
              (mkState [study_block (mkWorkItem "Phys" "Lab" "2024-01-01" 540 120 false false)
                          480 540]
                 [("8:00 AM - 9:00 AM  Study: Phys — Lab")%string;
                  ("⚠ Not enough time before 9:00 AM for Phys — Lab: 60 min left")%string])
              ltac:(vm_compute; reflexivity) ltac:(simpl; lia))
    as [nb [Hb [Hm _]]].
  exists nb. split; [exact Hb|exact Hm].
Defined.

(* ------------------------------------------------------------------ *)
(** * generate and the allocator                                       *)
(* ------------------------------------------------------------------ *)

(** X14. With a valid configuration, a maximal break below [2^1023] and
    enough loop budget, [generate] gets through [plan]: the blocks it
    keeps and persists are those [plan] returns on the engine built from
    the fields, with adaptive breaks on, a lecture buffer of 30 and a
    minimum gap of 10, and the text it shows is the text of [plan]
    followed by the Inspiration lines.  An exception of either callback
    comes out unchanged. *)
Theorem generate_runs_plan
  (q idea : string)
  (fuel : nat) (day_start day_end block max_break tired : Z) (now_min : option Z)
  (lectures : list Lecture) (tasks_today : list WorkItem) :
  0 <= day_start < day_end -> day_end <= 24 * 60 -> 0 < block ->
  0 <= max_break < 2 ^ 1023 ->
  (enough_fuel (mkEngine day_start day_end now_min) <= fuel)%nat ->
  (exists blocks text,
      plan fuel (mkEngine day_start day_end now_min) lectures tasks_today
           block max_break true tired 30 10 = Some (blocks, text) /\
      generate fuel day_start day_end block max_break tired now_min
               (Ok lectures) (Ok tasks_today) = Ok (blocks, text) /\
      generate_shown q idea fuel day_start day_end block max_break tired now_min
               (Ok lectures) (Ok tasks_today)
      = Ok (blocks, text +++ nl +++ nl +++ "— Inspiration —" +++ nl +++ "“" +++ q +++ "”"
                    +++ nl +++ "Try: " +++ idea)) /\
  (forall e tasks,
      generate_shown q idea fuel day_start day_end block max_break tired now_min
                     (Raise e) tasks = Raise e) /\
  (forall e,
      generate_shown q idea fuel day_start day_end block max_break tired now_min
                     (Ok lectures) (Raise e) = Raise e).
Proof.
  intros Hday Hend Hblock Hbreak Hfuel.
  assert (Hgen : forall lec tasks,
            generate fuel day_start day_end block max_break tired now_min lec tasks
            = match lec with
              | Raise e => Raise e
              | Diverged => Diverged
              | Ok lectures =>
                  match tasks with
                  | Raise e => Raise e
                  | Diverged => Diverged
                  | Ok tasks_today =>
                      match plan fuel (mkEngine day_start day_end now_min) lectures
                                  tasks_today block max_break true tired 30 10 with
                      | Some r => Ok r
                      | None => Diverged
                      end
                  end
              end).
  { intros lec tasks. unfold generate, ScheduleEngine_init.
    destruct (Z.leb_spec 0 day_start), (Z.ltb_spec day_start day_end),
             (Z.leb_spec day_end (24 * 60)); try lia.
    destruct (Z.leb_spec block 0), (Z.ltb_spec max_break 0); try lia.
    destruct (Z.geb_spec day_start day_end); [lia|]. reflexivity. }
  split; [|split].
  - destruct (plan_halts_with fuel (mkEngine day_start day_end now_min) lectures tasks_today
                block max_break true tired 30 10 Hfuel) as [[blocks text] [Hr _]].
    exists blocks, text. split; [exact Hr|].
    unfold generate_shown. rewrite Hgen, Hr. split; reflexivity.
  - intros e tasks. unfold generate_shown. now rewrite Hgen.
  - intros e. unfold generate_shown. now rewrite Hgen.
Qed.

Lemma generate_runs_plan_witness :
  exists blocks text,
    generate_shown "Done is better than perfect." "Drink a glass of water."
      2000 480 1320 60 60 5 None (Ok [mkLecture "Bio" 600 660])
      (Ok [mkWorkItem "Math" "HW1" "2024-01-01" 900 90 false false])
    = Ok (blocks, text +++ nl +++ nl +++ "— Inspiration —" +++ nl
                  +++ "“" +++ "Done is better than perfect." +++ "”"
                  +++ nl +++ "Try: " +++ "Drink a glass of water.").
Proof.
  destruct (proj1 (generate_runs_plan "Done is better than perfect." "Drink a glass of water."
              2000 480 1320 60 60 5 None [mkLecture "Bio" 600 660]
              [mkWorkItem "Math" "HW1" "2024-01-01" 900 90 false false]
              ltac:(lia) ltac:(lia) ltac:(lia)
              ltac:(split; [lia|vm_compute; reflexivity])
              ltac:(unfold enough_fuel, start_bound_of; simpl; lia)))
    as [blocks [text [_ [_ Hshown]]]].
  exists blocks, text. exact Hshown.
Defined.

Section AllocatorItems.
Variable strptime_date : string -> outcome Z.

Lemma previously_planned_minutes_nonneg (days : DayStore) (cur : Z) (course title : string) :
  0 <= previously_planned_minutes strptime_date days cur course title.
Proof.
  unfold previously_planned_minutes.
  assert (Hgen : forall acc, 0 <= acc ->
            0 <= fold_left (fun total (entry : string * list PlanBlock) =>
                   match strptime_date (fst entry) with
                   | Ok d =>
                       if d >=? cur then total
                       else fold_left (fun total pb =>
                              if is_study_of course title pb
                              then total + Z.max 0 (end_min pb - start_min pb)
                              else total) (snd entry) total
                   | _ => total
                   end) days acc).
  { induction days as [|entry days IH]; intros acc Hacc; simpl; [exact Hacc|].
    apply IH. destruct (strptime_date (fst entry)); try exact Hacc.
    destruct (_ >=? _); [exact Hacc|].
    revert acc Hacc. induction (snd entry) as [|pb l IHl]; intros acc Hacc; simpl;
      [exact Hacc|].
    apply IHl. destruct (is_study_of course title pb); lia. }
  apply Hgen. lia.
Qed.

Lemma task_for_day_item (days : DayStore) (cur : Z) (w it : WorkItem) :
  task_for_day strptime_date days cur w = Ok (Some it) ->
  prepared w = false /\ prepared it = false /\
  w_course it = w_course w /\ title it = title w /\ date_iso it = date_iso w /\
  repeat_weekly it = repeat_weekly w /\
  1 <= minutes_needed it <= minutes_needed w /\
  (due_min it = 23 * 60 + 59 \/ due_min it = due_min w).
Proof.
  unfold task_for_day.
  destruct (prepared w) eqn:Hp; [discriminate|].
  destruct (strptime_date (date_iso w)) as [due|e|]; try discriminate.
  pose proof (previously_planned_minutes_nonneg days cur (w_course w) (title w)) as Hprior.
  set (prior := previously_planned_minutes strptime_date days cur (w_course w) (title w)) in *.
  set (remaining := Z.max 0 (minutes_needed w - prior)).
  destruct (Z.eqb_spec remaining 0) as [|Hne]; [discriminate|].
  assert (Hrem : 1 <= remaining <= minutes_needed w) by (unfold remaining in *; lia).
  destruct (Z.ltb_spec (due - cur) 0) as [Hover|Hnot].
  - intros H. injection H as <-. simpl. repeat split; auto; lia.
  - destruct (Z.eqb_spec (due - cur) 0) as [Htoday|Hlater].
    + intros H. injection H as <-. simpl. repeat split; auto; lia.
    + set (parts := if due - cur =? 1 then 2 else due - cur).
      assert (Hparts : 1 <= parts) by (unfold parts; destruct (Z.eqb_spec (due - cur) 1); lia).
      intros H. injection H as <-. simpl. repeat split; auto; try lia.
      apply Z.max_lub; [lia|].
      apply Z.div_le_upper_bound; [lia|]. nia.
Qed.

Lemma task_for_day_prepared (days : DayStore) (cur : Z) (w : WorkItem) :
  prepared w = true -> task_for_day strptime_date days cur w = Ok None.
Proof. intros Hp. unfold task_for_day. now rewrite Hp. Qed.

Lemma task_for_day_dated (days : DayStore) (cur : Z) (w : WorkItem) (d : Z) :
  prepared w = false -> strptime_date (date_iso w) = Ok d ->
  exists o, task_for_day strptime_date days cur w = Ok o.
Proof.
  intros Hp Hd. unfold task_for_day. rewrite Hp, Hd.
  destruct (_ =? 0); [eauto|].
  destruct (_ <? 0); [eauto|]. destruct (_ =? 0); eauto.
Qed.

Lemma tasks_loop_items (days : DayStore) (cur : Z) (week items : list WorkItem) :
  tasks_loop strptime_date days cur week = Ok items ->
  Forall (fun it => exists w, In w week /\
                              task_for_day strptime_date days cur w = Ok (Some it)) items /\
  (List.length items <= List.length week)%nat.
Proof.
  revert items. induction week as [|w rest IH]; intros items; simpl.
  - intros H. injection H as <-. split; [apply Forall_nil|simpl; lia].
  - destruct (task_for_day strptime_date days cur w) as [item|e|] eqn:Ht; try discriminate.
    destruct (tasks_loop strptime_date days cur rest) as [its|e|]; try discriminate.
    intros H. injection H as <-.
    destruct (IH its eq_refl) as [Hall Hlen].
    assert (Hall' : Forall (fun it => exists v, In v (w :: rest) /\
                        task_for_day strptime_date days cur v = Ok (Some it)) its).
    { eapply Forall_impl; [|exact Hall]. intros it [v [Hv Hit]]. exists v. split; [now right|auto]. }
    destruct item as [i|]; simpl.
    + split; [|lia]. constructor; [|exact Hall']. exists w. split; [now left|exact Ht].
    + split; [exact Hall'|lia].
Qed.
End AllocatorItems.

(** X15. What [_get_tasks_for_day] returns is, in the order of the work
    items, what the loop body gives for each of them: nothing or one
    item, so no work item yields more than one.  Every item is the day's
    view of an unprepared work item: same course, title, due date and
    repeat flag, not prepared, due at 23:59 or at the item's own due
    minute, and asking for at least 1 minute and at most the item's
    [minutes_needed]. *)
Theorem tasks_for_day_items
  (strptime_date : string -> outcome Z) (days : DayStore) (week : list WorkItem)
  (date : string) (items : list WorkItem) :
  _get_tasks_for_day strptime_date days week date = Ok items ->
  exists cur produced,
    strptime_date date = Ok cur /\
    Forall2 (fun w r =>
      task_for_day strptime_date days cur w = Ok r /\
      forall it, r = Some it ->
        prepared w = false /\ prepared it = false /\
        w_course it = w_course w /\ title it = title w /\ date_iso it = date_iso w /\
        repeat_weekly it = repeat_weekly w /\
        1 <= minutes_needed it <= minutes_needed w /\
        (due_min it = 23 * 60 + 59 \/ due_min it = due_min w)) week produced /\
    items = flat_map item_list produced.
Proof.
  unfold _get_tasks_for_day.
  destruct (strptime_date date) as [cur|e|]; try discriminate.
  intros Hloop. exists cur.
  revert items Hloop. induction week as [|w rest IH]; intros items; cbn [tasks_loop].
  - intros H. injection H as <-. exists []. repeat split. constructor.
  - destruct (task_for_day strptime_date days cur w) as [item|e|] eqn:Ht; try discriminate.
    destruct (tasks_loop strptime_date days cur rest) as [its|e|]; try discriminate.
    intros H. injection H as <-.
    destruct (IH its eq_refl) as [ps [_ [Hf Hits]]].
    exists (item :: ps). split; [reflexivity|]. split.
    + constructor; [|exact Hf]. split; [exact Ht|].
      intros it ->. now apply task_for_day_item in Ht.
    + rewrite Hits. destruct item; reflexivity.
Qed.

Lemma tasks_for_day_items_witness :
  exists cur produced,
    (if String.eqb "2024-01-10" "2024-01-13" then Ok 13
     else if String.eqb "2024-01-10" "2024-01-10" then Ok 10
     else Raise (ValueError "unconverted data")) = Ok cur /\
    List.length produced = 2%nat /\
    [mkWorkItem "Math" "HW1" "2024-01-13" (23 * 60 + 59) 34 false false]
    = flat_map item_list produced.
Proof.
  destruct (tasks_for_day_items
    (fun s => if String.eqb s "2024-01-13" then Ok 13
              else if String.eqb s "2024-01-10" then Ok 10
              else Raise (ValueError "unconverted data"))
    []
    [mkWorkItem "Math" "HW1" "2024-01-13" 900 100 false false;
     mkWorkItem "Phys" "Lab" "2024-01-13" 900 100 true false]
    "2024-01-10"
    [mkWorkItem "Math" "HW1" "2024-01-13" (23 * 60 + 59) 34 false false]
    eq_refl) as [cur [produced [Hcur [Hf Hitems]]]].
  exists cur, produced. split; [exact Hcur|]. split; [|exact Hitems].
  symmetry. exact (Forall2_length Hf).
Defined.

(** X16. [_get_tasks_for_day] raises as soon as the day itself or the due
    date of an unprepared item is not a date; the due dates of prepared
    items are never read, and when all the dates read are dates the call
    returns. *)
Theorem tasks_for_day_dates
  (strptime_date : string -> outcome Z) (days : DayStore) (week : list WorkItem)
  (date : string) :
  (forall s, strptime_date s <> Diverged) ->
  (forall e, strptime_date date = Raise e ->
             _get_tasks_for_day strptime_date days week date = Raise e) /\
  (forall cur, strptime_date date = Ok cur ->
     ((forall w, In w week -> prepared w = false ->
                 exists d, strptime_date (date_iso w) = Ok d) <->
      exists items, _get_tasks_for_day strptime_date days week date = Ok items)).
Proof.
  intros Hnd. split.
  - intros e He. unfold _get_tasks_for_day. now rewrite He.
  - intros cur Hcur. unfold _get_tasks_for_day. rewrite Hcur.
    induction week as [|w rest IH]; simpl.
    + split; [eauto|]. intros _ w [].
    + split.
      * intros Hall.
        destruct (proj1 IH) as [items Hi]; [intros v Hv; apply Hall; now right|].
        rewrite Hi.
        destruct (prepared w) eqn:Hp.
        -- rewrite (task_for_day_prepared strptime_date days cur w Hp). eauto.
        -- destruct (Hall w (or_introl eq_refl) Hp) as [d Hd].
           destruct (task_for_day_dated strptime_date days cur w d Hp Hd) as [o ->]. eauto.
      * intros [items Hi].
        destruct (task_for_day strptime_date days cur w) as [o|e|] eqn:Ht; try discriminate.
        destruct (tasks_loop strptime_date days cur rest) as [its|e|] eqn:Hl;
          try discriminate.
        intros v [<-|Hv] Hpv; [|apply (proj2 IH); eauto].
        destruct (strptime_date (date_iso w)) as [d|e|] eqn:Hd; [eauto| |].
        -- unfold task_for_day in Ht. rewrite Hpv, Hd in Ht. discriminate.
        -- exfalso. exact (Hnd _ Hd).
Qed.

Lemma tasks_for_day_dates_witness :
  _get_tasks_for_day
    (fun s => if String.eqb s "2024-01-10" then Ok 10 else Raise (ValueError "not a date"))
    [] [mkWorkItem "Math" "HW1" "soon" 900 100 true false] "tomorrow"
  = Raise (ValueError "not a date").
Proof.
  apply (proj1 (tasks_for_day_dates
    (fun s => if String.eqb s "2024-01-10" then Ok 10 else Raise (ValueError "not a date"))
    [] [mkWorkItem "Math" "HW1" "soon" 900 100 true false] "tomorrow"
    ltac:(intros s; cbv beta; destruct (String.eqb s _); discriminate))).
  reflexivity.
Defined.

(* ------------------------------------------------------------------ *)
(** * The time codec                                                    *)
(* ------------------------------------------------------------------ *)

Lemma parses_to_spec (s : string) (m : Z) :
  parses_to s m = true -> parse_time_to_min s = Ok m.
Proof.
  unfold parses_to. destruct (parse_time_to_min s); try discriminate.
  intros H. apply Z.eqb_eq in H. now subst.
Qed.

Lemma parse_fmt_in_day (m : Z) :
  0 <= m < 24 * 60 -> parse_time_to_min (fmt_min_to_time m) = Ok m.
Proof.
  intros Hm. apply parses_to_spec.
  assert (Hall : forallb (fun v => parses_to (fmt_min_to_time v) v) (zrange 0 1440) = true)
    by (vm_compute; reflexivity).
  rewrite forallb_forall in Hall. apply Hall. apply zrange_In. lia.
Qed.

Lemma fmt_min_to_time_mod (mn : Z) :
  fmt_min_to_time mn = fmt_min_to_time (mn mod (24 * 60)).
Proof. unfold fmt_min_to_time. now rewrite Z.mod_mod by lia. Qed.

Lemma parse_range (s : string) (m : Z) :
  parse_time_to_min s = Ok m -> 0 <= m < 24 * 60.
Proof.
  unfold parse_time_to_min.
  destruct (String.eqb s ""); [discriminate|].
  destruct (String.eqb (lower (strip s)) "noon"); [intros Hres; injection Hres as <-; lia|].
  destruct (String.eqb (lower (strip s)) "midnight"); [intros Hres; injection Hres as <-; lia|].
  destruct (match_time _) as [[[hh mm] ap]|]; [|discriminate].
  destruct ap.
  - destruct (Z.leb_spec 0 hh), (Z.leb_spec hh 23), (Z.leb_spec 0 mm), (Z.leb_spec mm 59);
      simpl; try discriminate.
    intros Hres. injection Hres as <-. lia.
  - destruct (Z.leb_spec 1 hh), (Z.leb_spec hh 12), (Z.leb_spec 0 mm), (Z.leb_spec mm 59);
      simpl; try discriminate.
    intros Hres. injection Hres as <-. destruct (Z.eqb_spec hh 12); lia.
  - destruct (Z.leb_spec 1 hh), (Z.leb_spec hh 12), (Z.leb_spec 0 mm), (Z.leb_spec mm 59);
      simpl; try discriminate.
    intros Hres. injection Hres as <-. destruct (Z.eqb_spec hh 12); lia.
Qed.

(** X17. Reading back a formatted time gives the minute of the day:
    [parse_time_to_min (fmt_min_to_time mn)] is [mn mod 1440] for every
    integer [mn]; and the 24-hour text [H:MM] of an hour [0..23] and a
    minute [0..59] is read as [60 * H + MM]. *)
Theorem time_round_trip :
  (forall mn, parse_time_to_min (fmt_min_to_time mn) = Ok (mn mod (24 * 60))) /\
  (forall h m, 0 <= h <= 23 -> 0 <= m <= 59 ->
     parse_time_to_min (str_of_Z h +++ ":" +++ pad2 m) = Ok (h * 60 + m)).
Proof.
  split.
  - intros mn. rewrite fmt_min_to_time_mod. apply parse_fmt_in_day.
    apply Z.mod_pos_bound. lia.
  - intros h m Hh Hm. apply parses_to_spec.
    assert (Hall : forallb (fun v =>
              parses_to (str_of_Z (v / 60) +++ ":" +++ pad2 (v mod 60)) v)
              (zrange 0 1440) = true) by (vm_compute; reflexivity).
    rewrite forallb_forall in Hall.
    specialize (Hall (h * 60 + m) (zrange_In 0 1440 (h * 60 + m) ltac:(lia))).
    replace ((h * 60 + m) / 60) with h in Hall
      by (apply Z.div_unique with m; lia).
    replace ((h * 60 + m) mod 60) with m in Hall
      by (apply Z.mod_unique with h; lia).
    exact Hall.
Qed.

Lemma time_round_trip_witness :
  parse_time_to_min (str_of_Z 20 +++ ":" +++ pad2 5) = Ok (20 * 60 + 5).
Proof. apply (proj2 time_round_trip); lia. Defined.

(** X18. On ASCII text, a time [parse_time_to_min] returns is a minute
    of the day, from 0 to 1439. *)
Theorem parse_time_in_day (s : string) (m : Z) :
  is_ascii s = true -> parse_time_to_min s = Ok m -> 0 <= m < 24 * 60.
Proof. intros _. apply parse_range. Qed.

Lemma parse_time_in_day_witness : 0 <= 1320 < 24 * 60.
Proof.
  apply (parse_time_in_day "10:00 pm" 1320); [reflexivity|vm_compute; reflexivity].
Defined.

(* ------------------------------------------------------------------ *)
(** * LecturesPanel                                                     *)
(* ------------------------------------------------------------------ *)

Lemma export_snoc (rows : list LectureRow) (lecs : list Lecture) (c : string) (a b : Z) :
  LecturesPanel_export rows = Ok lecs ->
  0 <= a < 24 * 60 -> 0 <= b < 24 * 60 ->
  LecturesPanel_export (rows ++ [(c, fmt_min_to_time a, fmt_min_to_time b)])
  = Ok (lecs ++ [mkLecture c a b]).
Proof.
  intros Hexp Ha Hb. revert lecs Hexp.
  induction rows as [|[[rc rs] re] rows IH]; intros lecs; simpl.
  - intros H. injection H as <-.
    rewrite (parse_fmt_in_day a Ha), (parse_fmt_in_day b Hb). reflexivity.
  - destruct (parse_time_to_min rs); try discriminate.
    destruct (parse_time_to_min re); try discriminate.
    destruct (LecturesPanel_export rows) as [out|e|]; try discriminate.
    intros H. injection H as <-. rewrite (IH out eq_refl). reflexivity.
Qed.

Lemma overlap_check_apart (rows : list LectureRow) (lecs : list Lecture) (start end_ : Z) :
  LecturesPanel_export rows = Ok lecs ->
  overlap_check rows start end_ = Ok tt ->
  Forall (fun lec => end_ <= lec_start_min lec \/ lec_end_min lec <= start) lecs.
Proof.
  revert lecs. induction rows as [|[[rc rs] re] rows IH]; intros lecs; simpl.
  - intros Hres _. injection Hres as <-. constructor.
  - destruct (parse_time_to_min rs) as [s0|e|]; try discriminate.
    destruct (parse_time_to_min re) as [e0|e|]; try discriminate.
    destruct (LecturesPanel_export rows) as [out|e|]; try discriminate.
    intros Hres. injection Hres as <-.
    destruct (Z.leb_spec end_ s0), (Z.geb_spec start e0); simpl; try discriminate;
      intros Hrest; (constructor; [simpl; lia|now apply IH]).
Qed.

(** X19. A lecture the panel accepts keeps the lectures of the panel
    valid: when the rows read back as lectures inside the day that do not
    overlap each other, so do the rows after [add], which are the old rows
    followed by the new lecture with a course that is not empty. *)
Theorem lectures_panel_add_keeps
  (rows rows' : list LectureRow) (lecs : list Lecture) (course_e start_e end_e : string) :
  is_ascii course_e = true -> is_ascii start_e = true -> is_ascii end_e = true ->
  LecturesPanel_export rows = Ok lecs ->
  Forall lecture_in_day lecs ->
  ForallOrdPairs lectures_apart lecs ->
  LecturesPanel_add rows course_e start_e end_e = Ok rows' ->
  exists start end_,
    strip course_e <> EmptyString /\
    parse_time_to_min (strip start_e) = Ok start /\
    parse_time_to_min (strip end_e) = Ok end_ /\
    rows' = rows ++ [(strip course_e, fmt_min_to_time start, fmt_min_to_time end_)] /\
    LecturesPanel_export rows' = Ok (lecs ++ [mkLecture (strip course_e) start end_]) /\
    Forall lecture_in_day (lecs ++ [mkLecture (strip course_e) start end_]) /\
    ForallOrdPairs lectures_apart (lecs ++ [mkLecture (strip course_e) start end_]).
Proof.
  intros _ _ _ Hexp Hday Hapart. unfold LecturesPanel_add.
  destruct (String.eqb_spec (strip course_e) "") as [|Hc]; cbn [orb]; [discriminate|].
  destruct (String.eqb (strip start_e) ""); cbn [orb]; [discriminate|].
  destruct (String.eqb (strip end_e) ""); [discriminate|].
  destruct (parse_time_to_min (strip start_e)) as [start|e|] eqn:Hs; try discriminate.
  destruct (parse_time_to_min (strip end_e)) as [end_|e|] eqn:He; try discriminate.
  destruct (Z.leb_spec end_ start) as [|Hlt]; [discriminate|].
  destruct (overlap_check rows start end_) as [[]|e|] eqn:Hchk; try discriminate.
  intros H. injection H as <-.
  pose proof (parse_range _ _ Hs) as Hsr. pose proof (parse_range _ _ He) as Her.
  pose proof (overlap_check_apart rows lecs start end_ Hexp Hchk) as Hnew.
  exists start, end_. split; [exact Hc|]. split; [reflexivity|]. split; [reflexivity|].
  split; [reflexivity|]. split; [now apply export_snoc|]. split.
  - apply Forall_app. split; [exact Hday|]. repeat constructor; simpl; lia.
  - apply ForallOrdPairs_snoc; [exact Hapart|].
    eapply Forall_impl; [|exact Hnew]. unfold lectures_apart. simpl. intros; lia.
Qed.

Lemma lectures_panel_add_keeps_witness :
  exists start end_,
    LecturesPanel_export
      ([("Bio", "10:00 AM", "11:00 AM")%string] ++ [("Chem", "1:00 PM", "2:30 PM")%string])
    = Ok ([mkLecture "Bio" 600 660] ++ [mkLecture (strip " Chem ") start end_]).
Proof.
  destruct (lectures_panel_add_keeps
              [("Bio", "10:00 AM", "11:00 AM")%string]
              ([("Bio", "10:00 AM", "11:00 AM")%string]
               ++ [("Chem", "1:00 PM", "2:30 PM")%string])
              [mkLecture "Bio" 600 660] " Chem " "13:00" " 2:30 pm"
              eq_refl eq_refl eq_refl ltac:(vm_compute; reflexivity)
              ltac:(repeat constructor; simpl; lia)
              ltac:(repeat constructor)
              ltac:(vm_compute; reflexivity))
    as [start [end_ [_ [_ [_ [_ [Hexp _]]]]]]].
  exists start, end_. exact Hexp.
Defined.

(** X20. [export] after [load] gives the lectures back with their times
    taken modulo 1440: lectures whose times are minutes of the day come
    back unchanged. *)
Theorem lectures_panel_load_export (data : list Lecture) :
  LecturesPanel_export (LecturesPanel_load data)
  = Ok (map (fun lec => mkLecture (lec_course lec) (lec_start_min lec mod (24 * 60))
                                  (lec_end_min lec mod (24 * 60))) data) /\
  (Forall (fun lec => 0 <= lec_start_min lec < 24 * 60 /\ 0 <= lec_end_min lec < 24 * 60)
          data ->
   LecturesPanel_export (LecturesPanel_load data) = Ok data).
Proof.
  assert (Hgen : LecturesPanel_export (LecturesPanel_load data)
                 = Ok (map (fun lec => mkLecture (lec_course lec)
                                         (lec_start_min lec mod (24 * 60))
                                         (lec_end_min lec mod (24 * 60))) data)).
  { unfold LecturesPanel_load.
    induction data as [|lec data IH]; [reflexivity|].
    cbn [map LecturesPanel_export].
    rewrite (fmt_min_to_time_mod (lec_start_min lec)), (fmt_min_to_time_mod (lec_end_min lec)).
    rewrite !parse_fmt_in_day by (apply Z.mod_pos_bound; lia).
    rewrite IH. reflexivity. }
  split; [exact Hgen|].
  intros Hday. rewrite Hgen. f_equal. clear Hgen.
  induction Hday as [|lec data [Hs He] Hrest IH]; [reflexivity|].
  cbn [map]. rewrite IH, !Z.mod_small by lia. destruct lec; reflexivity.
Qed.

Lemma lectures_panel_load_export_witness :
  LecturesPanel_export (LecturesPanel_load [mkLecture "Bio" 600 660; mkLecture "Chem" 780 870])
  = Ok [mkLecture "Bio" 600 660; mkLecture "Chem" 780 870].
Proof.
  apply (proj2 (lectures_panel_load_export
                  [mkLecture "Bio" 600 660; mkLecture "Chem" 780 870])).
  repeat constructor; simpl; lia.
Defined.

(* ------------------------------------------------------------------ *)
(** * Witnesses and the earliest segment                                *)
(* ------------------------------------------------------------------ *)

Lemma plan_blocks_within_witness :
  Forall (fun b =>
            ((kind b = "study"%string \/ kind b = "break"%string) /\
             block_within 500 1320 b) \/
            (kind b = "lecture"%string /\ block_within 480 1320 b))
    [study_block (mkWorkItem "Math" "HW1" "2024-01-01" 900 90 false false) 510 570;
     break_block 500 510;
     mkPlanBlock 570 690 "Lecture: Bio" "lecture" "Bio" false] /\
  Forall (block_within 480 1320)
    [study_block (mkWorkItem "Math" "HW1" "2024-01-01" 900 90 false false) 510 570;
     break_block 500 510;
     mkPlanBlock 570 690 "Lecture: Bio" "lecture" "Bio" false].
Proof.
  pose proof (plan_blocks_within 2000 (mkEngine 480 1320 (Some 500)) [mkLecture "Bio" 600 660]
                [mkWorkItem "Math" "HW1" "2024-01-01" 900 90 false false] 60 60 true 5 30 10
                [study_block (mkWorkItem "Math" "HW1" "2024-01-01" 900 90 false false) 510 570;
                 break_block 500 510;
                 mkPlanBlock 570 690 "Lecture: Bio" "lecture" "Bio" false]
                _ ltac:(vm_compute; reflexivity)) as [Hkinds Hday].
  split; [exact Hkinds|]. apply Hday. unfold start_bound_of. simpl. lia.
Defined.

Lemma study_blocks_clear_witness :
  ForallOrdPairs (fun a b => kind b = "study"%string -> ~ blocks_overlap a b)
    [study_block (mkWorkItem "Math" "HW1" "2024-01-01" 900 90 false false) 510 570;
     break_block 480 510;
     mkPlanBlock 570 690 "Lecture: Bio" "lecture" "Bio" false].
Proof.
  refine (proj1 (study_blocks_clear 2000 (mkEngine 480 1320 None) [mkLecture "Bio" 600 660]
            [mkWorkItem "Math" "HW1" "2024-01-01" 900 90 false false] 60 60 true 5 30 10
            _ _ _)).
  vm_compute. reflexivity.
Defined.

(** X21. While the window ends at or before the due minute, as it does
    throughout [plan], a pass commits to the earliest free segment of
    positive length and puts the Study block at its right end: no free
    segment of positive length ends before the committed one does. *)
Theorem pass_commits_to_earliest_segment
  (block_size max_break : Z) (adaptive_breaks : bool) (tired min_gap : Z)
  (busy : list Interval) (window_start : Z)
  (w : WorkItem) (window_end remaining : Z) (st : PlanState) r :
  0 < block_size -> 0 < remaining ->
  window_start <= window_end <= due_min w ->
  place_step block_size max_break adaptive_breaks tired min_gap busy window_start
             w window_end remaining st = Some r ->
  exists fs fe alloc,
    In (fs, fe) (free_of busy window_start window_end st) /\
    (forall p, In p (free_of busy window_start window_end st) -> 0 < seg_len p ->
               fe <= snd p) /\
    alloc = Z.min (Z.min block_size remaining) (fe - fs) /\
    r = commit max_break adaptive_breaks tired min_gap window_start
               w window_end remaining fe alloc st /\
    fst (fst r) = fe - alloc.
Proof.
  intros Hb Hr Hw Hstep.
  pose proof (subtract_intervals_within window_start window_end
                (busy ++ map block_interval (plan_blocks st)) (proj1 Hw)) as Hwithin.
  rewrite Forall_forall in Hwithin.
  apply place_step_Some in Hstep.
  destruct Hstep as [fs [fe [alloc [Hin [Hfit [_ [_ [_ [_ ->]]]]]]]]].
  fold (free_of busy window_start window_end st) in Hin, Hfit, Hwithin.
  destruct (reverse_walk_spec block_size remaining (free_of busy window_start window_end st)
              (due_min w) Hb Hr) as [_ [_ Hwalk]].
  destruct (Hwalk fs fe alloc Hfit) as [_ Hlast].
  apply first_fit_Some in Hfit. destruct Hfit as [_ [_ [_ Halloc]]].
  exists fs, fe, alloc. split; [exact Hin|]. split; [|split; [exact Halloc|split]].
  - intros p Hp Hlen. specialize (Hlast p Hp Hlen).
    pose proof (Hwithin _ Hin) as Hc. pose proof (Hwithin _ Hp) as Hpw.
    unfold rank_le, dist_to_due in Hlast. simpl in Hc, Hlast. lia.
  - reflexivity.
  - destruct (commit_spec max_break adaptive_breaks tired min_gap window_start
                w window_end remaining fe alloc st) as [brk [extra [-> _]]].
    reflexivity.
Qed.

Lemma pass_commits_to_earliest_segment_witness :
  exists fs fe alloc,
    In (fs, fe) (free_of [] 480 700
                   (mkState [study_block (mkWorkItem "Math" "HW1" "2024-01-01" 600 60 false false)
                               540 600] [])) /\
    (forall p, In p (free_of [] 480 700
                       (mkState [study_block
                                   (mkWorkItem "Math" "HW1" "2024-01-01" 600 60 false false)
                                   540 600] [])) ->
               0 < seg_len p -> fe <= snd p) /\
    alloc = Z.min (Z.min 60 120) (fe - fs).
Proof.
  destruct (pass_commits_to_earliest_segment 60 60 true 5 10 [] 480
              (mkWorkItem "Phys" "Lab" "2024-01-01" 700 120 false false) 700 120
              (mkState [study_block (mkWorkItem "Math" "HW1" "2024-01-01" 600 60 false false)
                          540 600] [])
              _ ltac:(lia) ltac:(lia) ltac:(simpl; lia) eq_refl)
    as [fs [fe [alloc [Hin [Hfirst [Halloc _]]]]]].
  exists fs, fe, alloc. auto.
Defined.

(* ------------------------------------------------------------------ *)
(** * The Break blocks of a call                                        *)
(* ------------------------------------------------------------------ *)

Lemma breaks_attached_app (cap : Z) (l l' : list PlanBlock) (prev : option PlanBlock) :
  breaks_attached cap prev l ->
  breaks_attached cap (fold_left (fun _ b => Some b) l prev) l' ->
  breaks_attached cap prev (l ++ l').
Proof.
  revert prev. induction l as [|b l IH]; intros prev; [simpl; auto|].
  intros [Hb Hl] Hl'. split; [exact Hb|]. apply IH; [exact Hl|exact Hl'].
Qed.

Lemma breaks_attached_others (cap : Z) (l : list PlanBlock) (prev : option PlanBlock) :
  Forall (fun b => kind b <> "break"%string) l -> breaks_attached cap prev l.
Proof.
  intros Hl. revert prev. induction Hl as [|b l Hb Hl IH]; intros prev; simpl; [exact I|].
  split; [intros Hk; destruct (Hb Hk)|apply IH].
Qed.

Lemma breaks_attached_nth (cap : Z) (l : list PlanBlock) (prev : option PlanBlock) :
  breaks_attached cap prev l ->
  forall i b, nth_error l i = Some b -> kind b = "break"%string ->
    end_min b - start_min b <= cap /\
    exists s, match i with O => prev | S j => nth_error l j end = Some s /\
              kind s = "study"%string /\ start_min s = end_min b.
Proof.
  revert prev. induction l as [|a l IH]; intros prev Hl i b Hi Hk.
  - destruct i; discriminate Hi.
  - destruct Hl as [Ha Hl]. destruct i as [|i].
    + injection Hi as <-. exact (Ha Hk).
    + destruct (IH _ Hl i b Hi Hk) as [Hcap [s [Hs Hrest]]].
      split; [exact Hcap|]. exists s. split; [|exact Hrest].
      destruct i; exact Hs.
Qed.

Section BreakFacts.
Variable self : ScheduleEngine.
Variable block_size max_break : Z.
Variable adaptive_breaks : bool.
Variable tired : Z.
Variable min_gap_between_study : Z.
Variable busy : list Interval.
Variable window_start : Z.

Local Abbreviation cap := (break_cap max_break adaptive_breaks tired min_gap_between_study).

Lemma commit_breaks (w : WorkItem) (we rem fe alloc : Z) (st : PlanState) :
  breaks_attached cap None (plan_blocks st) ->
  breaks_attached cap None
    (plan_blocks (snd (commit max_break adaptive_breaks tired min_gap_between_study
                              window_start w we rem fe alloc st))).
Proof.
  intros Hst. unfold commit. cbn [snd].
  assert (Hstudy : breaks_attached cap None
            (plan_blocks st ++
               [mkPlanBlock (fe - alloc) fe (study_label w) "study" (w_course w) false])).
  { apply breaks_attached_app; [exact Hst|]. apply breaks_attached_others.
    constructor; [discriminate|constructor]. }
  destruct (rem - alloc >? 0); [|exact Hstudy].
  pose proof (compute_adaptive_break_bounds (rem - alloc) (fe - alloc) we
                (if adaptive_breaks then max_break else 0) tired
                (min_gap_between_study + tired * 3)) as Hb.
  set (brk := compute_adaptive_break _ _ _ _ _ _) in *.
  destruct (brk >? 0); [|exact Hstudy].
  destruct (Z.ltb_spec (Z.max window_start (fe - alloc - brk)) (fe - alloc)); [|exact Hstudy].
  cbn [plan_blocks]. rewrite <- app_assoc.
  apply breaks_attached_app; [exact Hst|].
  cbn [app breaks_attached kind start_min end_min]. split; [discriminate|].
  split; [|exact I]. intros _. split.
  - unfold break_cap. lia.
  - eexists. split; [reflexivity|]. split; reflexivity.
Qed.

Lemma plan_task_breaks (fuel : nat) (w : WorkItem) (st st' : PlanState) :
  breaks_attached cap None (plan_blocks st) ->
  plan_task self block_size max_break adaptive_breaks tired min_gap_between_study busy
            window_start fuel w st = Some st' ->
  breaks_attached cap None (plan_blocks st').
Proof.
  intros Hst. unfold plan_task.
  destruct (Z.min (day_end self) (due_min w) <=? window_start).
  - intros H. injection H as <-. exact Hst.
  - destruct (place_loop _ _ _ _ _ _ _ fuel w _ _ st) as [[rem st1]|] eqn:Hloop;
      [|discriminate].
    destruct (place_loop_invariant block_size max_break adaptive_breaks tired
                min_gap_between_study busy window_start w
                (fun _ _ s => breaks_attached cap None (plan_blocks s)))
      with (fuel := fuel) (we := Z.min (day_end self) (due_min w))
           (rem := minutes_needed w) (st := st) (rem' := rem) (st' := st1)
      as [we' [HP _]].
    + intros we0 rem0 st0 we1 rem1 st2 H0 _ Hstep.
      apply place_step_Some in Hstep.
      destruct Hstep as [fs [fe [alloc [_ [_ [_ [_ [_ [_ Hr]]]]]]]]].
      pose proof (commit_breaks w we0 rem0 fe alloc st0 H0) as Hc.
      rewrite <- Hr in Hc. exact Hc.
    + exact Hst.
    + exact Hloop.
    + destruct (rem >? 0); intros H; injection H as <-; exact HP.
Qed.

Lemma plan_tasks_breaks (fuel : nat) (pending : list WorkItem) (st st' : PlanState) :
  breaks_attached cap None (plan_blocks st) ->
  plan_tasks self block_size max_break adaptive_breaks tired min_gap_between_study busy
             window_start fuel pending st = Some st' ->
  breaks_attached cap None (plan_blocks st').
Proof.
  revert st. induction pending as [|w rest IH]; intros st Hst; simpl.
  - intros H. injection H as <-. exact Hst.
  - destruct (plan_task _ _ _ _ _ _ _ _ fuel w st) as [st1|] eqn:Ht; [|discriminate].
    apply IH. eapply plan_task_breaks; eauto.
Qed.
End BreakFacts.

(** X22. Every Break block [plan] returns comes directly after a Study
    block in the returned list, and ends at the minute that Study block
    starts; it lasts no longer than the larger of the gap asked of
    [compute_adaptive_break] (the minimum gap plus three minutes per
    tiredness level, after the clamp) and the scaled maximal break, which
    is that of a maximal break of 0 when adaptive breaks are off. *)
Theorem breaks_precede_their_study (fuel : nat) (self : ScheduleEngine)
  (lectures : list Lecture) (work : list WorkItem) (block_size max_break : Z)
  (adaptive_breaks : bool) (tired lecture_buffer_min min_gap_between_study : Z)
  blocks text :
  plan fuel self lectures work block_size max_break adaptive_breaks tired
       lecture_buffer_min min_gap_between_study = Some (blocks, text) ->
  forall i b, nth_error blocks i = Some b -> kind b = "break"%string ->
    end_min b - start_min b
      <= break_cap max_break adaptive_breaks (clamp_tired tired) min_gap_between_study /\
    exists j s, i = S j /\ nth_error blocks j = Some s /\
                kind s = "study"%string /\ start_min s = end_min b.
Proof.
  unfold plan. set (busy := merge_intervals _).
  destruct (plan_tasks _ _ _ _ _ _ _ _ _ _ _) as [st|] eqn:Hst; [|discriminate].
  intros H. injection H as <- _.
  apply plan_tasks_breaks in Hst; [|exact I].
  match goal with
  | |- context [fixed_items busy ?s] =>
      destruct (fixed_items_blocks busy s) as [lec [-> Hlec]]
  end.
  cbn [plan_blocks].
  assert (Hall : breaks_attached
            (break_cap max_break adaptive_breaks (clamp_tired tired) min_gap_between_study)
            None (plan_blocks st ++ lec)).
  { apply breaks_attached_app; [exact Hst|]. apply breaks_attached_others.
    eapply Forall_impl; [|exact Hlec]. intros a [Hk _]. rewrite Hk. discriminate. }
  intros i b Hi Hk.
  destruct (breaks_attached_nth _ _ _ Hall i b Hi Hk) as [Hcap [s [Hs Hrest]]].
  split; [exact Hcap|].
  destruct i as [|j]; [discriminate Hs|]. exists j, s. auto.
Qed.

Lemma breaks_precede_their_study_witness :
  end_min (break_block 480 510) - start_min (break_block 480 510)
    <= break_cap 60 true (clamp_tired 5) 10 /\
  exists j s, 1%nat = S j /\
    nth_error [study_block (mkWorkItem "Math" "HW1" "2024-01-01" 900 90 false false) 510 570;
               break_block 480 510;
               mkPlanBlock 570 690 "Lecture: Bio" "lecture" "Bio" false] j = Some s /\
    kind s = "study"%string /\ start_min s = end_min (break_block 480 510).
Proof.
  refine (breaks_precede_their_study 2000 (mkEngine 480 1320 None) [mkLecture "Bio" 600 660]
            [mkWorkItem "Math" "HW1" "2024-01-01" 900 90 false false] 60 60 true 5 30 10
            _ _ _ 1%nat (break_block 480 510) _ _).
  - vm_compute. reflexivity.
  - reflexivity.
  - reflexivity.
Defined.
